(** * personal_reminder: the record store and the two pipelines of [main.py]

    A shallow embedding of [src/main.py]: the CSV record store
    ([save_data_to_csv], [load_data_from_csv]), the demonstration run
    ([main]) and the two generator backends ([query_llm_with_llama_cpp],
    [query_llm_with_ollama]), together with the parts of the Python runtime
    they rest on (text files, [csv.DictWriter], [csv.DictReader],
    truthiness and subscripting of dynamically typed values, [str.strip]
    and the UTF-8 codec).

    Conventions.
    - A Python [str] is a list of Unicode code points ([N]).
    - A Python value is a [pyval]; a [dict] is an association list in
      insertion order whose keys are strings or [None].
    - A run is a function from a [world] (files, prompts sent to the
      generator, lines printed) to an outcome and the world it leaves; an
      exception keeps the effects that happened before it was raised.
    - The text generator, [json.loads], [json.dumps], the builtin [str] and
      the stream behind [print] are library code outside the repository:
      they are section variables, and so are the model and the service
      behind the two backends. *)

From Stdlib Require Import ZArith NArith List String Ascii Floats Lia Bool.
From stdpp Require Import base option list gmap.

Local Open Scope N_scope.
Local Set Warnings "-clear-no-such-hyp".

(** ** Text *)

Abbreviation char := N (only parsing).
Abbreviation str := (list N) (only parsing).

(** A string literal of the source, as code points. *)
Definition lit (s : string) : str :=
  map N_of_ascii (list_ascii_of_string s).

Definition LF : char := 10.
Definition CR : char := 13.
Definition DQUOTE : char := 34.
Definition COMMA : char := 44.

(** The UTF-8 codec encodes every code point up to U+10FFFF except the
    surrogates U+D800..U+DFFF. *)
Definition utf8_encodable (c : char) : bool :=
  (c <? 55296) || ((57343 <? c) && (c <? 1114112)).

(** ** Values and exceptions *)

#[warnings="-register-all"]
Inductive pyval : Type :=
| PyNone
| PyBool (b : bool)
| PyInt (z : Z)
| PyFloat (f : float)
| PyStr (s : list N)
| PyList (l : list pyval)
| PyDict (d : list (option (list N) * pyval)).

(** A dictionary key: a string, or [None] ([DictReader]'s [restkey]). *)
Abbreviation pykey := (option (list N)) (only parsing).
Abbreviation pydict := (list (option (list N) * pyval)) (only parsing).

Inductive exn : Type :=
| ValueError
| TypeError
| KeyError
| IndexError
| AttributeError
| UnicodeEncodeError
| JSONDecodeError
| RecursionError
| csv_Error
| OSError
| RuntimeError.

Inductive result (A : Type) : Type :=
| Ok (a : A)
| Raise (e : exn).
Arguments Ok {A} a.
Arguments Raise {A} e.

Definition rbind {A B} (r : result A) (k : A -> result B) : result B :=
  match r with
  | Ok a => k a
  | Raise e => Raise e
  end.

Definition key_val (k : pykey) : pyval :=
  match k with
  | Some s => PyStr s
  | None => PyNone
  end.

(** [bool(v)]. *)
Definition truthy (v : pyval) : bool :=
  match v with
  | PyNone => false
  | PyBool b => b
  | PyInt z => negb (Z.eqb z 0)
  | PyFloat f => negb (PrimFloat.eqb f PrimFloat.zero)
  | PyStr s => match s with [] => false | _ => true end
  | PyList l => match l with [] => false | _ => true end
  | PyDict d => match d with [] => false | _ => true end
  end.

(** [v[0]]. The keys of a [dict] are strings or [None], never [0]. *)
Definition getitem0 (v : pyval) : result pyval :=
  match v with
  | PyList (x :: _) => Ok x
  | PyList [] => Raise IndexError
  | PyStr (c :: _) => Ok (PyStr [c])
  | PyStr [] => Raise IndexError
  | PyDict _ => Raise KeyError
  | PyNone | PyBool _ | PyInt _ | PyFloat _ => Raise TypeError
  end.

(** [v.keys()]. *)
Definition keys (v : pyval) : result (list pykey) :=
  match v with
  | PyDict d => Ok (map fst d)
  | _ => Raise AttributeError
  end.

(** [for row in v]: the items the loop visits. *)
Definition iter (v : pyval) : result (list pyval) :=
  match v with
  | PyList l => Ok l
  | PyStr s => Ok (map (fun c => PyStr [c]) s)
  | PyDict d => Ok (map (fun kv => key_val (fst kv)) d)
  | PyNone | PyBool _ | PyInt _ | PyFloat _ => Raise TypeError
  end.

(** [d.get(k)]: the value stored under [k], if any. *)
Fixpoint dict_get (d : pydict) (k : pykey) : option pyval :=
  match d with
  | [] => None
  | (k', v) :: d' => if decide (k' = k) then Some v else dict_get d' k
  end.

(** [d[k] = v]: replaces the value in place, or adds the key at the end. *)
Fixpoint dict_set (d : pydict) (k : pykey) (v : pyval) : pydict :=
  match d with
  | [] => [(k, v)]
  | (k', v') :: d' =>
      if decide (k' = k) then (k', v) :: d' else (k', v') :: dict_set d' k v
  end.

(** [[d.get(key, '') for key in fieldnames]]. *)
Definition row_cells (fieldnames : list pykey) (d : pydict) : list pyval :=
  map (fun key => default (PyStr []) (dict_get d key)) fieldnames.

(** [dict(pairs)]. *)
Definition dict_of (kvs : list (pykey * pyval)) : pydict :=
  fold_left (fun d kv => dict_set d (fst kv) (snd kv)) kvs [].

(** ** Runs: state and exceptions *)

(** What a run can observe and change: the text files by path, the prompts
    sent to the generator so far (oldest first) and the lines printed. A
    file is held as the text its bytes decode to. *)
Record world : Type := World {
  w_files : gmap (list N) (list N);
  w_prompts : list (list N);
  w_stdout : list (list N)
}.

Definition M (A : Type) : Type := world -> result A * world.

#[global] Instance M_ret : MRet M := fun A a w => (Ok a, w).

#[global] Instance M_bind : MBind M := fun A B k m w =>
  match m w with
  | (Ok a, w') => k a w'
  | (Raise e, w') => (Raise e, w')
  end.

Definition raise {A} (e : exn) : M A := fun w => (Raise e, w).

(** An outcome computed without touching the world. *)
Definition lift {A} (r : result A) : M A := fun w => (r, w).

(** [for x in xs: body(x)]. *)
Fixpoint for_each {A} (xs : list A) (body : A -> M unit) : M unit :=
  match xs with
  | [] => mret tt
  | x :: xs' => body x ;; for_each xs' body
  end.

Definition set_files (w : world) (fs : gmap (list N) (list N)) : world :=
  {| w_files := fs; w_prompts := w_prompts w; w_stdout := w_stdout w |}.

(** ** Text files *)

(** [os.path.exists(path)]. *)
Definition os_path_exists (path : str) : M bool := fun w =>
  (Ok (bool_decide (is_Some (w_files w !! path))), w).

(** [open(path, mode='a', newline='', encoding='utf-8')]: creates the file
    when it is missing and leaves an existing one as it is. *)
Definition open_append (path : str) : M unit := fun w =>
  match w_files w !! path with
  | Some _ => (Ok tt, w)
  | None => (Ok tt, set_files w (<[path := []]> (w_files w)))
  end.

(** [f.write(s)] on a file opened by [open_append]: the text goes to the end
    of the file untranslated ([newline='']); the strict UTF-8 codec refuses
    a string with a surrogate and then nothing of it is written. *)
Definition f_write (path : str) (s : str) : M unit := fun w =>
  if forallb utf8_encodable s
  then (Ok tt, set_files w (<[path := default [] (w_files w !! path) ++ s]> (w_files w)))
  else (Raise UnicodeEncodeError, w).

(** Universal newlines, the default of [open(path, mode='r')]: on input a
    CR LF pair and a lone CR both become LF. [after_cr] tells that the
    previous character was a CR, whose LF is already out. *)
Fixpoint universal_newlines (after_cr : bool) (s : str) : str :=
  match s with
  | [] => []
  | c :: s' =>
      if c =? CR then LF :: universal_newlines true s'
      else if (c =? LF) && after_cr then universal_newlines false s'
      else c :: universal_newlines false s'
  end.

Definition translate_newlines (s : str) : str := universal_newlines false s.

(** Whether the text read so far leaves the translation just after a CR. *)
Fixpoint pending_cr (after_cr : bool) (s : str) : bool :=
  match s with
  | [] => after_cr
  | c :: s' => pending_cr (c =? CR) s'
  end.

(** The lines a text file iterates over: each ends after its ["\n"], the
    last one possibly without. *)
Fixpoint splitlines (s : str) : list str :=
  match s with
  | [] => []
  | c :: s' =>
      if c =? LF then [c] :: splitlines s'
      else match splitlines s' with
           | [] => [[c]]
           | l :: ls => (c :: l) :: ls
           end
  end.

(** The lines of [open(path, mode='r', encoding='utf-8')]. *)
Definition f_lines (path : str) : M (list str) := fun w =>
  match w_files w !! path with
  | Some content => (Ok (splitlines (translate_newlines content)), w)
  | None => (Raise OSError, w)
  end.

(** ** [csv.writer], dialect [excel]

    delimiter comma, quotechar the double quote, doublequote, lineterminator
    CR LF,
    [QUOTE_MINIMAL], no escapechar. *)

Definition lineterminator : str := [CR; LF].

Record WriterObj : Type := { rec : list N; num_fields : nat }.

Definition join_reset : WriterObj := {| rec := []; num_fields := 0 |}.

(** The characters that force a field into quotes. *)
Definition needs_quoting (c : char) : bool :=
  (c =? COMMA) || (c =? DQUOTE) || (c =? LF) || (c =? CR)
  || existsb (N.eqb c) lineterminator.

(** The field's characters as copied into the record: a quote is doubled. *)
Fixpoint join_copy (field : str) : str :=
  match field with
  | [] => []
  | c :: field' =>
      (if c =? DQUOTE then [DQUOTE; c] else [c]) ++ join_copy field'
  end.

(** [join_append]: adds one field to the record under construction. A null
    field ([None]) contributes no characters. *)
Definition join_append (w : WriterObj) (field : option str) (quoted : bool)
  : WriterObj :=
  let data := default [] field in
  let quoted' := quoted || existsb needs_quoting data in
  {| rec := rec w
            ++ (match num_fields w with O => [] | S _ => [COMMA] end)
            ++ (if quoted' then [DQUOTE] ++ join_copy data ++ [DQUOTE]
                else join_copy data);
     num_fields := S (num_fields w) |}.

(** ** [csv.reader], dialect [excel] *)

Inductive ParserState : Type :=
| START_RECORD
| START_FIELD
| IN_FIELD
| IN_QUOTED_FIELD
| QUOTE_IN_QUOTED_FIELD
| EAT_CRNL.

#[global] Instance ParserState_eq_dec : EqDecision ParserState.
Proof. solve_decision. Defined.

Record ReaderObj : Type := {
  state : ParserState;
  fields : list (list N);
  field : list N
}.

(** [csv.field_size_limit()]. *)
Definition field_limit : N := 131072.

Definition parse_reset : ReaderObj :=
  {| state := START_RECORD; fields := []; field := [] |}.

Definition set_state (r : ReaderObj) (s : ParserState) : ReaderObj :=
  {| state := s; fields := fields r; field := field r |}.

Definition parse_save_field (r : ReaderObj) : ReaderObj :=
  {| state := state r; fields := fields r ++ [field r]; field := [] |}.

Definition parse_add_char (r : ReaderObj) (c : char) : result ReaderObj :=
  if N.of_nat (length (field r)) <? field_limit
  then Ok {| state := state r; fields := fields r; field := field r ++ [c] |}
  else Raise csv_Error.

Definition is_newline (c : char) : bool := (c =? LF) || (c =? CR).

(** [parse_process_char]; [None] is the end-of-line marker [EOL] that the
    reader feeds after the characters of each line. The branches for an
    escapechar, [skipinitialspace], [strict] and the other quoting modes
    are not taken under this dialect. *)
Definition parse_process_char (r : ReaderObj) (c : option char)
  : result ReaderObj :=
  let start_field (r : ReaderObj) :=
    match c with
    | None => Ok (set_state (parse_save_field r) START_RECORD)
    | Some ch =>
        if is_newline ch then Ok (set_state (parse_save_field r) EAT_CRNL)
        else if ch =? DQUOTE then Ok (set_state r IN_QUOTED_FIELD)
        else if ch =? COMMA then Ok (parse_save_field r)
        else rbind (parse_add_char r ch) (fun r' => Ok (set_state r' IN_FIELD))
    end in
  match state r with
  | START_RECORD =>
      match c with
      | None => Ok r
      | Some ch =>
          if is_newline ch then Ok (set_state r EAT_CRNL)
          else start_field (set_state r START_FIELD)
      end
  | START_FIELD => start_field r
  | IN_FIELD =>
      match c with
      | None => Ok (set_state (parse_save_field r) START_RECORD)
      | Some ch =>
          if is_newline ch then Ok (set_state (parse_save_field r) EAT_CRNL)
          else if ch =? COMMA
               then Ok (set_state (parse_save_field r) START_FIELD)
          else parse_add_char r ch
      end
  | IN_QUOTED_FIELD =>
      match c with
      | None => Ok r
      | Some ch =>
          if ch =? DQUOTE then Ok (set_state r QUOTE_IN_QUOTED_FIELD)
          else parse_add_char r ch
      end
  | QUOTE_IN_QUOTED_FIELD =>
      match c with
      | None => Ok (set_state (parse_save_field r) START_RECORD)
      | Some ch =>
          if ch =? DQUOTE
          then rbind (parse_add_char r ch)
                     (fun r' => Ok (set_state r' IN_QUOTED_FIELD))
          else if ch =? COMMA
               then Ok (set_state (parse_save_field r) START_FIELD)
          else if is_newline ch
               then Ok (set_state (parse_save_field r) EAT_CRNL)
          else rbind (parse_add_char r ch)
                     (fun r' => Ok (set_state r' IN_FIELD))
      end
  | EAT_CRNL =>
      match c with
      | None => Ok (set_state r START_RECORD)
      | Some ch => if is_newline ch then Ok r else Raise csv_Error
      end
  end.

(** One line of input: its characters, then [EOL]. *)
Fixpoint feed_line (r : ReaderObj) (line : str) : result ReaderObj :=
  match line with
  | [] => parse_process_char r None
  | c :: line' =>
      rbind (parse_process_char r (Some c)) (fun r' => feed_line r' line')
  end.

(** The rows that successive [next(reader)] calls return until the input is
    exhausted. [Reader_iternext] feeds lines until the parser is back in
    [START_RECORD], returns the fields and starts the next call from
    [parse_reset]; when the lines run out inside a record it returns what
    it holds if a field is open. *)
Fixpoint Reader_rows (r : ReaderObj) (lines : list str)
  : result (list (list str)) :=
  match lines with
  | [] =>
      if negb (Nat.eqb (length (field r)) 0)
         || bool_decide (state r = IN_QUOTED_FIELD)
      then Ok [fields (parse_save_field r)]
      else Ok []
  | line :: lines' =>
      rbind (feed_line r line) (fun r' =>
        if bool_decide (state r' = START_RECORD)
        then rbind (Reader_rows parse_reset lines')
                   (fun rows => Ok (fields r' :: rows))
        else Reader_rows r' lines')
  end.

(** ** [csv.DictReader] *)

(** [DictReader.__next__] on one non-blank row: [dict(zip(fieldnames, row))],
    the surplus cells under [restkey = None], the missing ones as
    [restval = None]. *)
Definition DictReader_row (fieldnames row : list str) : pydict :=
  let d := dict_of (zip (map Some fieldnames) (map PyStr row)) in
  let lf := length fieldnames in
  let lr := length row in
  if Nat.ltb lf lr then dict_set d None (PyList (map PyStr (drop lf row)))
  else if Nat.ltb lr lf
       then fold_left (fun d key => dict_set d (Some key) PyNone)
                      (drop lr fieldnames) d
  else d.

Definition is_blank (row : list str) : bool :=
  match row with [] => true | _ => false end.

(** [list(DictReader(f))] from the reader's rows: the first row, whatever it
    is, gives the field names; later blank rows are skipped. *)
Definition DictReader_rows (rows : list (list str)) : list pydict :=
  match rows with
  | [] => []
  | fieldnames :: rows' =>
      map (DictReader_row fieldnames)
          (filter (fun row => negb (is_blank row)) rows')
  end.

(** ** The generator backends

    [query_llm_with_llama_cpp] and [query_llm_with_ollama] hand the prompt
    to a model outside the repository and clean up its answer. The model
    ([llama_cpp.Llama]) and the service ([subprocess.run] of [ollama]) are
    variables; [str.strip], [str.encode], [bytes.decode] and subscripting
    are modelled. *)

(** [c.isspace()]: the characters [str.strip()] removes. *)
Definition is_space (c : char) : bool :=
  ((9 <=? c) && (c <=? 13)) || ((28 <=? c) && (c <=? 32))
  || (c =? 133) || (c =? 160) || (c =? 5760)
  || ((8192 <=? c) && (c <=? 8202))
  || (c =? 8232) || (c =? 8233) || (c =? 8239) || (c =? 8287)
  || (c =? 12288).

Fixpoint lstrip (s : str) : str :=
  match s with
  | [] => []
  | c :: s' => if is_space c then lstrip s' else s
  end.

Fixpoint rstrip (s : str) : str :=
  match s with
  | [] => []
  | c :: s' =>
      match rstrip s' with
      | [] => if is_space c then [] else [c]
      | kept => c :: kept
      end
  end.

(** [s.strip()]. *)
Definition str_strip (s : str) : str := rstrip (lstrip s).

(** [v.strip()] on a value: only a string has the method. *)
Definition strip (v : pyval) : result str :=
  match v with
  | PyStr s => Ok (str_strip s)
  | _ => Raise AttributeError
  end.

(** [v[key]] for a string [key]: a mapping looks the key up; a list or a
    string wants an integer; the other values cannot be subscripted. *)
Definition getitem (v : pyval) (key : str) : result pyval :=
  match v with
  | PyDict d =>
      match dict_get d (Some key) with
      | Some x => Ok x
      | None => Raise KeyError
      end
  | _ => Raise TypeError
  end.

(** *** UTF-8 *)

Definition byte_of (n : N) : Byte.byte := default Byte.x00 (Byte.of_N n).

(** The bytes of one code point that the codec accepts. *)
Definition utf8_encode_char (c : char) : list Byte.byte :=
  if c <? 128 then [byte_of c]
  else if c <? 2048 then
    [byte_of (192 + c / 64); byte_of (128 + c mod 64)]
  else if c <? 65536 then
    [byte_of (224 + c / 4096); byte_of (128 + (c / 64) mod 64);
     byte_of (128 + c mod 64)]
  else
    [byte_of (240 + c / 262144); byte_of (128 + (c / 4096) mod 64);
     byte_of (128 + (c / 64) mod 64); byte_of (128 + c mod 64)].

(** [s.encode('utf-8')]. *)
Definition str_encode (s : str) : result (list Byte.byte) :=
  if forallb utf8_encodable s then Ok (flat_map utf8_encode_char s)
  else Raise UnicodeEncodeError.

(** The payload of a byte that continues a sequence, when it lies in the
    range allowed at its place. *)
Definition continuation (b : Byte.byte) (lo hi : N) : option N :=
  let n := Byte.to_N b in
  if (lo <=? n) && (n <=? hi) then Some (n - 128) else None.

(** [b.decode('utf-8')] with the strict error handler; [None] stands for
    UnicodeDecodeError. Only shortest forms are accepted, and neither
    surrogates nor code points above U+10FFFF. *)
Fixpoint bytes_decode (bs : list Byte.byte) : option str :=
  match bs with
  | [] => Some []
  | b0 :: bs1 =>
      let n0 := Byte.to_N b0 in
      if n0 <? 128 then cons n0 <$> bytes_decode bs1
      else if n0 <? 194 then None
      else if n0 <? 224 then
        match bs1 with
        | b1 :: bs2 =>
            x1 ← continuation b1 128 191;
            cons ((n0 - 192) * 64 + x1) <$> bytes_decode bs2
        | _ => None
        end
      else if n0 <? 240 then
        match bs1 with
        | b1 :: b2 :: bs3 =>
            x1 ← continuation b1 (if n0 =? 224 then 160 else 128)
                                 (if n0 =? 237 then 159 else 191);
            x2 ← continuation b2 128 191;
            cons ((n0 - 224) * 4096 + x1 * 64 + x2) <$> bytes_decode bs3
        | _ => None
        end
      else if n0 <? 245 then
        match bs1 with
        | b1 :: b2 :: b3 :: bs4 =>
            x1 ← continuation b1 (if n0 =? 240 then 144 else 128)
                                 (if n0 =? 244 then 143 else 191);
            x2 ← continuation b2 128 191;
            x3 ← continuation b3 128 191;
            cons ((n0 - 240) * 262144 + x1 * 4096 + x2 * 64 + x3)
              <$> bytes_decode bs4
        | _ => None
        end
      else None
  end.

(** What [subprocess.run(..., stdout=subprocess.PIPE)] returns. *)
Record CompletedProcess : Type := {
  returncode : Z;
  stdout : list Byte.byte
}.

(** The exceptions of a backend call: those of [exn] and the error of
    [bytes.decode]. *)
Inductive backend_exn : Type :=
| UnicodeDecodeError
| Exn (e : exn).

Inductive reply : Type :=
| Answer (text : list N)
| Fails (e : backend_exn).

Section Backends.

(** [llama_cpp.Llama]: the model object, its construction (with the import
    of the package) and a call of it, which returns the completion as a
    value. *)
Variable Llama : Type.
Variable Llama_load : list N -> Z -> result Llama.
Variable Llama_call :
  Llama -> list N -> list (list N) -> bool -> result pyval.
(** [subprocess.run(args, input=..., stdout=subprocess.PIPE)]. *)
Variable subprocess_run :
  list (list N) -> list Byte.byte -> result CompletedProcess.

Definition query_llm_with_llama_cpp (prompt : str) (model_path : str)
  : result str :=
  rbind (Llama_load model_path 2048) (fun llm =>
  rbind (Llama_call llm prompt [lit "Q:"; lit "User:"; lit "LLM:"] false)
        (fun response =>
  rbind (getitem response (lit "choices")) (fun choices =>
  rbind (getitem0 choices) (fun choice =>
  rbind (getitem choice (lit "text")) (fun text =>
  strip text))))).

Definition query_llm_with_ollama (prompt : str) (model_name : str) : reply :=
  match str_encode prompt with
  | Raise e => Fails (Exn e)
  | Ok input =>
      match subprocess_run [lit "ollama"; lit "run"; model_name] input with
      | Raise e => Fails (Exn e)
      | Ok completed =>
          match bytes_decode (stdout completed) with
          | None => Fails UnicodeDecodeError
          | Some text => Answer (str_strip text)
          end
      end
  end.

End Backends.

(** The default arguments of the two backends. *)
Definition default_model_path : str := lit "path/to/ggml-model.bin".
Definition default_model_name : str := lit "my-model".

(** [query_llm = query_llm_with_llama_cpp]: the backend that [main] calls,
    with the model path left to its default. The library may answer one
    call differently from the next, so it is given the prompts sent
    before. *)
Definition chosen_backend (Llama : Type)
           (Llama_load : list (list N) -> list N -> Z -> result Llama)
           (Llama_call : list (list N) -> Llama -> list N -> list (list N)
                         -> bool -> result pyval)
  : list (list N) -> list N -> result (list N) :=
  fun history prompt =>
    query_llm_with_llama_cpp Llama (Llama_load history) (Llama_call history)
                             prompt default_model_path.

(** Text that neither begins nor ends with whitespace. *)
Definition stripped (s : str) : Prop :=
  (forall c, head s = Some c -> is_space c = false)
  /\ (forall c, last s = Some c -> is_space c = false).

(** ** Stand-ins for the library code, used by the worked examples *)

Module Stub.

(** A stand-in for the builtin [str]. *)
Definition str_of (v : pyval) : list N :=
  match v with
  | PyBool true => lit "True"
  | PyBool false => lit "False"
  | PyStr s => s
  | _ => lit "<object>"
  end.

(** A stand-in for [json.loads] that knows five texts and rejects every
    other one. *)
Definition loads (s : list N) : result pyval :=
  if decide (s = lit "[]") then Ok (PyList [])
  else if decide (s = lit "5") then Ok (PyInt 5)
  else if decide (s = lit "0") then Ok (PyInt 0)
  else if decide (s = lit "{}") then Ok (PyDict [])
  else if decide (s = lit "[{}]") then Ok (PyList [PyDict []])
  else Raise JSONDecodeError.

(** A stand-in for [json.dumps]: the number of top-level items. *)
Definition dumps (v : pyval) : list N :=
  match v with
  | PyList l => repeat 35 (length l)
  | _ => lit "<value>"
  end.

(** A stand-in for [sys.stdout] with a strict UTF-8 encoding: it takes
    every text that UTF-8 can express and raises on the other ones,
    whatever it took before. *)
Definition utf8_stdout (printed : list (list N)) (s : list N) : result unit :=
  if forallb utf8_encodable s then Ok tt else Raise UnicodeEncodeError.

(** A scripted generator: the n-th call returns the n-th text of the
    script, whatever the prompt; it fails when the script is used up. *)
Definition scripted (script : list (list N)) (history : list (list N))
           (prompt : list N) : result (list N) :=
  match script !! length history with
  | Some response => Ok response
  | None => Raise RuntimeError
  end.

End Stub.

(** ** Data of the worked examples *)

Module Sample.

Definition path : list N := lit "data.csv".

Definition crlf : list N := [CR; LF].

(** No file, nothing sent, nothing printed. *)
Definition empty_world : world := World ∅ [] [].

(** A world whose table holds one activity. *)
Definition table_text : list N :=
  lit "date,title,detail" ++ crlf ++ lit "2024-05-01,Standup,daily" ++ crlf.

Definition stocked_world : world := World {[ path := table_text ]} [] [].

(** Two activities; the second lists its keys in another order and has an
    empty detail; the first has a comma, a quote and a line feed in its
    values. *)
Definition meeting : list (list N * list N) :=
  [(lit "date", lit "2024-05-02");
   (lit "title", lit "Meeting, project " ++ [DQUOTE] ++ lit "X" ++ [DQUOTE]);
   (lit "detail", lit "2pm" ++ [LF] ++ lit "3pm")].

Definition follow_up : list (list N * list N) :=
  [(lit "title", lit "Follow-up");
   (lit "detail", []);
   (lit "date", lit "2024-05-03")].

(** Mappings for the writer: a full one, one with a key of its own, one
    that lacks a key, and one whose value holds a lone surrogate. *)
Definition full : list (option (list N) * pyval) :=
  [(Some (lit "a"), PyStr (lit "1")); (Some (lit "b"), PyStr (lit "2"))].

Definition extra : list (option (list N) * pyval) :=
  [(Some (lit "a"), PyStr (lit "3")); (Some (lit "c"), PyStr (lit "4"))].

Definition partial : list (option (list N) * pyval) :=
  [(Some (lit "b"), PyStr (lit "5"))].

Definition surrogate : list (list N * list N) := [(lit "k", [55296])].

(** A record whose value is one character longer than the reader's field
    limit. *)
Definition long_value : list N := repeat 120 (N.to_nat 131073).

Definition long_record : list (list N * list N) := [(lit "k", long_value)].

(** A table with header a, b and one row, with and without its last line
    break, and a record that lists the same keys as b, a. *)
Definition ab_table : list N := lit "a,b" ++ crlf ++ lit "1,2" ++ crlf.

Definition ab_unfinished : list N := lit "a,b" ++ crlf ++ lit "1,2".

Definition ba_record : list (list N * list N) :=
  [(lit "b", lit "x"); (lit "a", lit "y")].

Definition ab_record : list (list N * list N) :=
  [(lit "a", lit "x"); (lit "b", lit "y")].

Definition ab_world : world := World {[ path := ab_table ]} [] [].

Definition ab_unfinished_world : world :=
  World {[ path := ab_unfinished ]} [] [].

(** The answers of the generator in the example runs. *)
Definition activities_text : list N :=
  lit "2024-05-01 Standup; 2024-05-03 Follow-up 10am".

(** The script of a run in which the structuring call answers with the
    empty array and the decision call with [decision]. *)
Definition script (decision : list N) : list (list N) :=
  [activities_text; lit "[]"; decision; lit "the report"].

End Sample.

(** ** More data for the worked examples *)

Module Scenario.

(** A second destination. *)
Definition copy_path : list N := lit "copy.csv".

(** A world whose storage file exists and is empty. *)
Definition touched_world : world := World {[ Sample.path := [] ]} [] [].

(** A record whose field name is a lone surrogate. *)
Definition surrogate_name : list (option (list N) * pyval) :=
  [(Some [55296], PyStr (lit "v"))].

(** Mappings with values that are not text, a flag and None, and a mapping
    that lacks the flag. *)
Definition flags : list (list N) := [lit "done"; lit "note"].

Definition flagged : list (option (list N) * pyval) :=
  [(Some (lit "done"), PyBool true); (Some (lit "note"), PyNone)].

Definition unflagged : list (option (list N) * pyval) :=
  [(Some (lit "note"), PyStr (lit "later"))].

(** A table with a row narrower and a row wider than its header. *)
Definition ragged_names : list (list N) := [lit "a"; lit "b"].

Definition ragged_rows : list (list (list N)) :=
  [[lit "1"]; [lit "1"; lit "2"; lit "3"]].

Definition ragged_text : list N :=
  lit "a,b" ++ Sample.crlf ++ lit "1" ++ Sample.crlf
  ++ lit "1,2,3" ++ Sample.crlf.

Definition ragged_world : world :=
  World {[ Sample.path := ragged_text ]} [] [].

(** A table with blank lines among its rows, and the same table without
    them. *)
Definition gapped_rows : list (list (list N)) := [[]; [lit "1"]; []].

Definition gapped_world : world :=
  World {[ Sample.path :=
             lit "a" ++ Sample.crlf ++ Sample.crlf
             ++ lit "1" ++ Sample.crlf ++ Sample.crlf ]} [] [].

Definition dense_world : world :=
  World {[ Sample.path := lit "a" ++ Sample.crlf ++ lit "1" ++ Sample.crlf ]}
        [] [].

(** A record whose value holds a carriage return and line feed pair and a
    lone carriage return. *)
Definition typed_on_windows : list (list N * list N) :=
  [(lit "note", lit "one" ++ Sample.crlf ++ lit "two" ++ [CR])].

(** The answer of the structuring call in the end-to-end run, and a
    stand-in for [json.loads] that decodes it to two activities. *)
Definition json_text : list N := lit "[two activities]".

Definition activities : pyval :=
  PyList (map (fun record =>
                 PyDict (map (fun kv => (Some (fst kv), PyStr (snd kv)))
                             record))
              [Sample.meeting; Sample.follow_up]).

Definition loads (s : list N) : result pyval :=
  if decide (s = json_text) then Ok activities else Raise JSONDecodeError.

Definition script (decision : list N) : list (list N) :=
  [Sample.activities_text; json_text; decision; lit "the report"].




(** The script of a run whose report holds a lone surrogate, which a
    stream with a strict encoding cannot take. *)
Definition unprintable_script : list (list N) :=
  [Sample.activities_text; lit "[]"; lit "NO_UPDATE_NEEDED"; [55296]].

(** A stand-in for the model: it loads, and completes every prompt with
    the same padded text. *)
Definition llama_load (history : list (list N)) (model_path : list N)
           (n_ctx : Z) : result unit :=
  Ok tt.

Definition llama_call (history : list (list N)) (llm : unit)
           (prompt : list N) (stop : list (list N)) (echo : bool)
  : result pyval :=
  Ok (PyDict [(Some (lit "choices"),
               PyList [PyDict [(Some (lit "text"), PyStr (lit " [] "))]])]).

(** A stand-in for the service: it fails, and prints what it was sent. *)
Definition echo_service (args : list (list N)) (input : list Byte.byte)
  : result CompletedProcess :=
  Ok {| returncode := 1; stdout := input |}.

End Scenario.

(** ** The program *)

Section Program.

Set Default Proof Using "Type".

(** The builtin [str], applied to a cell that is neither a string nor
    [None]. *)
Variable builtin_str : pyval -> list N.
(** [json.loads(text)]. *)
Variable json_loads : list N -> result pyval.
(** [json.dumps(value, indent=2)]. *)
Variable json_dumps : pyval -> list N.
(** The chosen generator backend: its answer to a prompt, given the
    prompts it was sent before. *)
Variable backend : list (list N) -> list N -> result (list N).
(** [sys.stdout]: whether the stream takes a line, given the lines it took
    before. It raises when it cannot take it: UnicodeEncodeError for a text
    its encoding cannot express, OSError when it is closed. *)
Variable stdout_write : list (list N) -> list N -> result unit.

(** *** [csv.writer.writerow] and [csv.DictWriter] *)

(** The text of a cell: a string as it is, [None] as a null field,
    anything else through [str]. *)
Definition field_text (v : pyval) : option str :=
  match v with
  | PyStr s => Some s
  | PyNone => None
  | _ => Some (builtin_str v)
  end.

(** [csv_writerow]: the line handed to the file's [write]. A record that
    came out empty although it has a field is written as two quotes. *)
Definition csv_writerow (row : list pyval) : str :=
  let w := fold_left (fun w v => join_append w (field_text v) false)
                     row join_reset in
  let w := if Nat.ltb 0 (num_fields w) && Nat.eqb (length (rec w)) 0
           then join_append {| rec := rec w;
                               num_fields := Nat.pred (num_fields w) |}
                            None true
           else w in
  rec w ++ lineterminator.

(** [DictWriter._dict_to_list] with [extrasaction='raise'] and
    [restval='']: a key outside [fieldnames] is refused; otherwise the
    cells are [rowdict.get(key, '')] for each field name in turn. *)
Definition dict_to_list (fieldnames : list pykey) (rowdict : pyval)
  : result (list pyval) :=
  rbind (keys rowdict) (fun ks =>
    match list_difference ks fieldnames with
    | _ :: _ => Raise ValueError
    | [] =>
        match rowdict with
        | PyDict d => Ok (row_cells fieldnames d)
        | _ => Raise AttributeError
        end
    end).

Definition DictWriter_writerow (f : str) (fieldnames : list pykey)
           (rowdict : pyval) : M unit :=
  row ← lift (dict_to_list fieldnames rowdict);
  f_write f (csv_writerow row).

Definition DictWriter_writeheader (f : str) (fieldnames : list pykey)
  : M unit :=
  let header := dict_of (zip fieldnames (map key_val fieldnames)) in
  DictWriter_writerow f fieldnames (PyDict header).

(** *** The record store *)

Definition STORAGE_FILE : str := lit "data.csv".

Definition save_data_to_csv (data : pyval) (file_path : str) : M unit :=
  if negb (truthy data) then mret tt
  else
    first ← lift (getitem0 data);
    fieldnames ← lift (keys first);
    file_exists ← os_path_exists file_path;
    open_append file_path;;
    (if negb file_exists
     then DictWriter_writeheader file_path fieldnames
     else mret tt);;
    rows ← lift (iter data);
    for_each rows (DictWriter_writerow file_path fieldnames).

Definition load_data_from_csv (file_path : str) : M pyval :=
  file_exists ← os_path_exists file_path;
  if negb file_exists then mret (PyList [])
  else
    lines ← f_lines file_path;
    rows ← lift (Reader_rows parse_reset lines);
    mret (PyList (map PyDict (DictReader_rows rows))).

(** *** The demonstration run *)

(** [query_llm(prompt)]: the prompt is recorded, the backend answers or
    raises. *)
Definition query_llm (prompt : str) : M str := fun w =>
  (backend (w_prompts w) prompt,
   {| w_files := w_files w;
      w_prompts := w_prompts w ++ [prompt];
      w_stdout := w_stdout w |}).

(** [print(s)]: the text goes to [sys.stdout] as one line. The line is out
    when the stream has taken it; a stream that raises has written nothing
    of the text it refuses, and the lines before it stay out. *)
Definition print (s : str) : M unit := fun w =>
  match stdout_write (w_stdout w) s with
  | Ok _ =>
      (Ok tt,
       {| w_files := w_files w;
          w_prompts := w_prompts w;
          w_stdout := w_stdout w ++ [s] |})
  | Raise e => (Raise e, w)
  end.

(** [needle in haystack] on strings. *)
Fixpoint str_contains (needle haystack : str) : bool :=
  bool_decide (take (length needle) haystack = needle)
  || match haystack with
     | [] => false
     | _ :: haystack' => str_contains needle haystack'
     end.

Definition nl : str := [LF].
Definition dq : str := [DQUOTE].

Definition user_input : str :=
  lit "Yesterday I had a meeting about project X from 2pm to 3pm. I also need to schedule a follow-up at 10am tomorrow.".

Definition extract_prompt : str :=
  nl ++ lit "    The user provided the following activity details:"
  ++ nl ++ lit "    " ++ dq ++ user_input ++ dq
  ++ nl
  ++ nl ++ lit "    Extract the main activities and their times as structured text without additional commentary."
  ++ nl ++ lit "    Each activity should have a date, title, and detail."
  ++ nl ++ lit "    If a date/time isn't explicitly given, infer a reasonable date or leave it blank."
  ++ nl ++ lit "    ".

Definition json_prompt (extracted_activities : str) : str :=
  nl ++ lit "    Take the following extracted activities:"
  ++ nl ++ lit "    " ++ dq ++ extracted_activities ++ dq
  ++ nl
  ++ nl ++ lit "    Convert them into a JSON array of objects. "
  ++ nl ++ lit "    Each object should have keys: " ++ dq ++ lit "date" ++ dq
        ++ lit ", " ++ dq ++ lit "title" ++ dq
        ++ lit ", " ++ dq ++ lit "detail" ++ dq ++ lit "."
  ++ nl ++ lit "    ".

Definition user_request : str := lit "What is my schedule for tomorrow?".

Definition react_prompt : str :=
  nl ++ lit "    The user asked: " ++ dq ++ user_request ++ dq
  ++ nl
  ++ nl ++ lit "    You have some stored activities in a CSV file. "
  ++ nl ++ lit "    Determine if you need to retrieve and update your data from the storage before answering."
  ++ nl ++ lit "    Respond with " ++ dq ++ lit "NEED_DATA_UPDATE" ++ dq
        ++ lit " if you must retrieve data before answering, otherwise "
        ++ dq ++ lit "NO_UPDATE_NEEDED" ++ dq ++ lit "."
  ++ nl ++ lit "    ".

(** The summarization prompt of either branch; [heading] is its first
    sentence and [data] the embedded JSON text. *)
Definition augment_prompt (heading data : str) : str :=
  nl ++ lit "        " ++ heading
  ++ nl ++ lit "        " ++ data
  ++ nl
  ++ nl ++ lit "        The user wants their schedule for tomorrow. "
  ++ nl ++ lit "        Summarize the activities scheduled for tomorrow in a clear, concise manner."
  ++ nl ++ lit "        If no activities are scheduled, say so."
  ++ nl ++ lit "        ".

Definition stored_heading : str :=
  lit "You have the following stored activities:".
Definition memory_heading : str :=
  lit "You have the following activities in memory:".

(** Steps 1 to 3 of [main]: two generator calls and the parse, with the
    fallback of the [except json.JSONDecodeError] clause. *)
Definition extraction_pipeline : M pyval :=
  extracted_activities ← query_llm extract_prompt;
  json_str ← query_llm (json_prompt extracted_activities);
  match json_loads json_str with
  | Ok activities_data => mret activities_data
  | Raise JSONDecodeError => mret (PyList [])
  | Raise e => raise e
  end.

(** Steps 6 to 10 of [main]: the decision call and the two branches. *)
Definition query_pipeline (current_memory : pyval) : M unit :=
  react_response ← query_llm react_prompt;
  if str_contains (lit "NEED_DATA_UPDATE") react_response
  then
    updated_data ← load_data_from_csv STORAGE_FILE;
    schedule_report ←
      query_llm (augment_prompt stored_heading (json_dumps updated_data));
    print (lit "Schedule for tomorrow:");;
    print schedule_report
  else
    schedule_report ←
      query_llm (augment_prompt memory_heading (json_dumps current_memory));
    print (lit "Schedule for tomorrow:");;
    print schedule_report.

Definition main : M unit :=
  activities_data ← extraction_pipeline;
  save_data_to_csv activities_data STORAGE_FILE;;
  let current_memory := activities_data in
  query_pipeline current_memory.

(** *** Vocabulary of the statements *)

(** A record typed [Dict[str, str]], and a batch of them, as values. *)
Definition of_record (record : list (list N * list N)) : pydict :=
  map (fun kv => (Some (fst kv), PyStr (snd kv))) record.

Definition of_batch (batch : list (list (list N * list N))) : pyval :=
  PyList (map (fun record => PyDict (of_record record)) batch).

(** The text a cell is written as, before quoting. *)
Definition cell_text (v : pyval) : str := default [] (field_text v).

(** Text that survives the file: encodable, without a carriage return,
    and within the reader's field limit. *)
Definition clean (s : str) : Prop :=
  forallb utf8_encodable s = true
  /\ (CR ∉ s)
  /\ N.of_nat (length s) <= field_limit.

(** The reader state left when the lines run out: [parse_reset] exactly
    when the last line closed a record (or there was no line). *)
Fixpoint Reader_rest (r : ReaderObj) (lines : list str) : result ReaderObj :=
  match lines with
  | [] => Ok r
  | line :: lines' =>
      rbind (feed_line r line) (fun r' =>
        if bool_decide (state r' = START_RECORD)
        then Reader_rest parse_reset lines'
        else Reader_rest r' lines')
  end.

(** The stored text ends where a new row can start: after a line break
    that is not inside a quoted field. *)
Definition ends_at_row_boundary (content : str) : Prop :=
  (exists c, last content = Some c /\ is_newline c = true)
  /\ Reader_rest parse_reset (splitlines (translate_newlines content))
     = Ok parse_reset.

(** [needle] occurs in [haystack]. *)
Definition occurs_in (needle haystack : str) : Prop :=
  exists before after, haystack = before ++ needle ++ after.

(** *** The reader as one pass over the translated text

    [Reader_scan r t] reads the text [t] character by character, feeding
    the end-of-line marker after every LF; it returns the rows completed
    so far and the state reached. *)
Fixpoint Reader_scan (r : ReaderObj) (t : str)
  : result (list (list str) * ReaderObj) :=
  match t with
  | [] => Ok ([], r)
  | c :: t' =>
      rbind (parse_process_char r (Some c)) (fun r1 =>
        if c =? LF then
          rbind (parse_process_char r1 None) (fun r2 =>
            if bool_decide (state r2 = START_RECORD)
            then rbind (Reader_scan parse_reset t')
                       (fun out => Ok (fields r2 :: fst out, snd out))
            else Reader_scan r2 t')
        else Reader_scan r1 t')
  end.

(** The last line of the text is terminated. *)
Definition complete (t : str) : Prop :=
  match last t with
  | Some c => c = LF
  | None => True
  end.

(** A cell as it stands in the record: quoted when it has to be. *)
Definition piece (data : str) : str :=
  if existsb needs_quoting data
  then [DQUOTE] ++ join_copy data ++ [DQUOTE]
  else join_copy data.

(** The record of the cells, without the line terminator. *)
Definition record_text (cells : list str) : str :=
  match cells with
  | [] => []
  | [] :: [] => [DQUOTE; DQUOTE]
  | c :: cells' => piece c ++ flat_map (fun c' => COMMA :: piece c') cells'
  end.

(** A reader that is about to start a field. *)
Definition field_start (r : ReaderObj) : Prop :=
  field r = [] /\ (state r = START_FIELD \/ state r = START_RECORD).

(** What a loop of [DictWriter_writerow] over [rows] puts at the end of the
    file, and the exception that stops it, if any. *)
Fixpoint rows_written (fieldnames : list pykey) (rows : list pyval)
  : list N * option exn :=
  match rows with
  | [] => ([], None)
  | row :: rows' =>
      match dict_to_list fieldnames row with
      | Raise e => ([], Some e)
      | Ok cells =>
          let line := csv_writerow cells in
          if forallb utf8_encodable line
          then (line ++ fst (rows_written fieldnames rows'),
                snd (rows_written fieldnames rows'))
          else ([], Some UnicodeEncodeError)
      end
  end.

Definition outcome (e : option exn) : result unit :=
  match e with
  | None => Ok tt
  | Some e => Raise e
  end.

(** The header [DictWriter.writeheader] builds. *)
Definition header_dict (fieldnames : list pykey) : pydict :=
  dict_of (zip fieldnames (map key_val fieldnames)).

(** The text stored for a field of a typed record: its value, or the empty
    string when the record lacks the field. *)
Definition record_value (record : list (list N * list N)) (name : list N)
  : str :=
  cell_text (default (PyStr []) (dict_get (of_record record) (Some name))).

(** The record as it comes back from the file: the header's field names in
    the header's order, each with the text stored for it. *)
Definition as_loaded (names : list str) (record : list (list N * list N))
  : list (list N * list N) :=
  map (fun name => (name, record_value record name)) names.

(** A typed record that the table with header [names] can hold but for the
    carriage returns in its values: as [storable], except that a value need
    only be encodable and within the field limit. *)
Definition storable_with_cr (names : list str)
           (record : list (list N * list N)) : Prop :=
  NoDup (map fst record)
  /\ (forall name, name ∈ map fst record <-> name ∈ names)
  /\ Forall (fun kv => clean (fst kv)
                       /\ forallb utf8_encodable (snd kv) = true
                       /\ N.of_nat (length (snd kv)) <= field_limit)
            record.

(** Two typed records are the same mapping: every key gives the same
    answer in both, whatever the order of the keys. *)
Definition same_mapping (record record' : list (list N * list N)) : Prop :=
  forall k, dict_get (of_record record') k = dict_get (of_record record) k.

(** The loaded rows answer the written batch one for one: as many rows, and
    the i-th row has the keys [names] in that order and is the same mapping
    as the i-th record. *)
Definition rows_match (names : list str)
           (batch loaded : list (list (list N * list N))) : Prop :=
  length loaded = length batch
  /\ forall i record record',
       batch !! i = Some record ->
       loaded !! i = Some record' ->
       map fst record' = names /\ same_mapping record record'.

(** A typed record that the table with header [names] can hold: it is a
    mapping (no key twice), its keys are exactly [names] in some order, and
    its keys and values are [clean]. *)
Definition storable (names : list str) (record : list (list N * list N))
  : Prop :=
  NoDup (map fst record)
  /\ (forall name, name ∈ map fst record <-> name ∈ names)
  /\ Forall (fun kv => clean (fst kv) /\ clean (snd kv)) record.

(** A mapping that [DictWriter_writerow] accepts under [fieldnames]: no key
    outside them, and cells the file can encode. *)
Definition writable (fieldnames : list pykey) (d : pydict) : Prop :=
  (forall k, k ∈ map fst d -> k ∈ fieldnames)
  /\ Forall (fun v => forallb utf8_encodable (cell_text v) = true)
            (row_cells fieldnames d).

(** Field names the file can encode. *)
Definition encodable_names (fieldnames : list pykey) : Prop :=
  Forall (fun k => forallb utf8_encodable (cell_text (key_val k)) = true)
         fieldnames.

(** The text of a destination before its rows: what it already holds, or
    the header line when it is new. *)
Definition table_head (fieldnames : list pykey) (prior : option (list N))
  : str :=
  match prior with
  | None => csv_writerow (map key_val fieldnames)
  | Some content => content
  end.

(** One line per mapping, cells in the order of [fieldnames]. *)
Definition row_lines (fieldnames : list pykey) (ds : list pydict) : str :=
  flat_map (fun d => csv_writerow (row_cells fieldnames d)) ds.

(** ** Properties *)

(** First-order goals about data alone: the library functions of the
    section play no part in them. *)
Ltac pure_solver :=
  clear builtin_str json_loads json_dumps backend stdout_write;
  naive_solver.

(** *** Outcomes *)

Lemma rbind_assoc {A B C} (r : result A) (f : A -> result B)
      (g : B -> result C) :
  rbind (rbind r f) g = rbind r (fun a => rbind (f a) g).
Proof. by destruct r. Qed.

Lemma rbind_ext {A B} (r : result A) (f g : A -> result B) :
  (forall a, f a = g a) -> rbind r f = rbind r g.
Proof. intros E. destruct r; simpl; auto. Qed.

(** *** Newline translation and lines *)

Lemma universal_newlines_line (s rest : list N) :
  CR ∉ s ->
  universal_newlines false (s ++ CR :: LF :: rest)
  = s ++ LF :: universal_newlines false rest.
Proof.
  induction s as [|c s IH]; intros Hcr; simpl.
  - reflexivity.
  - apply not_elem_of_cons in Hcr as [Hc Hs].
    destruct (N.eqb_spec c CR) as [->|_]; [done|].
    rewrite andb_false_r. by rewrite IH.
Qed.

Lemma universal_newlines_true (t : list N) :
  head t <> Some LF ->
  universal_newlines true t = universal_newlines false t.
Proof.
  destruct t as [|c t]; simpl; [done|]. intros Hc.
  destruct (N.eqb_spec c CR); [done|].
  destruct (N.eqb_spec c LF) as [->|]; [done|]. done.
Qed.

Lemma universal_newlines_app (b : bool) (s t : list N) :
  universal_newlines b (s ++ t)
  = universal_newlines b s ++ universal_newlines (pending_cr b s) t.
Proof.
  revert b. induction s as [|c s IH]; intros b; simpl; [done|].
  destruct (c =? CR); [by rewrite IH|].
  destruct ((c =? LF) && b); by rewrite IH.
Qed.

Lemma complete_nil : complete [].
Proof. done. Qed.

Lemma complete_cons (c : N) (t : list N) :
  complete (c :: t) <-> (t = [] /\ c = LF) \/ (t <> [] /\ complete t).
Proof.
  unfold complete. destruct t as [|c2 t]; simpl.
  - split; [by left|]. by intros [[_ ->]|[? _]].
  - split; [by right|]. by intros [[? _]|[_ ?]].
Qed.

Lemma complete_app (s t : list N) : t <> [] -> complete t -> complete (s ++ t).
Proof.
  intros Hne Ht. induction s as [|c s IH]; [done|].
  simpl. apply complete_cons. right. split; [|done].
  by destruct s, t.
Qed.

Lemma universal_newlines_false_nonempty (s : list N) :
  s <> [] -> universal_newlines false s <> [].
Proof.
  destruct s as [|c s]; [done|]. intros _. simpl.
  destruct (c =? CR); [done|]. by rewrite andb_false_r.
Qed.

Lemma universal_newlines_complete (b : bool) (s : list N) :
  (exists c, last s = Some c /\ is_newline c = true) ->
  complete (universal_newlines b s).
Proof.
  revert b. induction s as [|c s IH]; intros b [c' [Hl Hn]]; [done|].
  destruct s as [|c2 s].
  - assert (c' = c) as -> by (simpl in Hl; congruence).
    simpl. unfold is_newline in Hn.
    destruct (N.eqb_spec c CR); [done|].
    destruct (N.eqb_spec c LF) as [->|]; [|done].
    by destruct b.
  - assert (Ht : forall b', complete (universal_newlines b' (c2 :: s))).
    { intros b'. apply IH. by exists c'. }
    assert (Hne : universal_newlines false (c2 :: s) <> [])
      by by apply universal_newlines_false_nonempty.
    remember (c2 :: s) as s2. simpl.
    destruct (c =? CR).
    + apply complete_cons. specialize (Ht true).
      destruct (universal_newlines true s2); [by left|by right].
    + destruct ((c =? LF) && b); [done|].
      apply complete_cons. by right.
Qed.

Lemma splitlines_nil (t : list N) : splitlines t = [] -> t = [].
Proof.
  destruct t as [|c t]; [done|]. simpl.
  destruct (c =? LF); [done|]. by destruct (splitlines t).
Qed.

(** *** The line-by-line reader and the one-pass reader agree *)

Lemma Reader_rows_char (r : ReaderObj) (c : N) (l : list N) ls :
  Reader_rows r ((c :: l) :: ls)
  = rbind (parse_process_char r (Some c)) (fun r1 => Reader_rows r1 (l :: ls)).
Proof. simpl. by rewrite rbind_assoc. Qed.

Lemma Reader_rest_char (r : ReaderObj) (c : N) (l : list N) ls :
  Reader_rest r ((c :: l) :: ls)
  = rbind (parse_process_char r (Some c)) (fun r1 => Reader_rest r1 (l :: ls)).
Proof. simpl. by rewrite rbind_assoc. Qed.

Lemma Reader_scan_char (r : ReaderObj) (c : N) (t : list N) :
  c <> LF ->
  Reader_scan r (c :: t)
  = rbind (parse_process_char r (Some c)) (fun r1 => Reader_scan r1 t).
Proof. intros Hc. simpl. by apply N.eqb_neq in Hc as ->. Qed.

Lemma Reader_rows_scan (t : list N) : forall r,
  complete t ->
  Reader_rows r (splitlines t)
  = rbind (Reader_scan r t) (fun out =>
      rbind (Reader_rows (snd out) []) (fun rows => Ok (fst out ++ rows))).
Proof.
  induction t as [|c t IH]; intros r Hc.
  - simpl. by destruct (_ || _).
  - apply complete_cons in Hc. simpl splitlines.
    destruct (N.eqb_spec c LF) as [->|Hne].
    + assert (Ht : complete t) by (destruct Hc as [[-> _]|[_ ?]]; done).
      simpl. rewrite !rbind_assoc. apply rbind_ext; intros r1.
      rewrite !rbind_assoc. apply rbind_ext; intros r2.
      case_bool_decide.
      * rewrite (IH _ Ht), !rbind_assoc. apply rbind_ext; intros [rows rf].
        simpl. by destruct (_ || _).
      * by apply IH.
    + destruct Hc as [[_ ?]|[Hne' Ht]]; [done|].
      destruct (splitlines t) as [|l ls] eqn:Hs;
        [by apply splitlines_nil in Hs|].
      rewrite Reader_rows_char, Reader_scan_char, rbind_assoc by done.
      apply rbind_ext; intros r1. by rewrite <- (IH r1 Ht).
Qed.

Lemma Reader_rest_scan (t : list N) : forall r,
  complete t ->
  Reader_rest r (splitlines t)
  = rbind (Reader_scan r t) (fun out => Ok (snd out)).
Proof.
  induction t as [|c t IH]; intros r Hc; [done|].
  apply complete_cons in Hc. simpl splitlines.
  destruct (N.eqb_spec c LF) as [->|Hne].
  - assert (Ht : complete t) by (destruct Hc as [[-> _]|[_ ?]]; done).
    simpl. rewrite !rbind_assoc. apply rbind_ext; intros r1.
    rewrite !rbind_assoc. apply rbind_ext; intros r2.
    case_bool_decide.
    + rewrite (IH _ Ht), !rbind_assoc. by apply rbind_ext; intros [rows rf].
    + by apply IH.
  - destruct Hc as [[_ ?]|[Hne' Ht]]; [done|].
    destruct (splitlines t) as [|l ls] eqn:Hs;
      [by apply splitlines_nil in Hs|].
    rewrite Reader_rest_char, Reader_scan_char, rbind_assoc by done.
    apply rbind_ext; intros r1. by rewrite <- (IH r1 Ht).
Qed.

(** *** The one-pass reader on written records *)

Lemma needs_quoting_false (c : N) :
  needs_quoting c = false ->
  (c =? COMMA) = false /\ (c =? DQUOTE) = false
  /\ (c =? LF) = false /\ (c =? CR) = false.
Proof.
  unfold needs_quoting. intros H.
  repeat (apply orb_false_elim in H as [H ?]). done.
Qed.

Lemma join_copy_plain (d : list N) :
  existsb needs_quoting d = false -> join_copy d = d.
Proof.
  induction d as [|x d IHd]; [done|]. simpl.
  intros Hx. apply orb_false_elim in Hx as [Hx Hd].
  apply needs_quoting_false in Hx as (_ & -> & _). simpl.
  by rewrite IHd.
Qed.

Lemma parse_add_char_ok (r : ReaderObj) (c : N) :
  N.of_nat (length (field r)) < field_limit ->
  parse_add_char r c
  = Ok {| state := state r; fields := fields r; field := field r ++ [c] |}.
Proof.
  intros H. unfold parse_add_char. by apply N.ltb_lt in H as ->.
Qed.

Lemma Reader_scan_unquoted (f : list N) : forall st fs fd rest,
  st = IN_FIELD ->
  existsb needs_quoting f = false ->
  N.of_nat (length fd + length f) <= field_limit ->
  Reader_scan {| state := st; fields := fs; field := fd |} (f ++ rest)
  = Reader_scan {| state := IN_FIELD; fields := fs; field := fd ++ f |} rest.
Proof.
  induction f as [|c f IH]; intros st fs fd rest -> Hq Hlen.
  - by rewrite app_nil_r.
  - simpl in Hq. apply orb_false_elim in Hq as [Hc Hq].
    apply needs_quoting_false in Hc as (Hcomma & Hdq & Hlf & Hcr).
    simpl in Hlen. simpl.
    unfold parse_process_char, is_newline; simpl.
    rewrite Hlf, Hcr, Hcomma. simpl.
    rewrite parse_add_char_ok by (simpl; lia). simpl.
    rewrite IH; [|done|done|rewrite length_app; simpl; lia].
    by rewrite <- app_assoc.
Qed.

Lemma Reader_scan_quoted_body (f : list N) : forall st fs fd rest,
  st = IN_QUOTED_FIELD ->
  N.of_nat (length fd + length f) <= field_limit ->
  Reader_scan {| state := st; fields := fs; field := fd |}
              (join_copy f ++ rest)
  = Reader_scan {| state := IN_QUOTED_FIELD; fields := fs; field := fd ++ f |}
                rest.
Proof.
  induction f as [|c f IH]; intros st fs fd rest -> Hlen.
  - by rewrite app_nil_r.
  - simpl in Hlen.
    assert (Hadd : forall s,
      parse_add_char {| state := s; fields := fs; field := fd |} c
      = Ok {| state := s; fields := fs; field := fd ++ [c] |}).
    { intros s. apply parse_add_char_ok. simpl. lia. }
    assert (Hnext : Reader_scan
        {| state := IN_QUOTED_FIELD; fields := fs; field := fd ++ [c] |}
        (join_copy f ++ rest)
      = Reader_scan
        {| state := IN_QUOTED_FIELD; fields := fs; field := fd ++ c :: f |}
        rest).
    { rewrite IH; [|done|rewrite length_app; simpl; lia].
      by rewrite <- app_assoc. }
    simpl join_copy. destruct (N.eqb_spec c DQUOTE) as [->|Hdq].
    + simpl. unfold parse_process_char at 1; simpl.
      unfold set_state; simpl. rewrite Hadd. simpl. apply Hnext.
    + apply N.eqb_neq in Hdq. simpl.
      unfold parse_process_char at 1; simpl. rewrite Hdq, Hadd. simpl.
      destruct (c =? LF); [|apply Hnext].
      unfold parse_process_char; simpl. apply Hnext.
Qed.

Lemma Reader_scan_piece_comma (data : list N) (r : ReaderObj) rest :
  field_start r ->
  N.of_nat (length data) <= field_limit ->
  Reader_scan r (piece data ++ COMMA :: rest)
  = Reader_scan {| state := START_FIELD; fields := fields r ++ [data];
                   field := [] |} rest.
Proof.
  destruct r as [st fs fd]. intros [Hfd Hst] Hlen. simpl in *. subst fd.
  unfold piece. destruct (existsb needs_quoting data) eqn:Hq.
  - transitivity (Reader_scan
      {| state := IN_QUOTED_FIELD; fields := fs; field := [] |}
      (join_copy data ++ DQUOTE :: COMMA :: rest)).
    { rewrite <- !app_assoc. simpl.
      destruct Hst as [-> | ->]; reflexivity. }
    rewrite Reader_scan_quoted_body by done. reflexivity.
  - rewrite join_copy_plain by done. destruct data as [|c data].
    + simpl. destruct Hst as [-> | ->]; reflexivity.
    + simpl in Hq. apply orb_false_elim in Hq as [Hc Hq].
      apply needs_quoting_false in Hc as (Hcomma & Hdq & Hlf & Hcr).
      transitivity (Reader_scan
        {| state := IN_FIELD; fields := fs; field := [c] |}
        (data ++ COMMA :: rest)).
      { simpl. rewrite Hlf.
        destruct Hst as [-> | ->];
          unfold parse_process_char, is_newline, set_state; simpl;
          rewrite ?Hlf, ?Hcr, ?Hdq, ?Hcomma; simpl; done. }
      rewrite Reader_scan_unquoted by (done || (simpl in *; lia)).
      reflexivity.
Qed.

Lemma Reader_scan_piece_LF (data : list N) (r : ReaderObj) rest :
  field_start r ->
  N.of_nat (length data) <= field_limit ->
  state r = START_FIELD \/ piece data <> [] ->
  Reader_scan r (piece data ++ LF :: rest)
  = rbind (Reader_scan parse_reset rest)
          (fun out => Ok ((fields r ++ [data]) :: fst out, snd out)).
Proof.
  destruct r as [st fs fd]. intros [Hfd Hst] Hlen Hne. simpl in *. subst fd.
  unfold piece in *. destruct (existsb needs_quoting data) eqn:Hq.
  - transitivity (Reader_scan
      {| state := IN_QUOTED_FIELD; fields := fs; field := [] |}
      (join_copy data ++ DQUOTE :: LF :: rest)).
    { rewrite <- !app_assoc. simpl.
      destruct Hst as [-> | ->]; reflexivity. }
    rewrite Reader_scan_quoted_body by done. reflexivity.
  - rewrite join_copy_plain in * by done. destruct data as [|c data].
    + destruct Hne as [-> | ?]; [|done]. reflexivity.
    + simpl in Hq. apply orb_false_elim in Hq as [Hc Hq].
      apply needs_quoting_false in Hc as (Hcomma & Hdq & Hlf & Hcr).
      transitivity (Reader_scan
        {| state := IN_FIELD; fields := fs; field := [c] |}
        (data ++ LF :: rest)).
      { simpl. rewrite Hlf.
        destruct Hst as [-> | ->];
          unfold parse_process_char, is_newline, set_state; simpl;
          rewrite ?Hlf, ?Hcr, ?Hdq, ?Hcomma; simpl; done. }
      rewrite Reader_scan_unquoted by (done || (simpl in *; lia)).
      reflexivity.
Qed.

Lemma Reader_scan_cells (cells : list (list N)) : forall c r rest,
  field_start r ->
  Forall (fun d => N.of_nat (length d) <= field_limit) (c :: cells) ->
  state r = START_FIELD \/ piece c <> [] \/ cells <> [] ->
  Reader_scan r (piece c ++ flat_map (fun c' => COMMA :: piece c') cells
                 ++ LF :: rest)
  = rbind (Reader_scan parse_reset rest)
          (fun out => Ok ((fields r ++ c :: cells) :: fst out, snd out)).
Proof.
  induction cells as [|c2 cells IH]; intros c r rest Hr Hlen Hne.
  - apply Forall_cons in Hlen as [Hc _]. simpl.
    apply Reader_scan_piece_LF; [done..|].
    destruct Hne as [?|[?|?]]; [by left|by right|done].
  - apply Forall_cons in Hlen as [Hc Hlen]. simpl.
    rewrite <- ?app_assoc. simpl.
    rewrite Reader_scan_piece_comma by done.
    rewrite IH; [|by split; [|left]|done|by left].
    simpl. by rewrite <- app_assoc.
Qed.

Lemma Reader_scan_record (cells : list (list N)) (rest : list N) :
  Forall (fun d => N.of_nat (length d) <= field_limit) cells ->
  Reader_scan parse_reset (record_text cells ++ LF :: rest)
  = rbind (Reader_scan parse_reset rest)
          (fun out => Ok (cells :: fst out, snd out)).
Proof.
  intros Hlen. destruct cells as [|c cells]; [reflexivity|].
  destruct (decide (c = [] /\ cells = [])) as [[-> ->]|Hne]; [reflexivity|].
  replace (record_text (c :: cells))
    with (piece c ++ flat_map (fun c' => COMMA :: piece c') cells)
    by (destruct c, cells; try done; by destruct Hne).
  rewrite <- app_assoc, Reader_scan_cells; [done|by split; [|right]|done|].
  right. destruct cells; [left|by right].
  destruct c as [|x c]; [by destruct Hne|].
  unfold piece. simpl. by destruct (_ || _), (x =? DQUOTE).
Qed.

Lemma Reader_scan_records (rows : list (list (list N))) :
  Forall (Forall (fun d => N.of_nat (length d) <= field_limit)) rows ->
  Reader_scan parse_reset
    (flat_map (fun cells => record_text cells ++ [LF]) rows)
  = Ok (rows, parse_reset).
Proof.
  induction rows as [|cells rows IH]; intros Hlen; [done|].
  apply Forall_cons in Hlen as [Hc Hlen]. simpl.
  rewrite <- app_assoc. simpl.
  rewrite Reader_scan_record by done. by rewrite IH.
Qed.

Lemma Reader_scan_app (t1 t2 : list N) : forall r,
  Reader_scan r (t1 ++ t2)
  = rbind (Reader_scan r t1) (fun out1 =>
      rbind (Reader_scan (snd out1) t2) (fun out2 =>
        Ok (fst out1 ++ fst out2, snd out2))).
Proof.
  induction t1 as [|c t1 IH]; intros r.
  - simpl. by destruct (Reader_scan r t2) as [[??]|].
  - simpl. rewrite !rbind_assoc. apply rbind_ext; intros r1.
    destruct (c =? LF); [|apply IH].
    rewrite !rbind_assoc. apply rbind_ext; intros r2.
    case_bool_decide; [|apply IH].
    rewrite IH, !rbind_assoc. apply rbind_ext; intros [rows1 rf1]. simpl.
    rewrite !rbind_assoc. by apply rbind_ext; intros [rows2 rf2].
Qed.

(** *** What the writer produces *)

Lemma join_append_piece (w : WriterObj) (v : pyval) :
  join_append w (field_text v) false
  = {| rec := rec w
              ++ match num_fields w with O => [] | S _ => [COMMA] end
              ++ piece (cell_text v);
       num_fields := S (num_fields w) |}.
Proof. reflexivity. Qed.

Lemma fold_join_append (row : list pyval) : forall w,
  num_fields w <> O ->
  fold_left (fun w v => join_append w (field_text v) false) row w
  = {| rec := rec w ++ flat_map (fun v => COMMA :: piece (cell_text v)) row;
       num_fields := (num_fields w + length row)%nat |}.
Proof.
  induction row as [|v row IH]; intros w Hw.
  - simpl. rewrite app_nil_r, Nat.add_0_r. by destruct w.
  - simpl fold_left. rewrite IH, join_append_piece by done. simpl.
    destruct (num_fields w) as [|n]; [done|].
    f_equal; [by rewrite <- app_assoc|lia].
Qed.

Lemma piece_nil_inv (d : list N) : piece d = [] -> d = [].
Proof.
  unfold piece. destruct (existsb needs_quoting d) eqn:Hq; [done|].
  by rewrite join_copy_plain.
Qed.

Lemma csv_writerow_text (row : list pyval) :
  csv_writerow row = record_text (map cell_text row) ++ lineterminator.
Proof.
  unfold csv_writerow. destruct row as [|v row]; [done|].
  simpl fold_left. rewrite fold_join_append, join_append_piece by done.
  cbn [rec num_fields join_reset app].
  set (tail := flat_map (fun v => COMMA :: piece (cell_text v)) row).
  assert (Htail : flat_map (fun c' => COMMA :: piece c') (map cell_text row)
                  = tail).
  { unfold tail. clear. induction row as [|x row IH]; [done|].
    simpl. by rewrite IH. }
  simpl map. destruct (piece (cell_text v) ++ tail) as [|x text] eqn:Htext.
  - apply app_eq_nil in Htext as [Hp Ht].
    apply piece_nil_inv in Hp. rewrite Hp.
    destruct row; [done|discriminate Ht].
  - change (length (x :: text) =? 0)%nat with false.
    rewrite andb_false_r. cbn [rec]. rewrite <- Htext, <- Htail.
    f_equal. destruct (cell_text v) eqn:Hv; [|done].
    destruct row; [|done]. discriminate Htext.
Qed.

Lemma utf8_encodable_piece (d : list N) :
  forallb utf8_encodable d = true -> forallb utf8_encodable (piece d) = true.
Proof.
  intros Hd.
  assert (Hcopy : forallb utf8_encodable (join_copy d) = true).
  { induction d as [|c d IH]; [done|]. simpl in *.
    apply andb_true_iff in Hd as [Hc Hd].
    destruct (c =? DQUOTE); simpl; rewrite ?Hc; simpl; by apply IH. }
  unfold piece. destruct (existsb needs_quoting d); [|done].
  simpl. rewrite forallb_app, Hcopy. done.
Qed.

Lemma utf8_encodable_record (cells : list (list N)) :
  Forall (fun d => forallb utf8_encodable d = true) cells ->
  forallb utf8_encodable (record_text cells ++ lineterminator) = true.
Proof.
  intros Hc. rewrite forallb_app, andb_true_iff. split; [|done].
  assert (Htail : forall cs,
    Forall (fun d => forallb utf8_encodable d = true) cs ->
    forallb utf8_encodable (flat_map (fun c' => COMMA :: piece c') cs) = true).
  { induction cs as [|c cs IH]; [done|]. intros Hcs.
    apply Forall_cons in Hcs as [H1 H2]. simpl.
    rewrite forallb_app, utf8_encodable_piece, IH; done. }
  destruct cells as [|c cells]; [done|].
  apply Forall_cons in Hc as [H1 H2].
  assert (forallb utf8_encodable
            (piece c ++ flat_map (fun c' => COMMA :: piece c') cells) = true)
    by (rewrite forallb_app, utf8_encodable_piece, Htail; done).
  by destruct c, cells.
Qed.

Lemma piece_no_cr (d : list N) : CR ∉ d -> CR ∉ piece d.
Proof.
  intros Hd.
  assert (Hcopy : CR ∉ join_copy d).
  { induction d as [|c d IH]; [done|].
    apply not_elem_of_cons in Hd as [Hc Hd]. simpl.
    destruct (c =? DQUOTE); simpl; rewrite ?not_elem_of_cons;
      repeat split; auto. }
  unfold piece. destruct (existsb needs_quoting d); [|done].
  simpl. rewrite not_elem_of_cons, not_elem_of_app, not_elem_of_cons.
  repeat split; try done. apply not_elem_of_nil.
Qed.

Lemma record_text_no_cr (cells : list (list N)) :
  Forall (fun d => CR ∉ d) cells -> CR ∉ record_text cells.
Proof.
  intros Hc.
  assert (Htail : forall cs, Forall (fun d => CR ∉ d) cs ->
    CR ∉ flat_map (fun c' => COMMA :: piece c') cs).
  { induction cs as [|c cs IH]; [intros; apply not_elem_of_nil|].
    intros Hcs. apply Forall_cons in Hcs as [H1 H2]. simpl.
    rewrite not_elem_of_cons, not_elem_of_app.
    repeat split; [done|by apply piece_no_cr|by apply IH]. }
  destruct cells as [|c cells]; [apply not_elem_of_nil|].
  apply Forall_cons in Hc as [H1 H2].
  assert (CR ∉ piece c ++ flat_map (fun c' => COMMA :: piece c') cells).
  { rewrite not_elem_of_app. split; [by apply piece_no_cr|by apply Htail]. }
  destruct c, cells; try done.
  simpl. rewrite !not_elem_of_cons. repeat split; try done.
Qed.

Lemma record_text_head (cells : list (list N)) :
  head (record_text cells ++ [CR]) <> Some LF.
Proof.
  assert (Hp : forall d t, head t <> Some LF -> head (piece d ++ t) <> Some LF).
  { intros d t Ht. unfold piece.
    destruct (existsb needs_quoting d) eqn:Hq; [done|].
    rewrite join_copy_plain by done. destruct d as [|c d]; [done|].
    simpl in *. apply orb_false_elim in Hq as [Hc _].
    apply needs_quoting_false in Hc as (_ & _ & Hlf & _).
    apply N.eqb_neq in Hlf. congruence. }
  destruct cells as [|c cells]; [done|].
  destruct c as [|x c], cells as [|c2 cells]; try done; simpl record_text;
    rewrite <- ?app_assoc; apply Hp; done.
Qed.

Lemma universal_newlines_record (b : bool) (s rest : list N) :
  CR ∉ s -> head (s ++ [CR]) <> Some LF ->
  universal_newlines b (s ++ CR :: LF :: rest)
  = s ++ LF :: universal_newlines false rest.
Proof.
  intros Hcr Hhd. rewrite <- universal_newlines_line by done.
  destruct b; [|done]. apply universal_newlines_true.
  by destruct s.
Qed.

Lemma universal_newlines_records (b : bool) (rows : list (list (list N))) :
  Forall (Forall (fun d => CR ∉ d)) rows ->
  universal_newlines b
    (flat_map (fun cells => record_text cells ++ lineterminator) rows)
  = flat_map (fun cells => record_text cells ++ [LF]) rows.
Proof.
  revert b. induction rows as [|cells rows IH]; intros b Hr; [done|].
  apply Forall_cons in Hr as [H1 H2]. simpl.
  rewrite <- !app_assoc. simpl.
  rewrite universal_newlines_record, IH; try done.
  - by apply record_text_no_cr.
  - apply record_text_head.
Qed.

(** *** Dictionaries *)

Lemma dict_get_Some_elem (d : list (option (list N) * pyval)) k v :
  dict_get d k = Some v -> (k, v) ∈ d.
Proof.
  induction d as [|[k' v'] d IH]; [done|]. simpl.
  case_decide as Hk.
  - intros [= ->]. subst. apply list_elem_of_here.
  - intros H. apply list_elem_of_further. by apply IH.
Qed.

Lemma dict_get_None (d : list (option (list N) * pyval)) k :
  dict_get d k = None <-> k ∉ map fst d.
Proof.
  induction d as [|[k' v'] d IH]; simpl.
  - split; [intros _; apply not_elem_of_nil|done].
  - rewrite not_elem_of_cons. case_decide as Hk.
    + split; [done|]. by intros [? _].
    + rewrite IH. pure_solver.
Qed.

Lemma dict_set_keys (d : list (option (list N) * pyval)) k v k' :
  k' ∈ map fst (dict_set d k v) <-> k' ∈ map fst d \/ k' = k.
Proof.
  induction d as [|[k0 v0] d IH]; simpl.
  - rewrite list_elem_of_singleton. split; [by right|].
    intros [H|H]; [by apply elem_of_nil in H|done].
  - case_decide as Hk; simpl; rewrite !elem_of_cons.
    + subst. pure_solver.
    + rewrite IH. pure_solver.
Qed.

Lemma dict_set_get (d : list (option (list N) * pyval)) k v k' :
  dict_get (dict_set d k v) k'
  = if decide (k = k') then Some v else dict_get d k'.
Proof.
  induction d as [|[k0 v0] d IH]; simpl.
  - done.
  - destruct (decide (k0 = k)) as [->|Hk0]; simpl.
    + by destruct (decide (k = k')).
    + rewrite IH. destruct (decide (k0 = k')) as [->|]; [|done].
      by destruct (decide (k = k')).
Qed.

Lemma dict_set_fresh (d : list (option (list N) * pyval)) k v :
  k ∉ map fst d -> dict_set d k v = d ++ [(k, v)].
Proof.
  induction d as [|[k0 v0] d IH]; [done|]. simpl.
  rewrite not_elem_of_cons. intros [Hk Hd].
  case_decide; [done|]. by rewrite IH.
Qed.

Lemma dict_of_nodup (l : list (option (list N) * pyval)) :
  NoDup (map fst l) -> dict_of l = l.
Proof.
  unfold dict_of.
  assert (H : forall d, NoDup (map fst (d ++ l)) ->
    fold_left (fun d kv => dict_set d kv.1 kv.2) l d = d ++ l);
    [|intros Hl; by apply (H [])].
  induction l as [|[k v] l IH]; intros d Hnd; simpl.
  - by rewrite app_nil_r.
  - rewrite dict_set_fresh.
    + rewrite IH; rewrite <- app_assoc; done.
    + rewrite map_app in Hnd. simpl in Hnd.
      apply NoDup_app in Hnd as (_ & Hnd & _).
      intros Hk. apply (Hnd k Hk). apply list_elem_of_here.
Qed.

Lemma header_dict_get (fieldnames : list (option (list N))) k :
  k ∈ fieldnames -> dict_get (header_dict fieldnames) k = Some (key_val k).
Proof.
  unfold header_dict, dict_of.
  assert (H : forall (l : list (option (list N))) d,
    (forall k', k' ∈ map fst d -> dict_get d k' = Some (key_val k')) ->
    forall k', k' ∈ map fst d \/ k' ∈ l ->
    dict_get (fold_left (fun d kv => dict_set d kv.1 kv.2)
                        (zip l (map key_val l)) d) k' = Some (key_val k')).
  { induction l as [|k0 l IH]; intros d Hd k' Hk'; simpl.
    - destruct Hk' as [?|Hk']; [auto|by apply elem_of_nil in Hk'].
    - apply IH.
      + intros k1 Hk1. rewrite dict_set_get. case_decide; [by subst|].
        apply Hd. apply dict_set_keys in Hk1. pure_solver.
      + rewrite dict_set_keys. rewrite elem_of_cons in Hk'. pure_solver. }
  intros Hk. apply H; [|by right]. intros k' Hk'. by apply elem_of_nil in Hk'.
Qed.

Lemma header_dict_keys (fieldnames : list (option (list N))) k :
  k ∈ map fst (header_dict fieldnames) -> k ∈ fieldnames.
Proof.
  unfold header_dict, dict_of.
  assert (H : forall (l : list (option (list N))) d,
    k ∈ map fst (fold_left (fun d kv => dict_set d kv.1 kv.2)
                           (zip l (map key_val l)) d) ->
    k ∈ map fst d \/ k ∈ l).
  { induction l as [|k0 l IH]; intros d; simpl; [by left|].
    intros Hk. apply IH in Hk. rewrite dict_set_keys, elem_of_cons in *.
    pure_solver. }
  intros Hk. apply H in Hk as [Hk|Hk]; [by apply elem_of_nil in Hk|done].
Qed.

Lemma list_difference_nil (ks fieldnames : list (option (list N))) :
  (forall k, k ∈ ks -> k ∈ fieldnames) -> list_difference ks fieldnames = [].
Proof.
  intros Hsub. destruct (list_difference ks fieldnames) as [|k l] eqn:Hd;
    [done|].
  assert (Hk : k ∈ list_difference ks fieldnames)
    by (rewrite Hd; apply list_elem_of_here).
  apply list_elem_of_difference in Hk as [Hk Hn]. by apply Hsub in Hk.
Qed.

Lemma list_difference_cons (ks fieldnames : list (option (list N))) k :
  k ∈ ks -> k ∉ fieldnames -> list_difference ks fieldnames <> [].
Proof.
  intros Hk Hn Hd.
  assert (Hin : k ∈ list_difference ks fieldnames)
    by by apply list_elem_of_difference.
  rewrite Hd in Hin. by apply elem_of_nil in Hin.
Qed.

Lemma dict_to_list_ok (fieldnames : list (option (list N))) d :
  (forall k, k ∈ map fst d -> k ∈ fieldnames) ->
  dict_to_list fieldnames (PyDict d) = Ok (row_cells fieldnames d).
Proof.
  intros Hsub. unfold dict_to_list. simpl.
  by rewrite list_difference_nil.
Qed.

Lemma dict_to_list_extra (fieldnames : list (option (list N))) d k :
  k ∈ map fst d -> k ∉ fieldnames ->
  dict_to_list fieldnames (PyDict d) = Raise ValueError.
Proof.
  intros Hk Hn. unfold dict_to_list. simpl.
  pose proof (list_difference_cons _ _ _ Hk Hn).
  by destruct (list_difference _ _).
Qed.

Lemma dict_to_list_header (fieldnames : list (option (list N))) :
  dict_to_list fieldnames (PyDict (header_dict fieldnames))
  = Ok (map key_val fieldnames).
Proof.
  rewrite dict_to_list_ok by apply header_dict_keys.
  f_equal. unfold row_cells. apply map_ext_in. intros k Hk.
  rewrite header_dict_get; [done|]. by apply list_elem_of_In.
Qed.

(** *** Writing through the file *)

Lemma set_files_id (w : world) : set_files w (w_files w) = w.
Proof. by destruct w. Qed.

Lemma M_bind_run {A B} (m : M A) (k : A -> M B) (w : world) :
  (m ≫= k) w = match m w with
               | (Ok a, w') => k a w'
               | (Raise e, w') => (Raise e, w')
               end.
Proof. reflexivity. Qed.

Lemma for_each_cons {A} (x : A) (xs : list A) (body : A -> M unit) w :
  for_each (x :: xs) body w
  = match body x w with
    | (Ok _, w') => for_each xs body w'
    | (Raise e, w') => (Raise e, w')
    end.
Proof. reflexivity. Qed.

Lemma DictWriter_writerow_run (f : list N) fieldnames row (w : world) c :
  w_files w !! f = Some c ->
  DictWriter_writerow f fieldnames row w
  = match dict_to_list fieldnames row with
    | Raise e => (Raise e, w)
    | Ok cells =>
        if forallb utf8_encodable (csv_writerow cells)
        then (Ok tt, set_files w (<[f := c ++ csv_writerow cells]> (w_files w)))
        else (Raise UnicodeEncodeError, w)
    end.
Proof.
  intros Hc. unfold DictWriter_writerow. rewrite M_bind_run. unfold lift.
  destruct (dict_to_list fieldnames row) as [cells|e]; [|done].
  unfold f_write. by rewrite Hc.
Qed.

Lemma for_each_written (fieldnames : list (option (list N))) (f : list N)
      (rows : list pyval) : forall (w : world) (c : list N),
  w_files w !! f = Some c ->
  for_each rows (DictWriter_writerow f fieldnames) w
  = (outcome (snd (rows_written fieldnames rows)),
     set_files w (<[f := c ++ fst (rows_written fieldnames rows)]> (w_files w))).
Proof.
  induction rows as [|row rows IH]; intros w c Hc.
  - simpl. by rewrite app_nil_r, insert_id, set_files_id.
  - assert (Hsame : set_files w (<[f := c ++ []]> (w_files w)) = w)
      by by rewrite app_nil_r, insert_id, set_files_id.
    rewrite for_each_cons, (DictWriter_writerow_run _ _ _ _ c) by done.
    simpl rows_written.
    destruct (dict_to_list fieldnames row) as [cells|e]; simpl;
      [|by rewrite Hsame].
    destruct (forallb utf8_encodable (csv_writerow cells)); simpl;
      [|by rewrite Hsame].
    erewrite IH by (simpl; apply lookup_insert_eq).
    simpl. by rewrite insert_insert_eq, app_assoc.
Qed.

(** What [save_data_to_csv] does with a list that starts with a mapping:
    the header when the file is new, then the rows, up to the first one
    that is refused. *)
Lemma save_data_to_csv_rows (d0 : list (option (list N) * pyval))
      (rows : list pyval) (file_path : list N) (w : world) :
  let fieldnames := map fst d0 in
  let lines := match w_files w !! file_path with
               | None => PyDict (header_dict fieldnames) :: PyDict d0 :: rows
               | Some _ => PyDict d0 :: rows
               end in
  save_data_to_csv (PyList (PyDict d0 :: rows)) file_path w
  = (outcome (snd (rows_written fieldnames lines)),
     set_files w (<[file_path := default [] (w_files w !! file_path)
                                 ++ fst (rows_written fieldnames lines)]>
                    (w_files w))).
Proof.
  intros fieldnames lines. unfold save_data_to_csv.
  change (negb (truthy (PyList (PyDict d0 :: rows)))) with false. cbv iota.
  rewrite M_bind_run. unfold lift at 1.
  change (getitem0 (PyList (PyDict d0 :: rows))) with (Ok (PyDict d0)).
  cbv beta iota. rewrite M_bind_run. unfold lift at 1.
  change (keys (PyDict d0)) with (Ok fieldnames).
  cbv beta iota. rewrite M_bind_run.
  unfold os_path_exists at 1. cbv beta iota. rewrite M_bind_run.
  unfold open_append, lines.
  destruct (w_files w !! file_path) as [c|] eqn:Hc.
  - rewrite bool_decide_true by by eexists. simpl negb. cbv iota.
    rewrite M_bind_run. unfold mret, M_ret. cbv beta iota.
    rewrite M_bind_run. unfold lift. simpl iter. cbv beta iota.
    by apply for_each_written.
  - rewrite bool_decide_false by by intros [? ?]. simpl negb. cbv iota.
    rewrite M_bind_run.
    change (DictWriter_writeheader file_path fieldnames)
      with (DictWriter_writerow file_path fieldnames
              (PyDict (header_dict fieldnames))).
    transitivity (for_each
      (PyDict (header_dict fieldnames) :: PyDict d0 :: rows)
      (DictWriter_writerow file_path fieldnames)
      (set_files w (<[file_path := []]> (w_files w)))).
    { rewrite for_each_cons.
      destruct (DictWriter_writerow _ _ _ _) as [[[]|e] w1]; [|done].
      rewrite M_bind_run. unfold lift. simpl iter. by cbv beta iota. }
    erewrite for_each_written by (simpl; apply lookup_insert_eq).
    simpl. by rewrite insert_insert_eq.
Qed.

Lemma csv_writerow_encodable (cells : list pyval) :
  Forall (fun v => forallb utf8_encodable (cell_text v) = true) cells ->
  forallb utf8_encodable (csv_writerow cells) = true.
Proof.
  intros H. rewrite csv_writerow_text. apply utf8_encodable_record.
  by apply Forall_fmap.
Qed.

Lemma rows_written_ok (fieldnames : list (option (list N)))
      (ds : list (list (option (list N) * pyval))) :
  Forall (fun d =>
    (forall k, k ∈ map fst d -> k ∈ fieldnames)
    /\ Forall (fun v => forallb utf8_encodable (cell_text v) = true)
              (row_cells fieldnames d)) ds ->
  rows_written fieldnames (map PyDict ds)
  = (flat_map (fun d => csv_writerow (row_cells fieldnames d)) ds, None).
Proof.
  induction ds as [|d ds IH]; intros Hds; [done|].
  apply Forall_cons in Hds as [[Hk He] Hds]. simpl.
  rewrite dict_to_list_ok, csv_writerow_encodable by done.
  by rewrite IH.
Qed.

Lemma rows_written_header (fieldnames : list (option (list N))) rows :
  Forall (fun k => forallb utf8_encodable (cell_text (key_val k)) = true)
         fieldnames ->
  rows_written fieldnames (PyDict (header_dict fieldnames) :: rows)
  = (csv_writerow (map key_val fieldnames)
       ++ fst (rows_written fieldnames rows),
     snd (rows_written fieldnames rows)).
Proof.
  intros He. simpl.
  rewrite dict_to_list_header, csv_writerow_encodable; [done|].
  by apply Forall_fmap.
Qed.

Lemma rows_written_app (fieldnames : list (option (list N))) xs ys :
  snd (rows_written fieldnames xs) = None ->
  rows_written fieldnames (xs ++ ys)
  = (fst (rows_written fieldnames xs) ++ fst (rows_written fieldnames ys),
     snd (rows_written fieldnames ys)).
Proof.
  induction xs as [|x xs IH]; simpl; [by destruct (rows_written _ ys)|].
  destruct (dict_to_list fieldnames x) as [cells|e]; [|done].
  destruct (forallb utf8_encodable (csv_writerow cells)); [|done].
  simpl. intros Hn. rewrite IH by done. simpl. by rewrite app_assoc.
Qed.

(** *** Reading what was written *)

Lemma load_data_from_csv_run (file_path : list N) (w : world) :
  load_data_from_csv file_path w
  = (match w_files w !! file_path with
     | None => Ok (PyList [])
     | Some content =>
         rbind (Reader_rows parse_reset
                  (splitlines (translate_newlines content)))
               (fun rows => Ok (PyList (map PyDict (DictReader_rows rows))))
     end, w).
Proof.
  unfold load_data_from_csv. rewrite M_bind_run. unfold os_path_exists.
  destruct (w_files w !! file_path) as [c|] eqn:Hc.
  - rewrite bool_decide_true by by eexists.
    change (negb true) with false. cbv iota.
    rewrite M_bind_run. unfold f_lines. rewrite Hc.
    rewrite M_bind_run. unfold lift.
    by destruct (Reader_rows _ _).
  - by rewrite bool_decide_false by by intros [? ?].
Qed.

Lemma complete_app2 (s t : list N) :
  complete s -> complete t -> complete (s ++ t).
Proof.
  intros Hs Ht. destruct t as [|c t]; [by rewrite app_nil_r|].
  by apply complete_app.
Qed.

Lemma complete_records (rows : list (list (list N))) :
  complete (flat_map (fun cells => record_text cells ++ [LF]) rows).
Proof.
  induction rows as [|cells rows IH]; [done|]. simpl.
  apply complete_app2; [|done].
  apply complete_app; done.
Qed.

Lemma Reader_rows_extend (t : list N) (old rows : list (list (list N))) :
  complete t ->
  Reader_scan parse_reset t = Ok (old, parse_reset) ->
  Forall (Forall (fun d => N.of_nat (length d) <= field_limit)) rows ->
  Reader_rows parse_reset
    (splitlines (t ++ flat_map (fun cells => record_text cells ++ [LF]) rows))
  = Ok (old ++ rows).
Proof.
  intros Hc Hscan Hlen.
  rewrite Reader_rows_scan by (apply complete_app2;
                               [done|apply complete_records]).
  rewrite Reader_scan_app, Hscan. simpl.
  rewrite Reader_scan_records by done. simpl. by rewrite app_nil_r.
Qed.

Lemma Reader_rows_written (rows : list (list (list N))) :
  Forall (Forall (fun d => (CR ∉ d) /\ N.of_nat (length d) <= field_limit))
         rows ->
  Reader_rows parse_reset
    (splitlines (translate_newlines
       (flat_map (fun cells => record_text cells ++ lineterminator) rows)))
  = Ok rows.
Proof.
  intros Hr. unfold translate_newlines.
  rewrite universal_newlines_records.
  - apply (Reader_rows_extend [] []); [done|done|].
    eapply Forall_impl; [done|]. intros cells Hc.
    eapply Forall_impl; [done|]. by intros d [_ ?].
  - eapply Forall_impl; [done|]. intros cells Hc.
    eapply Forall_impl; [done|]. by intros d [? _].
Qed.

Lemma Reader_rows_appended (content : list N)
      (old rows : list (list (list N))) :
  ends_at_row_boundary content ->
  Reader_rows parse_reset (splitlines (translate_newlines content)) = Ok old ->
  Forall (Forall (fun d => (CR ∉ d) /\ N.of_nat (length d) <= field_limit))
         rows ->
  Reader_rows parse_reset
    (splitlines (translate_newlines
       (content
        ++ flat_map (fun cells => record_text cells ++ lineterminator) rows)))
  = Ok (old ++ rows).
Proof.
  intros [Hlast Hrest] Hold Hr. unfold translate_newlines in *.
  assert (Hc : complete (universal_newlines false content))
    by by apply universal_newlines_complete.
  rewrite universal_newlines_app, universal_newlines_records.
  - apply Reader_rows_extend; [done| |].
    + rewrite Reader_rest_scan in Hrest by done.
      rewrite Reader_rows_scan in Hold by done.
      destruct (Reader_scan parse_reset (universal_newlines false content))
        as [[rs rf]|e]; [|done].
      simpl in *. injection Hrest as ->. simpl in Hold.
      injection Hold as <-. by rewrite app_nil_r.
    + eapply Forall_impl; [done|]. intros cells Hcs.
      eapply Forall_impl; [done|]. by intros d [_ ?].
  - eapply Forall_impl; [done|]. intros cells Hcs.
    eapply Forall_impl; [done|]. by intros d [? _].
Qed.

(** *** Typed records *)

Lemma clean_nil : clean [].
Proof. repeat split; [apply not_elem_of_nil|done]. Qed.

Lemma of_record_keys (record : list (list N * list N)) :
  map fst (of_record record) = map Some (map fst record).
Proof. unfold of_record. rewrite !map_map. done. Qed.

Lemma dict_get_of_record (record : list (list N * list N)) k v :
  dict_get (of_record record) k = Some v ->
  exists name s, k = Some name /\ v = PyStr s /\ (name, s) ∈ record.
Proof.
  intros H. apply dict_get_Some_elem in H. unfold of_record in H.
  apply list_elem_of_fmap in H as [[name s] [Heq Hin]].
  simpl in Heq. injection Heq as -> ->. by exists name, s.
Qed.

Lemma record_value_clean names record name :
  storable names record -> clean (record_value record name).
Proof.
  intros (_ & _ & Hc). unfold record_value.
  destruct (dict_get (of_record record) (Some name)) as [v|] eqn:Hg;
    [|apply clean_nil].
  apply dict_get_of_record in Hg as (n & s & _ & -> & Hin). simpl.
  rewrite Forall_forall in Hc. by destruct (Hc _ Hin).
Qed.

Lemma record_value_present names record name :
  storable names record -> name ∈ names ->
  dict_get (of_record record) (Some name)
  = Some (PyStr (record_value record name)).
Proof.
  intros (_ & Hk & _) Hn. unfold record_value.
  destruct (dict_get (of_record record) (Some name)) as [v|] eqn:Hg.
  - apply dict_get_of_record in Hg as (n & s & _ & -> & _). done.
  - apply dict_get_None in Hg. rewrite of_record_keys in Hg.
    exfalso. apply Hg. apply list_elem_of_fmap. exists name.
    split; [done|]. by apply Hk.
Qed.

Lemma row_cells_text (names : list (list N)) record :
  map cell_text (row_cells (map Some names) (of_record record))
  = map (record_value record) names.
Proof. unfold row_cells. by rewrite !map_map. Qed.

Lemma storable_row names record :
  storable names record ->
  (forall k, k ∈ map fst (of_record record) -> k ∈ map Some names)
  /\ Forall (fun v => forallb utf8_encodable (cell_text v) = true)
            (row_cells (map Some names) (of_record record)).
Proof.
  intros Hs. split.
  - intros k. rewrite of_record_keys. intros Hk.
    apply list_elem_of_fmap in Hk as [n [-> Hn]].
    apply list_elem_of_fmap. exists n. split; [done|].
    by apply Hs.
  - unfold row_cells. rewrite Forall_fmap. apply Forall_forall.
    intros k _. destruct k as [name|]; simpl.
    + by destruct (record_value_clean names record name Hs).
    + destruct (dict_get (of_record record) None) as [v|] eqn:Hg; [|done].
      by apply dict_get_of_record in Hg as (n & s & ? & _).
Qed.

Lemma storable_cells names record :
  storable names record ->
  Forall (fun d => (CR ∉ d) /\ N.of_nat (length d) <= field_limit)
         (map (record_value record) names).
Proof.
  intros Hs. rewrite Forall_fmap. apply Forall_forall. intros name _.
  by destruct (record_value_clean names record name Hs) as (_ & ? & ?).
Qed.

Lemma DictReader_row_full (names cells : list (list N)) :
  NoDup names -> length cells = length names ->
  DictReader_row names cells = of_record (zip names cells).
Proof.
  intros Hnd Hlen. unfold DictReader_row.
  rewrite Hlen, Nat.ltb_irrefl.
  assert (Hz : zip (map Some names) (map PyStr cells)
               = of_record (zip names cells)).
  { clear. revert cells. induction names as [|n names IH];
      intros [|c cells]; simpl; try done. by rewrite IH. }
  rewrite Hz. apply dict_of_nodup. rewrite of_record_keys.
  apply NoDup_fmap; [by intros ?? [=]|].
  rewrite fst_zip by lia. done.
Qed.

Lemma zip_map_self {A B} (f : A -> B) (l : list A) :
  zip l (map f l) = map (fun x => (x, f x)) l.
Proof. induction l as [|x l IH]; simpl; [done|]. by rewrite IH. Qed.

Lemma DictReader_stored (names : list (list N))
      (batch : list (list (list N * list N))) :
  names <> [] -> NoDup names ->
  map (DictReader_row names)
      (filter (fun row => negb (is_blank row))
              (map (fun record => map (record_value record) names) batch))
  = map (fun record => of_record (as_loaded names record)) batch.
Proof.
  intros Hne Hnd. induction batch as [|record batch IH]; [done|].
  simpl. rewrite filter_cons.
  destruct (decide _) as [_|Hb].
  - simpl. rewrite IH. f_equal.
    rewrite DictReader_row_full by (done || by rewrite length_map).
    by rewrite zip_map_self.
  - exfalso. apply Hb. by destruct names.
Qed.

Lemma as_loaded_keys names record : map fst (as_loaded names record) = names.
Proof. unfold as_loaded. rewrite map_map. simpl. apply map_id. Qed.

Lemma as_loaded_get names record k :
  storable names record ->
  dict_get (of_record (as_loaded names record)) k
  = dict_get (of_record record) k.
Proof.
  intros Hs.
  destruct (dict_get (of_record (as_loaded names record)) k) as [v|] eqn:Hg.
  - assert (Hin := Hg). apply dict_get_of_record in Hin as (n & s & -> & -> & Hin).
    assert (Hn : n ∈ names).
    { rewrite <- (as_loaded_keys names record).
      apply list_elem_of_fmap. by exists (n, s). }
    rewrite (record_value_present names) by done. f_equal. f_equal.
    unfold as_loaded in Hin. apply list_elem_of_fmap in Hin as [n' [[= -> ->] _]].
    done.
  - symmetry. apply dict_get_None. apply dict_get_None in Hg.
    rewrite of_record_keys, as_loaded_keys in Hg. rewrite of_record_keys.
    intros Hk. apply Hg. apply list_elem_of_fmap in Hk as [n [-> Hn]].
    apply list_elem_of_fmap. exists n. split; [done|]. by apply Hs.
Qed.

Lemma rows_written_text (fieldnames : list (option (list N)))
      (ds : list (list (option (list N) * pyval))) :
  flat_map (fun d => csv_writerow (row_cells fieldnames d)) ds
  = flat_map (fun cells => record_text cells ++ lineterminator)
             (map (fun d => map cell_text (row_cells fieldnames d)) ds).
Proof.
  induction ds as [|d ds IH]; [done|]. simpl.
  by rewrite csv_writerow_text, IH.
Qed.

(** The text a batch of storable records adds to the file, and the rows
    the reader finds in it. *)
Lemma rows_written_storable (names : list (list N))
      (batch : list (list (list N * list N))) :
  Forall (storable names) batch ->
  rows_written (map Some names) (map PyDict (map of_record batch))
  = (flat_map (fun cells => record_text cells ++ lineterminator)
       (map (fun record => map (record_value record) names) batch), None).
Proof.
  intros Hb. rewrite rows_written_ok.
  - rewrite rows_written_text, map_map. f_equal. f_equal.
    apply map_ext. intros record. apply row_cells_text.
  - rewrite Forall_fmap. eapply Forall_impl; [done|].
    intros record Hs. by apply storable_row.
Qed.

Lemma storable_names_clean names record name :
  storable names record -> name ∈ names -> clean name.
Proof.
  intros (_ & Hk & Hc) Hn. apply Hk in Hn.
  apply list_elem_of_fmap in Hn as [[n s] [-> Hin]].
  rewrite Forall_forall in Hc. by destruct (Hc _ Hin).
Qed.

Lemma header_cells (names : list (list N)) :
  map cell_text (map key_val (map Some names)) = names.
Proof. rewrite !map_map. apply map_id. Qed.

(** The file after a batch of storable records went to a new or an existing
    table. *)
Lemma save_storable (names : list (list N))
      (first : list (list N * list N))
      (others : list (list (list N * list N))) (file_path : list N)
      (w : world) :
  names = map fst first ->
  Forall (storable names) (first :: others) ->
  save_data_to_csv (of_batch (first :: others)) file_path w
  = (Ok tt,
     set_files w (<[file_path :=
       match w_files w !! file_path with
       | None => record_text names ++ lineterminator
       | Some content => content
       end
       ++ flat_map (fun cells => record_text cells ++ lineterminator)
            (map (fun record => map (record_value record) names)
                 (first :: others))]> (w_files w))).
Proof.
  intros Hnames Hb. unfold of_batch. simpl map.
  rewrite save_data_to_csv_rows. cbv zeta.
  rewrite of_record_keys, <- Hnames.
  change (PyDict (of_record first)
          :: map (fun record => PyDict (of_record record)) others)
    with (map (fun record => PyDict (of_record record)) (first :: others)).
  rewrite <- (map_map of_record PyDict).
  destruct (w_files w !! file_path) as [content|].
  - by rewrite rows_written_storable.
  - rewrite rows_written_header.
    + rewrite rows_written_storable by done.
      simpl. rewrite csv_writerow_text, header_cells. done.
    + rewrite Forall_fmap. apply Forall_forall. intros name Hn. simpl.
      apply Forall_cons in Hb as [Hfirst _].
      by destruct (storable_names_clean _ _ _ Hfirst Hn).
Qed.

Lemma loaded_rows (names : list (list N))
      (batch : list (list (list N * list N))) :
  map PyDict (map (fun record => of_record (as_loaded names record)) batch)
  = map (fun record => PyDict (of_record record)) (map (as_loaded names) batch).
Proof. by rewrite !map_map. Qed.

Lemma rows_match_as_loaded (names : list (list N))
      (batch : list (list (list N * list N))) :
  Forall (storable names) batch ->
  rows_match names batch (map (as_loaded names) batch).
Proof.
  intros Hb. split; [by rewrite length_map|].
  intros i record record' Hi Hi'.
  rewrite list_lookup_fmap, Hi in Hi'. injection Hi' as <-.
  split; [apply as_loaded_keys|].
  intros k. apply as_loaded_get.
  rewrite Forall_forall in Hb. apply Hb.
  by eapply list_elem_of_lookup_2.
Qed.

(** C1 (amended). For every non-empty batch of string-to-string records in
    which every record is a mapping with exactly the keys of the first
    record, the first record has at least one key, and every key and value
    is clean (UTF-8 encodable, free of carriage returns, at most 131072
    characters): append on a destination that does not exist succeeds, and
    load_all afterwards returns a sequence of the same length whose i-th
    row has the first record's keys in order and, as a mapping, equals the
    i-th written record, every value a string. *)
Theorem append_then_load_all_roundtrip
        (first : list (list N * list N))
        (others : list (list (list N * list N)))
        (file_path : list N) (w : world) :
  w_files w !! file_path = None ->
  map fst first <> [] ->
  Forall (storable (map fst first)) (first :: others) ->
  fst (save_data_to_csv (of_batch (first :: others)) file_path w) = Ok tt
  /\ exists loaded,
       fst (load_data_from_csv file_path
              (snd (save_data_to_csv (of_batch (first :: others)) file_path w)))
       = Ok (of_batch loaded)
       /\ rows_match (map fst first) (first :: others) loaded.
Proof.
  intros Hfresh Hne Hb.
  set (names := map fst first) in *.
  assert (Hfirst : storable names first) by by apply Forall_cons in Hb as [? _].
  assert (Hnd : NoDup names) by apply Hfirst.
  rewrite (save_storable names) by done. rewrite Hfresh.
  split; [done|].
  exists (map (as_loaded names) (first :: others)).
  split.
  - rewrite load_data_from_csv_run. cbn [fst snd set_files w_files].
    rewrite lookup_insert_eq.
    change ((record_text names ++ lineterminator)
            ++ flat_map (fun cells => record_text cells ++ lineterminator)
                 (map (fun record => map (record_value record) names)
                      (first :: others)))
      with (flat_map (fun cells => record_text cells ++ lineterminator)
              (names :: map (fun record => map (record_value record) names)
                            (first :: others))).
    rewrite Reader_rows_written.
    + cbn [rbind DictReader_rows].
      rewrite DictReader_stored by done. unfold of_batch.
      by rewrite loaded_rows.
    + apply Forall_cons. split.
      * apply Forall_forall. intros name Hn.
        by destruct (storable_names_clean _ _ _ Hfirst Hn) as (_ & ? & ?).
      * rewrite Forall_fmap. eapply Forall_impl; [done|].
        intros record Hs. by apply storable_cells.
  - by apply rows_match_as_loaded.
Qed.

(** Whatever it is given, [save_data_to_csv] only adds to the end of a file
    that exists. *)
Lemma save_data_to_csv_appends (data : pyval) (file_path : list N)
      (w : world) (content : list N) :
  w_files w !! file_path = Some content ->
  exists added,
    w_files (snd (save_data_to_csv data file_path w)) !! file_path
    = Some (content ++ added).
Proof.
  intros Hc.
  assert (Hsame : exists added, w_files w !! file_path = Some (content ++ added))
    by (exists []; by rewrite app_nil_r).
  unfold save_data_to_csv. destruct (truthy data); [|exact Hsame].
  change (negb true) with false. cbv iota.
  rewrite M_bind_run. unfold lift at 1.
  destruct (getitem0 data) as [first|e]; [|exact Hsame].
  rewrite M_bind_run. unfold lift at 1.
  destruct (keys first) as [fieldnames|e]; [|exact Hsame].
  rewrite M_bind_run. unfold os_path_exists at 1. cbv beta iota.
  rewrite bool_decide_true by by eexists.
  rewrite M_bind_run. unfold open_append. rewrite Hc.
  change (negb true) with false. cbv iota.
  rewrite M_bind_run. unfold mret, M_ret. cbv beta iota.
  rewrite M_bind_run. unfold lift.
  destruct (iter data) as [rows|e]; [|exact Hsame].
  erewrite for_each_written by done. simpl.
  rewrite lookup_insert_eq. by eexists.
Qed.

Lemma load_data_from_csv_reads (file_path : list N) (w : world) :
  snd (load_data_from_csv file_path w) = w.
Proof. by rewrite load_data_from_csv_run. Qed.

(** C5 (amended). The stored table is append-only. Whatever append is
    given, the text of an existing destination stays as the beginning of
    the text after the call, and load_all leaves the files as they are.
    When moreover the existing text ends at a row boundary (after a line
    break that is outside any quoted field), its header row lists the keys
    of the batch's first record in that record's order, and the batch is a
    non-empty batch of storable records (mappings with exactly those keys
    and clean text), then append succeeds and load_all afterwards returns
    the rows it returned before, unchanged and in order, followed by one
    row per record of the batch, equal to that record as a mapping. *)
Theorem stored_table_is_append_only
        (first : list (list N * list N))
        (others : list (list (list N * list N)))
        (file_path : list N) (w : world) (content : list N) :
  w_files w !! file_path = Some content ->
  (forall data, exists added,
      w_files (snd (save_data_to_csv data file_path w)) !! file_path
      = Some (content ++ added))
  /\ snd (load_data_from_csv file_path w) = w
  /\ (forall raw,
        ends_at_row_boundary content ->
        Reader_rows parse_reset (splitlines (translate_newlines content))
        = Ok (map fst first :: raw) ->
        map fst first <> [] ->
        Forall (storable (map fst first)) (first :: others) ->
        fst (save_data_to_csv (of_batch (first :: others)) file_path w)
        = Ok tt
        /\ exists old loaded,
             fst (load_data_from_csv file_path w) = Ok (PyList old)
             /\ fst (load_data_from_csv file_path
                       (snd (save_data_to_csv (of_batch (first :: others))
                                              file_path w)))
                = Ok (PyList (old ++ map (fun record => PyDict (of_record record))
                                         loaded))
             /\ rows_match (map fst first) (first :: others) loaded).
Proof.
  intros Hc. split; [|split].
  - intros data. by apply save_data_to_csv_appends.
  - apply load_data_from_csv_reads.
  - intros raw Hend Hold Hne Hb.
    set (names := map fst first) in *.
    assert (Hfirst : storable names first)
      by by apply Forall_cons in Hb as [? _].
    assert (Hnd : NoDup names) by apply Hfirst.
    rewrite (save_storable names) by done. rewrite Hc.
    split; [done|].
    exists (map PyDict (DictReader_rows (names :: raw))),
           (map (as_loaded names) (first :: others)).
    split; [|split].
    + rewrite load_data_from_csv_run, Hc. cbn [fst]. by rewrite Hold.
    + rewrite load_data_from_csv_run. cbn [fst snd set_files w_files].
      rewrite lookup_insert_eq.
      rewrite (Reader_rows_appended _ (names :: raw)); [|done|done|].
      * cbn [rbind]. f_equal. f_equal.
        change ((names :: raw) ++ ?l) with (names :: (raw ++ l)).
        cbn [DictReader_rows].
        rewrite filter_app, map_app, map_app, DictReader_stored by done.
        by rewrite loaded_rows.
      * rewrite Forall_fmap. eapply Forall_impl; [done|].
        intros record Hs. by apply storable_cells.
    + by apply rows_match_as_loaded.
Qed.

(** A batch whose first mappings are writable: they are all written, after
    the header when the destination is new, and the rest of the batch
    decides how the call ends. *)
Lemma save_writable_prefix (first : list (option (list N) * pyval))
      (good : list (list (option (list N) * pyval))) (rest : list pyval)
      (file_path : list N) (w : world) :
  encodable_names (map fst first) ->
  Forall (writable (map fst first)) (first :: good) ->
  save_data_to_csv (PyList (map PyDict (first :: good) ++ rest)) file_path w
  = (outcome (snd (rows_written (map fst first) rest)),
     set_files w (<[file_path :=
       table_head (map fst first) (w_files w !! file_path)
       ++ row_lines (map fst first) (first :: good)
       ++ fst (rows_written (map fst first) rest)]> (w_files w))).
Proof.
  intros Hnames Hgood. simpl map. simpl app.
  rewrite save_data_to_csv_rows. cbv zeta.
  change (PyDict first :: map PyDict good ++ rest)
    with (map PyDict (first :: good) ++ rest).
  assert (Hrows : rows_written (map fst first)
                    (map PyDict (first :: good) ++ rest)
                  = (row_lines (map fst first) (first :: good)
                       ++ fst (rows_written (map fst first) rest),
                     snd (rows_written (map fst first) rest))).
  { rewrite rows_written_app; by rewrite rows_written_ok. }
  destruct (w_files w !! file_path) as [content|].
  - by rewrite Hrows.
  - rewrite rows_written_header, Hrows by done. simpl.
    by rewrite <- app_assoc.
Qed.

(** C4 (amended). For every non-empty batch of mappings in which no
    record has a key outside the first record's keys and all text is UTF-8
    encodable, append succeeds; on a destination that does not exist it
    writes the header row made of the first record's field names followed
    by one row per record, and on an existing destination it adds one row
    per record after the text already there, without a header. *)
Theorem append_writes_header_once
        (first : list (option (list N) * pyval))
        (others : list (list (option (list N) * pyval)))
        (file_path : list N) (w : world) :
  encodable_names (map fst first) ->
  Forall (writable (map fst first)) (first :: others) ->
  fst (save_data_to_csv (PyList (map PyDict (first :: others))) file_path w)
  = Ok tt
  /\ w_files (snd (save_data_to_csv (PyList (map PyDict (first :: others)))
                                    file_path w)) !! file_path
     = Some (match w_files w !! file_path with
             | None => csv_writerow (map key_val (map fst first))
             | Some content => content
             end
             ++ flat_map (fun d => csv_writerow (row_cells (map fst first) d))
                         (first :: others)).
Proof.
  intros Hnames Hb.
  rewrite <- (app_nil_r (map PyDict (first :: others))).
  rewrite save_writable_prefix by done. simpl.
  rewrite lookup_insert_eq, app_nil_r. done.
Qed.

Lemma rows_written_extra (fieldnames : list (option (list N)))
      (record : list (option (list N) * pyval)) (k : option (list N))
      (before after : list pyval) :
  k ∈ map fst record -> k ∉ fieldnames ->
  exists e,
    snd (rows_written fieldnames (before ++ PyDict record :: after)) = Some e.
Proof.
  intros Hk Hn. induction before as [|x before IH]; simpl.
  - rewrite (dict_to_list_extra _ _ k) by done. by eexists.
  - destruct (dict_to_list fieldnames x) as [cells|e]; [|by eexists].
    destruct (forallb utf8_encodable (csv_writerow cells)); [|by eexists].
    exact IH.
Qed.

(** C9. For every non-empty batch of mappings, append takes the field
    names from the first record alone. If a later record has a key outside
    the first record's keys, append raises; when the header and the records
    before that one can be written, what it raises is ValueError, after the
    header (on a new destination) and the rows before that record and
    nothing of the record itself. If instead every record's keys lie among
    the first record's keys and the text can be encoded, append succeeds
    and a record's row has the empty string in the place of every field the
    record lacks. *)
Theorem append_field_names_from_first_record
        (first : list (option (list N) * pyval))
        (before : list (list (option (list N) * pyval)))
        (record : list (option (list N) * pyval))
        (after : list (list (option (list N) * pyval)))
        (file_path : list N) (w : world) :
  ((exists k, k ∈ map fst record /\ k ∉ map fst first) ->
     (exists e,
        fst (save_data_to_csv
               (PyList (map PyDict (first :: before ++ record :: after)))
               file_path w) = Raise e)
     /\ (encodable_names (map fst first) ->
         Forall (writable (map fst first)) (first :: before) ->
         save_data_to_csv
           (PyList (map PyDict (first :: before ++ record :: after)))
           file_path w
         = (Raise ValueError,
            set_files w (<[file_path :=
              table_head (map fst first) (w_files w !! file_path)
              ++ row_lines (map fst first) (first :: before)]> (w_files w)))))
  /\ (encodable_names (map fst first) ->
      Forall (writable (map fst first)) (first :: before ++ record :: after) ->
      save_data_to_csv
        (PyList (map PyDict (first :: before ++ record :: after))) file_path w
      = (Ok tt,
         set_files w (<[file_path :=
           table_head (map fst first) (w_files w !! file_path)
           ++ row_lines (map fst first) (first :: before)
           ++ csv_writerow (row_cells (map fst first) record)
           ++ row_lines (map fst first) after]> (w_files w)))
      /\ forall i k, map fst first !! i = Some k -> k ∉ map fst record ->
           row_cells (map fst first) record !! i = Some (PyStr [])).
Proof.
  assert (Hsplit : map PyDict (first :: before ++ record :: after)
                   = map PyDict (first :: before)
                     ++ PyDict record :: map PyDict after)
    by (simpl; by rewrite map_app).
  split.
  - intros (k & Hk & Hn). split.
    + simpl map. rewrite save_data_to_csv_rows. cbv zeta. cbn [fst].
      rewrite map_app. simpl map.
      destruct (w_files w !! file_path) as [content|].
      * destruct (rows_written_extra (map fst first) record k
                    (PyDict first :: map PyDict before) (map PyDict after)
                    Hk Hn) as [e He].
        exists e. simpl app in He. by rewrite He.
      * destruct (rows_written_extra (map fst first) record k
                    (PyDict (header_dict (map fst first))
                     :: PyDict first :: map PyDict before)
                    (map PyDict after) Hk Hn) as [e He].
        exists e. simpl app in He. by rewrite He.
    + intros Hnames Hgood.
      rewrite Hsplit, save_writable_prefix by done. simpl rows_written.
      rewrite (dict_to_list_extra _ _ k) by done. simpl.
      by rewrite app_nil_r.
  - intros Hnames Hall.
    assert (Hgood : Forall (writable (map fst first)) (first :: before)
                    /\ Forall (writable (map fst first)) (record :: after)).
    { change (first :: before ++ record :: after)
        with ((first :: before) ++ record :: after) in Hall.
      by apply Forall_app in Hall. }
    destruct Hgood as [Hgood Hrest].
    rewrite Hsplit, save_writable_prefix by done.
    change (PyDict record :: map PyDict after)
      with (map PyDict (record :: after)).
    rewrite rows_written_ok by done. split; [done|].
    intros i k Hi Hk. unfold row_cells. rewrite list_lookup_fmap, Hi. simpl.
    by apply dict_get_None in Hk as ->.
Qed.

(** *** The run *)

Lemma str_contains_unfold (needle haystack : list N) :
  str_contains needle haystack
  = bool_decide (take (length needle) haystack = needle)
    || match haystack with
       | [] => false
       | _ :: haystack' => str_contains needle haystack'
       end.
Proof. by destruct haystack. Qed.

Lemma str_contains_occurs (needle haystack : list N) :
  str_contains needle haystack = true <-> occurs_in needle haystack.
Proof.
  split.
  - induction haystack as [|c haystack IH]; simpl.
    + rewrite orb_false_r. intros H. apply bool_decide_eq_true in H.
      rewrite take_nil in H. subst needle. by exists [], [].
    + intros H. apply orb_true_iff in H as [H|H].
      * apply bool_decide_eq_true in H.
        exists [], (drop (length needle) (c :: haystack)).
        simpl app.
        rewrite <- (take_drop (length needle) (c :: haystack)) at 1.
        by rewrite H.
      * destruct (IH H) as (before & after & ->).
        by exists (c :: before), after.
  - intros (before & after & ->).
    induction before as [|c before IH].
    + simpl app. rewrite str_contains_unfold, take_app_length.
      by rewrite bool_decide_true.
    + simpl. apply orb_true_iff. by right.
Qed.

Lemma query_llm_run (prompt : list N) (w : world) :
  query_llm prompt w
  = (backend (w_prompts w) prompt,
     {| w_files := w_files w;
        w_prompts := w_prompts w ++ [prompt];
        w_stdout := w_stdout w |}).
Proof. reflexivity. Qed.

Lemma main_run (w : world) :
  main w
  = match extraction_pipeline w with
    | (Ok activities_data, w1) =>
        match save_data_to_csv activities_data STORAGE_FILE w1 with
        | (Ok _, w2) => query_pipeline activities_data w2
        | (Raise e, w2) => (Raise e, w2)
        end
    | (Raise e, w1) => (Raise e, w1)
    end.
Proof.
  unfold main. rewrite M_bind_run.
  destruct (extraction_pipeline w) as [[v|e] w1]; [|done].
  rewrite M_bind_run.
  by destruct (save_data_to_csv v STORAGE_FILE w1) as [[[]|e] w2].
Qed.

(** The world after the two generator calls of the extraction. *)
Lemma extraction_pipeline_run (w : world)
      (extracted_activities json_str : list N) :
  backend (w_prompts w) extract_prompt = Ok extracted_activities ->
  backend (w_prompts w ++ [extract_prompt]) (json_prompt extracted_activities)
  = Ok json_str ->
  extraction_pipeline w
  = (match json_loads json_str with
     | Ok activities_data => Ok activities_data
     | Raise JSONDecodeError => Ok (PyList [])
     | Raise e => Raise e
     end,
     {| w_files := w_files w;
        w_prompts := w_prompts w
                     ++ [extract_prompt; json_prompt extracted_activities];
        w_stdout := w_stdout w |}).
Proof.
  intros H1 H2. unfold extraction_pipeline.
  rewrite M_bind_run, query_llm_run, H1.
  rewrite M_bind_run, query_llm_run. cbn [w_prompts w_files w_stdout].
  rewrite H2, <- app_assoc.
  by destruct (json_loads json_str) as [v|[]].
Qed.

Lemma save_empty_batch (file_path : list N) (w : world) :
  save_data_to_csv (PyList []) file_path w = (Ok tt, w).
Proof. reflexivity. Qed.


(** C10. The fallback of the extraction covers the JSON decode failure
    only: a text that json.loads decodes to any value at all is handed on
    as that value. When the value is truthy and not a list (a non-zero
    number, true, a non-empty string or object), append raises before it
    touches the destination, and the run ends with that exception, nothing
    stored and nothing printed. *)
Theorem extraction_keeps_decoded_value (w : world)
        (extracted_activities json_str : list N) (v : pyval) :
  backend (w_prompts w) extract_prompt = Ok extracted_activities ->
  backend (w_prompts w ++ [extract_prompt]) (json_prompt extracted_activities)
  = Ok json_str ->
  json_loads json_str = Ok v ->
  fst (extraction_pipeline w) = Ok v
  /\ (truthy v = true -> (forall l, v <> PyList l) ->
      exists e,
        save_data_to_csv v STORAGE_FILE (snd (extraction_pipeline w))
        = (Raise e, snd (extraction_pipeline w))
        /\ main w = (Raise e, snd (extraction_pipeline w))
        /\ w_files (snd (main w)) = w_files w
        /\ w_stdout (snd (main w)) = w_stdout w).
Proof.
  intros H1 H2 Hjson.
  rewrite main_run, (extraction_pipeline_run _ _ _ H1 H2), Hjson.
  split; [done|]. intros Ht Hl. cbn [fst snd].
  assert (Hsave : exists e, forall w1,
    save_data_to_csv v STORAGE_FILE w1 = (Raise e, w1)).
  { destruct v as [|b|z|f|s|l|d]; simpl in Ht; try done.
    - exists TypeError. intros w1. unfold save_data_to_csv. simpl.
      by rewrite Ht.
    - exists TypeError. intros w1. unfold save_data_to_csv. simpl.
      by rewrite Ht.
    - exists TypeError. intros w1. unfold save_data_to_csv. simpl.
      by rewrite Ht.
    - destruct s as [|c s]; [done|]. by exists AttributeError.
    - by destruct (Hl l).
    - destruct d as [|kv d]; [done|]. by exists KeyError. }
  destruct Hsave as [e He]. exists e. by rewrite He.
Qed.

Lemma print_run (s : list N) (w : world) :
  print s w
  = match stdout_write (w_stdout w) s with
    | Ok _ =>
        (Ok tt,
         {| w_files := w_files w;
            w_prompts := w_prompts w;
            w_stdout := w_stdout w ++ [s] |})
    | Raise e => (Raise e, w)
    end.
Proof. reflexivity. Qed.

(** The two lines at the end of either branch: the heading, then the
    report. *)
Lemma print_report_run (schedule_report : list N) (w : world) :
  (print (lit "Schedule for tomorrow:");; print schedule_report) w
  = match stdout_write (w_stdout w) (lit "Schedule for tomorrow:") with
    | Raise e => (Raise e, w)
    | Ok _ =>
        match stdout_write (w_stdout w ++ [lit "Schedule for tomorrow:"])
                           schedule_report with
        | Raise e =>
            (Raise e,
             {| w_files := w_files w;
                w_prompts := w_prompts w;
                w_stdout := w_stdout w ++ [lit "Schedule for tomorrow:"] |})
        | Ok _ =>
            (Ok tt,
             {| w_files := w_files w;
                w_prompts := w_prompts w;
                w_stdout := w_stdout w
                            ++ [lit "Schedule for tomorrow:";
                                schedule_report] |})
        end
    end.
Proof.
  rewrite M_bind_run, print_run.
  destruct (stdout_write (w_stdout w) _) as [[]|e]; [|done].
  rewrite print_run. cbn [w_stdout w_files w_prompts].
  destruct (stdout_write _ schedule_report) as [[]|e]; [|done].
  by rewrite <- app_assoc.
Qed.

(** The prompts a run of the query pipeline sends. *)
Lemma query_pipeline_prompts (current_memory : pyval) (w : world)
      (react_response : list N) :
  backend (w_prompts w) react_prompt = Ok react_response ->
  w_prompts (snd (query_pipeline current_memory w))
  = w_prompts w
    ++ react_prompt
    :: (if str_contains (lit "NEED_DATA_UPDATE") react_response
        then match fst (load_data_from_csv STORAGE_FILE w) with
             | Ok updated_data =>
                 [augment_prompt stored_heading (json_dumps updated_data)]
             | Raise _ => []
             end
        else [augment_prompt memory_heading (json_dumps current_memory)]).
Proof.
  intros Hr. unfold query_pipeline.
  rewrite M_bind_run, query_llm_run, Hr.
  destruct (str_contains (lit "NEED_DATA_UPDATE") react_response).
  - rewrite M_bind_run, !load_data_from_csv_run. cbn [fst w_files].
    destruct (match w_files w !! STORAGE_FILE with
              | Some content => _
              | None => _
              end) as [updated_data|e]; [|done].
    rewrite M_bind_run, query_llm_run. cbn [w_prompts w_files w_stdout].
    destruct (backend (w_prompts w ++ [react_prompt]) _)
      as [schedule_report|e]; [|by rewrite <- app_assoc].
    rewrite print_report_run. cbn [w_stdout].
    destruct (stdout_write (w_stdout w) _) as [[]|e];
      [|by rewrite <- app_assoc].
    destruct (stdout_write _ schedule_report) as [[]|e];
      cbn [snd w_prompts]; by rewrite <- app_assoc.
  - rewrite M_bind_run, query_llm_run. cbn [w_prompts w_files w_stdout].
    destruct (backend (w_prompts w ++ [react_prompt]) _)
      as [schedule_report|e]; [|by rewrite <- app_assoc].
    rewrite print_report_run. cbn [w_stdout].
    destruct (stdout_write (w_stdout w) _) as [[]|e];
      [|by rewrite <- app_assoc].
    destruct (stdout_write _ schedule_report) as [[]|e];
      cbn [snd w_prompts]; by rewrite <- app_assoc.
Qed.


(** C6. For every destination state, append with an empty batch changes
    nothing, no file and no other part of the world, and load_all returns
    afterwards what it returns before. *)
Theorem append_empty_batch_is_noop (file_path : list N) (w : world) :
  save_data_to_csv (PyList []) file_path w = (Ok tt, w)
  /\ load_data_from_csv file_path
       (snd (save_data_to_csv (PyList []) file_path w))
     = load_data_from_csv file_path w.
Proof. by rewrite save_empty_batch. Qed.

(** C7. For every destination path that does not exist, load_all returns
    the empty sequence and raises nothing. *)
Theorem load_all_of_missing_destination (file_path : list N) (w : world) :
  w_files w !! file_path = None ->
  load_data_from_csv file_path w = (Ok (PyList []), w).
Proof. intros Hc. by rewrite load_data_from_csv_run, Hc. Qed.

(** C8. For every destination state, two calls of load_all in a row give the
    same outcome, and the world after them is the world before. *)
Theorem load_all_twice_is_identical (file_path : list N) (w : world) :
  fst (load_data_from_csv file_path (snd (load_data_from_csv file_path w)))
  = fst (load_data_from_csv file_path w)
  /\ snd (load_data_from_csv file_path (snd (load_data_from_csv file_path w)))
     = w.
Proof. by rewrite !load_data_from_csv_reads. Qed.

(** *** A field above the reader's limit *)

Lemma Reader_scan_overlong (f : list N) : forall fs fd rest,
  existsb needs_quoting f = false ->
  N.of_nat (length fd) <= field_limit ->
  field_limit < N.of_nat (length fd + length f) ->
  Reader_scan {| state := IN_FIELD; fields := fs; field := fd |} (f ++ rest)
  = Raise csv_Error.
Proof.
  induction f as [|c f IH]; intros fs fd rest Hq Hfd Hlen.
  - simpl in Hlen. lia.
  - simpl in Hq. apply orb_false_elim in Hq as [Hc Hq].
    apply needs_quoting_false in Hc as (Hcomma & Hdq & Hlf & Hcr).
    simpl in Hlen. simpl.
    unfold parse_process_char, is_newline; simpl.
    rewrite Hlf, Hcr, Hcomma. simpl. unfold parse_add_char. simpl.
    destruct (N.ltb_spec (N.of_nat (length fd)) field_limit) as [Hlt|Hge];
      [|done].
    simpl. apply IH; [done|rewrite length_app; simpl; lia|].
    rewrite length_app. simpl. lia.
Qed.

Lemma needs_quoting_no_cr (s : list N) :
  existsb needs_quoting s = false -> CR ∉ s.
Proof.
  induction s as [|c s IH]; simpl; [intros _; apply not_elem_of_nil|].
  intros H. apply orb_false_elim in H as [Hc Hs].
  apply needs_quoting_false in Hc as (_ & _ & _ & Hcr).
  apply N.eqb_neq in Hcr. apply not_elem_of_cons. split; [congruence|auto].
Qed.

(** A record with one plain value above the limit is written, and the file
    cannot be loaded any more. *)
Lemma load_overlong_value (name value : list N) (file_path : list N)
      (w : world) :
  w_files w !! file_path = None ->
  clean name ->
  forallb utf8_encodable value = true ->
  existsb needs_quoting value = false ->
  field_limit < N.of_nat (length value) ->
  fst (save_data_to_csv (of_batch [[(name, value)]]) file_path w) = Ok tt
  /\ fst (load_data_from_csv file_path
            (snd (save_data_to_csv (of_batch [[(name, value)]]) file_path w)))
     = Raise csv_Error.
Proof.
  intros Hfresh (Hname & Hcr & Hlen) Henc Hplain Hlong.
  change (of_batch [[(name, value)]])
    with (PyList (map PyDict [[(Some name, PyStr value)]] ++ [])).
  rewrite save_writable_prefix.
  - split; [done|].
    rewrite load_data_from_csv_run. cbn [fst snd set_files w_files].
    rewrite lookup_insert_eq, Hfresh. cbn [rows_written fst]. rewrite app_nil_r.
    unfold table_head, row_lines. cbn [flat_map map fst row_cells].
    rewrite !csv_writerow_text.
    cbn [map key_val dict_get default]. rewrite decide_True by done.
    cbn [default cell_text field_text].
    unfold translate_newlines.
    match goal with
    | |- context [universal_newlines false ?t] =>
        change t
          with (flat_map (fun cells => record_text cells ++ lineterminator)
                         [[name]; [value]])
    end.
    rewrite universal_newlines_records.
    + rewrite Reader_rows_scan by apply complete_records.
      cbn [flat_map]. rewrite app_nil_r, <- app_assoc. cbn [app].
      rewrite Reader_scan_record by (by repeat constructor).
      destruct value as [|c value]; [simpl in Hlong; unfold field_limit in *; lia|].
      assert (Hrec : record_text [c :: value] = c :: value).
      { cbn [record_text flat_map]. rewrite app_nil_r. unfold piece.
        by rewrite Hplain, join_copy_plain. }
      rewrite Hrec.
      assert (Hq := Hplain). simpl in Hq.
      apply orb_false_elim in Hq as [Hc Hq].
      apply needs_quoting_false in Hc as (Hcomma & Hdq & Hlf & Hcr').
      assert (Hfirst : Reader_scan parse_reset ((c :: value) ++ [LF])
                       = Reader_scan {| state := IN_FIELD; fields := [];
                                        field := [c] |} (value ++ [LF])).
      { simpl. rewrite Hlf.
        unfold parse_process_char, is_newline, set_state; simpl.
        by rewrite ?Hlf, ?Hcr', ?Hdq, ?Hcomma. }
      rewrite Hfirst, Reader_scan_overlong; [done|done| |].
      * simpl. unfold field_limit. lia.
      * simpl in *. lia.
    + repeat constructor; [done|]. by apply needs_quoting_no_cr.
  - unfold encodable_names. by repeat constructor.
  - apply Forall_cons_2; [|apply Forall_nil_2]. split.
    + intros k Hk. exact Hk.
    + unfold row_cells. simpl. rewrite decide_True by done.
      by apply Forall_cons_2; [|apply Forall_nil_2].
Qed.

(** *** What an append leaves behind *)

(** Whatever it is given, [save_data_to_csv] changes at most the text held
    under [file_path]. *)
Lemma save_data_to_csv_world (data : pyval) (file_path : list N) (w : world) :
  snd (save_data_to_csv data file_path w) = w
  \/ exists content,
       snd (save_data_to_csv data file_path w)
       = set_files w (<[file_path := content]> (w_files w)).
Proof.
  set (P := fun w' : world =>
              w' = w \/ exists content,
                w' = set_files w (<[file_path := content]> (w_files w))).
  change (P (snd (save_data_to_csv data file_path w))).
  assert (Hl : P w) by by left.
  assert (Hr : forall c, P (set_files w (<[file_path := c]> (w_files w))))
    by (intros c; right; by exists c).
  clearbody P.
  unfold save_data_to_csv. destruct (truthy data); [|done].
  change (negb true) with false. cbv iota.
  rewrite M_bind_run. unfold lift at 1.
  destruct (getitem0 data) as [first|e]; [|done].
  rewrite M_bind_run. unfold lift at 1.
  destruct (keys first) as [fieldnames|e]; [|done].
  rewrite M_bind_run. unfold os_path_exists at 1. cbv beta iota.
  rewrite M_bind_run. unfold open_append.
  destruct (w_files w !! file_path) as [c|] eqn:Hc.
  - rewrite bool_decide_true by by eexists.
    change (negb true) with false. cbv iota.
    rewrite M_bind_run. unfold mret, M_ret. cbv beta iota.
    rewrite M_bind_run. unfold lift.
    destruct (iter data) as [rows|e]; [|done].
    erewrite for_each_written by done. apply Hr.
  - rewrite bool_decide_false by by intros [? ?].
    change (negb false) with true. cbv iota.
    set (w1 := set_files w (<[file_path := []]> (w_files w))).
    assert (H1 : w_files w1 !! file_path = Some []) by apply lookup_insert_eq.
    rewrite M_bind_run. unfold DictWriter_writeheader.
    rewrite (DictWriter_writerow_run _ _ _ _ [] H1).
    assert (Hr1 : forall c, P (set_files w1 (<[file_path := c]> (w_files w1)))).
    { intros c. unfold w1, set_files. cbn [w_files w_prompts w_stdout].
      rewrite insert_insert_eq. apply Hr. }
    destruct (dict_to_list _ _) as [cells|e]; [|apply Hr].
    destruct (forallb utf8_encodable (csv_writerow cells)); [|apply Hr].
    rewrite M_bind_run. unfold lift.
    destruct (iter data) as [rows|e]; [|apply Hr1].
    erewrite for_each_written by apply lookup_insert_eq.
    cbn [snd]. unfold w1, set_files. cbn [w_files w_prompts w_stdout].
    rewrite !insert_insert_eq. apply Hr.
Qed.

(** X1. Whatever value it is given and however the call ends, append
    changes no file other than its destination, sends nothing to the
    generator and prints nothing. *)
Theorem append_touches_only_its_destination
        (data : pyval) (file_path other : list N) (w : world) :
  other <> file_path ->
  w_files (snd (save_data_to_csv data file_path w)) !! other
  = w_files w !! other
  /\ w_prompts (snd (save_data_to_csv data file_path w)) = w_prompts w
  /\ w_stdout (snd (save_data_to_csv data file_path w)) = w_stdout w.
Proof.
  intros Hne.
  destruct (save_data_to_csv_world data file_path w) as [->|[c ->]]; [done|].
  simpl. by rewrite lookup_insert_ne.
Qed.

(** X2. The destination is opened as soon as the first element of the batch
    has given its field names: after a call on a list that starts with a
    mapping the destination exists, even when the call raised. For every
    other value nothing at all is changed, and the call raises unless the
    value is falsy. *)
Theorem append_creates_destination_once_fields_are_known
        (data : pyval) (file_path : list N) (w : world) :
  (forall d rest, data = PyList (PyDict d :: rest) ->
     is_Some (w_files (snd (save_data_to_csv data file_path w)) !! file_path))
  /\ ((forall d rest, data <> PyList (PyDict d :: rest)) ->
      snd (save_data_to_csv data file_path w) = w
      /\ (truthy data = true ->
          exists e, fst (save_data_to_csv data file_path w) = Raise e)).
Proof.
  split.
  - intros d rest ->. rewrite save_data_to_csv_rows. cbn [snd set_files w_files].
    rewrite lookup_insert_eq. by eexists.
  - intros Hn.
    set (P := fun out : result unit * world =>
                snd out = w
                /\ (truthy data = true -> exists e, fst out = Raise e)).
    change (P (save_data_to_csv data file_path w)).
    assert (Hraise : forall e, P (Raise e, w))
      by (intros e; split; [done|by exists e]).
    assert (Hfalsy : truthy data = false -> P (Ok tt, w))
      by (intros Hf; split; [done|by rewrite Hf]).
    clearbody P.
    unfold save_data_to_csv.
    destruct (truthy data) eqn:Ht; [|by apply Hfalsy].
    change (negb true) with false. cbv iota.
    rewrite M_bind_run. unfold lift at 1.
    destruct (getitem0 data) as [first|e] eqn:Hfirst; [|done].
    rewrite M_bind_run. unfold lift at 1.
    destruct (keys first) as [fieldnames|e] eqn:Hkeys; [|done].
    exfalso.
    destruct first as [| | | | | |d]; try done.
    destruct data as [| | | |s|l|d']; try done.
    + by destruct s.
    + destruct l as [|x rest]; [done|].
      injection Hfirst as ->. by apply (Hn d rest).
Qed.

(** *** A destination without a header *)

Lemma forallb_false_elem {A} (P : A -> bool) (l : list A) (x : A) :
  x ∈ l -> P x = false -> forallb P l = false.
Proof.
  intros Hx Hp. induction l as [|y l IH]; [by apply elem_of_nil in Hx|].
  simpl. apply elem_of_cons in Hx as [<-|Hx].
  - by rewrite Hp.
  - rewrite IH by done. apply andb_false_r.
Qed.

Lemma elem_of_join_copy (c : N) (d : list N) : c ∈ d -> c ∈ join_copy d.
Proof.
  induction d as [|y d IH]; intros Hc; [by apply elem_of_nil in Hc|].
  simpl. apply elem_of_app. apply elem_of_cons in Hc as [->|Hc].
  - left. destruct (y =? DQUOTE); [right|]; left.
  - right. by apply IH.
Qed.

Lemma elem_of_piece (c : N) (d : list N) : c ∈ d -> c ∈ piece d.
Proof.
  intros Hc. apply elem_of_join_copy in Hc. unfold piece.
  destruct (existsb needs_quoting d); [|done].
  apply elem_of_app. right. apply elem_of_app. by left.
Qed.

Lemma elem_of_record_text (c : N) (d : list N) (cells : list (list N)) :
  d ∈ cells -> c ∈ d -> c ∈ record_text cells.
Proof.
  intros Hd Hc.
  assert (Htail : forall cells' : list (list N), d ∈ cells' ->
            c ∈ flat_map (fun c' => COMMA :: piece c') cells').
  { induction cells' as [|y cells' IH]; intros Hin;
      [by apply elem_of_nil in Hin|].
    simpl. right. apply elem_of_app.
    apply elem_of_cons in Hin as [<-|Hin].
    - left. by apply elem_of_piece.
    - right. by apply IH. }
  destruct cells as [|c0 cells]; [by apply elem_of_nil in Hd|].
  assert (Hgen : c ∈ piece c0 ++ flat_map (fun c' => COMMA :: piece c') cells).
  { apply elem_of_app. apply elem_of_cons in Hd as [<-|Hd].
    - left. by apply elem_of_piece.
    - right. by apply Htail. }
  destruct c0 as [|a c0]; [|exact Hgen].
  destruct cells as [|c1 cells]; [|exact Hgen].
  apply list_elem_of_singleton in Hd as ->. by apply elem_of_nil in Hc.
Qed.

Lemma csv_writerow_unencodable (cells : list pyval) (v : pyval) :
  v ∈ cells ->
  forallb utf8_encodable (cell_text v) = false ->
  forallb utf8_encodable (csv_writerow cells) = false.
Proof.
  intros Hv He. rewrite csv_writerow_text.
  assert (Hex : exists c, c ∈ cell_text v /\ utf8_encodable c = false).
  { induction (cell_text v) as [|c s IH]; [done|]. simpl in He.
    apply andb_false_iff in He as [He|He].
    - exists c. split; [left|done].
    - destruct (IH He) as (c' & Hc' & He'). exists c'. split; [by right|done]. }
  destruct Hex as (c & Hc & Hbad).
  apply (forallb_false_elem _ _ c); [|done].
  apply elem_of_app. left.
  apply (elem_of_record_text c (cell_text v)); [|done].
  apply list_elem_of_fmap. by exists v.
Qed.

Lemma record_values_nodup (record : list (list N * list N)) :
  NoDup (map fst record) ->
  map (record_value record) (map fst record) = map snd record.
Proof.
  induction record as [|[k v] record IH]; [done|].
  simpl. intros Hnd. apply NoDup_cons in Hnd as [Hk Hnd]. f_equal.
  - unfold record_value. simpl. by rewrite decide_True.
  - rewrite <- IH by done. apply map_ext_in. intros name Hn.
    unfold record_value. simpl. rewrite decide_False; [done|].
    intros [= ->]. apply Hk. by apply list_elem_of_In.
Qed.

(** X3. When the header cannot be encoded (a field name of the first record
    holds a lone surrogate), an append to a destination that does not exist
    raises UnicodeEncodeError and leaves the destination behind as an empty
    file. *)
Theorem append_failing_on_header_leaves_empty_file
        (first : list (option (list N) * pyval)) (rest : list pyval)
        (name : list N) (file_path : list N) (w : world) :
  w_files w !! file_path = None ->
  Some name ∈ map fst first ->
  forallb utf8_encodable name = false ->
  save_data_to_csv (PyList (PyDict first :: rest)) file_path w
  = (Raise UnicodeEncodeError,
     set_files w (<[file_path := []]> (w_files w))).
Proof.
  intros Hfresh Hname Hbad.
  rewrite save_data_to_csv_rows. cbv zeta. rewrite Hfresh.
  cbn [rows_written]. rewrite dict_to_list_header.
  rewrite (csv_writerow_unencodable _ (PyStr name)); [done| |done].
  apply list_elem_of_fmap. by exists (Some name).
Qed.

(** X4. An existing empty destination never gets a header: an append of
    storable records writes their rows only, and load_all then takes the
    first record's row for the header, so that it returns one row per later
    record, keyed by the values of the first record. *)
Theorem append_to_empty_file_writes_no_header
        (first : list (list N * list N))
        (others : list (list (list N * list N)))
        (file_path : list N) (w : world) :
  w_files w !! file_path = Some [] ->
  map fst first <> [] ->
  Forall (storable (map fst first)) (first :: others) ->
  fst (save_data_to_csv (of_batch (first :: others)) file_path w) = Ok tt
  /\ fst (load_data_from_csv file_path
            (snd (save_data_to_csv (of_batch (first :: others)) file_path w)))
     = Ok (PyList (map (fun record =>
                          PyDict (DictReader_row (map snd first)
                                    (map (record_value record)
                                         (map fst first))))
                       others)).
Proof.
  intros Hempty Hne Hb.
  set (names := map fst first) in *.
  assert (Hfirst : storable names first) by by apply Forall_cons in Hb as [? _].
  rewrite (save_storable names) by done. rewrite Hempty.
  split; [done|].
  rewrite load_data_from_csv_run. cbn [fst snd set_files w_files].
  rewrite lookup_insert_eq. cbn [app].
  rewrite Reader_rows_written.
  - cbn [rbind map DictReader_rows]. f_equal. f_equal.
    unfold names at 1. rewrite record_values_nodup by apply Hfirst.
    rewrite map_map.
    assert (Hall : forall rows : list (list (list N * list N)),
      filter (fun row => negb (is_blank row))
             (map (fun record => map (record_value record) names) rows)
      = map (fun record => map (record_value record) names) rows).
    { induction rows as [|r rows IH]; [done|]. simpl. rewrite filter_cons.
      destruct (decide _) as [_|Hb']; [by rewrite IH|].
      exfalso. apply Hb'. by destruct names. }
    rewrite Hall, map_map. done.
  - rewrite Forall_fmap. eapply Forall_impl; [done|].
    intros record Hs. by apply storable_cells.
Qed.

(** *** Appends in a row, and what comes back as text *)

Lemma storable_batch_cells (names : list (list N))
      (batch : list (list (list N * list N))) :
  Forall (storable names) batch ->
  Forall (Forall (fun d => (CR ∉ d) /\ N.of_nat (length d) <= field_limit))
         (map (fun record => map (record_value record) names) batch).
Proof.
  intros Hb. rewrite Forall_fmap. eapply Forall_impl; [done|].
  intros record Hs. by apply storable_cells.
Qed.

Lemma storable_header_cells (names : list (list N))
      (record : list (list N * list N)) :
  storable names record ->
  Forall (fun d => (CR ∉ d) /\ N.of_nat (length d) <= field_limit) names.
Proof.
  intros Hs. apply Forall_forall. intros name Hn.
  by destruct (storable_names_clean _ _ _ Hs Hn) as (_ & ? & ?).
Qed.

(** The table that storable records were written to loads as these
    records. *)
Lemma load_storable_table (names : list (list N))
      (batch : list (list (list N * list N))) (file_path : list N)
      (w : world) :
  names <> [] -> NoDup names ->
  Forall (fun d => (CR ∉ d) /\ N.of_nat (length d) <= field_limit) names ->
  Forall (storable names) batch ->
  w_files w !! file_path
  = Some ((record_text names ++ lineterminator)
          ++ flat_map (fun cells => record_text cells ++ lineterminator)
               (map (fun record => map (record_value record) names) batch)) ->
  load_data_from_csv file_path w
  = (Ok (of_batch (map (as_loaded names) batch)), w).
Proof.
  intros Hne Hnd Hnames Hb Hc.
  rewrite load_data_from_csv_run, Hc. f_equal.
  change ((record_text names ++ lineterminator) ++ flat_map ?f ?l)
    with (flat_map f (names :: l)).
  rewrite Reader_rows_written.
  - cbn [rbind DictReader_rows].
    rewrite DictReader_stored by done. unfold of_batch.
    by rewrite loaded_rows.
  - apply Forall_cons. split; [done|]. by apply storable_batch_cells.
Qed.

(** X5. Two appends in a row to a destination that does not exist, of
    storable batches whose first records list the same keys in the same
    order, both succeed, and load_all then returns the records of the first
    batch followed by those of the second, each as the mapping it was. *)
Theorem two_appends_then_load_all
        (first1 first2 : list (list N * list N))
        (others1 others2 : list (list (list N * list N)))
        (file_path : list N) (w : world) :
  w_files w !! file_path = None ->
  map fst first1 <> [] ->
  map fst first2 = map fst first1 ->
  Forall (storable (map fst first1))
         ((first1 :: others1) ++ first2 :: others2) ->
  fst (save_data_to_csv (of_batch (first1 :: others1)) file_path w) = Ok tt
  /\ fst (save_data_to_csv (of_batch (first2 :: others2)) file_path
            (snd (save_data_to_csv (of_batch (first1 :: others1))
                                   file_path w)))
     = Ok tt
  /\ exists loaded,
       fst (load_data_from_csv file_path
              (snd (save_data_to_csv (of_batch (first2 :: others2)) file_path
                      (snd (save_data_to_csv (of_batch (first1 :: others1))
                                             file_path w)))))
       = Ok (of_batch loaded)
       /\ rows_match (map fst first1)
                     ((first1 :: others1) ++ first2 :: others2) loaded.
Proof.
  intros Hfresh Hne Hsame Hall.
  set (names := map fst first1) in *.
  assert (Hb := Hall). apply Forall_app in Hb as [Hb1 Hb2].
  assert (Hfirst : storable names first1)
    by by apply Forall_cons in Hb1 as [? _].
  assert (Hnd : NoDup names) by apply Hfirst.
  rewrite (save_storable names first1) by done. rewrite Hfresh.
  split; [done|]. cbn [snd].
  rewrite (save_storable names first2) by done.
  cbn [set_files w_files]. rewrite lookup_insert_eq.
  split; [done|].
  exists (map (as_loaded names) ((first1 :: others1) ++ first2 :: others2)).
  split; [|by apply rows_match_as_loaded].
  rewrite (load_storable_table names
             ((first1 :: others1) ++ first2 :: others2)); try done.
  - by apply (storable_header_cells names first1).
  - cbn [snd set_files w_files].
    by rewrite lookup_insert_eq, <- app_assoc, <- flat_map_app, <- map_app.
Qed.

Lemma as_loaded_value (names : list (list N))
      (record : list (list N * list N)) (name : list N) :
  name ∈ names ->
  record_value (as_loaded names record) name = record_value record name.
Proof.
  intros Hn. unfold record_value at 1.
  assert (Hg : dict_get (of_record (as_loaded names record)) (Some name)
               = Some (PyStr (record_value record name))).
  { induction names as [|n names IH]; [by apply elem_of_nil in Hn|].
    simpl. destruct (decide (Some n = Some name)) as [[= ->]|Hd]; [done|].
    apply elem_of_cons in Hn as [->|Hn]; [done|]. by apply IH. }
  by rewrite Hg.
Qed.

Lemma as_loaded_idemp (names : list (list N))
      (record : list (list N * list N)) :
  as_loaded names (as_loaded names record) = as_loaded names record.
Proof.
  unfold as_loaded at 1 3. apply map_ext_in. intros name Hn.
  f_equal. apply as_loaded_value. by apply list_elem_of_In.
Qed.

Lemma as_loaded_storable (names : list (list N))
      (record : list (list N * list N)) :
  NoDup names ->
  storable names record -> storable names (as_loaded names record).
Proof.
  intros Hnd Hs. split; [|split].
  - by rewrite as_loaded_keys.
  - intros name. by rewrite as_loaded_keys.
  - unfold as_loaded. rewrite Forall_fmap. apply Forall_forall.
    intros name Hn. simpl. split.
    + by apply (storable_names_clean names record).
    + by apply (record_value_clean names).
Qed.

(** X6. A loaded table can be copied: after a storable batch was appended
    to a destination that did not exist, appending what load_all returns
    from it to a second destination that does not exist succeeds, and
    load_all returns the same sequence from the copy as from the original,
    which is left as it was. *)
Theorem loaded_table_can_be_copied
        (first : list (list N * list N))
        (others : list (list (list N * list N)))
        (source copy : list N) (w : world) :
  w_files w !! source = None ->
  w_files w !! copy = None ->
  copy <> source ->
  map fst first <> [] ->
  Forall (storable (map fst first)) (first :: others) ->
  exists w1 loaded w2,
    save_data_to_csv (of_batch (first :: others)) source w = (Ok tt, w1)
    /\ load_data_from_csv source w1 = (Ok loaded, w1)
    /\ save_data_to_csv loaded copy w1 = (Ok tt, w2)
    /\ load_data_from_csv copy w2 = (Ok loaded, w2)
    /\ load_data_from_csv source w2 = (Ok loaded, w2).
Proof.
  intros Hsource Hcopy Hne Hnames Hb.
  set (names := map fst first) in *.
  assert (Hfirst : storable names first) by by apply Forall_cons in Hb as [? _].
  assert (Hnd : NoDup names) by apply Hfirst.
  assert (Hhead := storable_header_cells names first Hfirst).
  assert (Hb' : Forall (storable names)
                  (as_loaded names first :: map (as_loaded names) others)).
  { change (Forall (storable names) (map (as_loaded names) (first :: others))).
    rewrite Forall_fmap. eapply Forall_impl; [done|].
    intros record Hs. by apply as_loaded_storable. }
  eexists _, (of_batch (map (as_loaded names) (first :: others))), _.
  split; [by apply (save_storable names)|].
  rewrite Hsource.
  split; [apply load_storable_table; try done; apply lookup_insert_eq|].
  split.
  { cbn [map]. apply (save_storable names); [|done].
    by rewrite as_loaded_keys. }
  cbn [set_files w_files]. rewrite lookup_insert_ne, Hcopy by done.
  assert (Hidemp : map (as_loaded names)
                       (as_loaded names first :: map (as_loaded names) others)
                   = map (as_loaded names) (first :: others)).
  { change (map (as_loaded names) (map (as_loaded names) (first :: others))
            = map (as_loaded names) (first :: others)).
    rewrite map_map. apply map_ext. intros record. apply as_loaded_idemp. }
  split.
  - rewrite <- Hidemp at 1.
    apply load_storable_table; try done.
    cbn [set_files w_files]. apply lookup_insert_eq.
  - apply load_storable_table; try done.
    cbn [set_files w_files]. rewrite lookup_insert_ne by done.
    apply lookup_insert_eq.
Qed.

(** *** Values that are not text *)

Lemma clean_encodable (s : list N) :
  clean s -> forallb utf8_encodable s = true.
Proof. by intros (? & _). Qed.

(** X7. What comes back is the text of each cell, whatever the value was.
    For a batch of mappings with the string keys [names] (those of the
    first record, at least one), whose cells under these names are clean
    text once written (a string as it is, None and a missing key as the
    empty string, any other value through str), append to a destination
    that does not exist succeeds and load_all returns, for every record in
    order, the mapping from each name to the text of its cell. *)
Theorem append_then_load_all_returns_cell_texts
        (names : list (list N))
        (first : list (option (list N) * pyval))
        (others : list (list (option (list N) * pyval)))
        (file_path : list N) (w : world) :
  w_files w !! file_path = None ->
  map fst first = map Some names ->
  names <> [] ->
  NoDup names ->
  Forall clean names ->
  Forall (fun d =>
            (forall k, k ∈ map fst d -> k ∈ map Some names)
            /\ Forall (fun v => clean (cell_text v))
                      (row_cells (map Some names) d))
         (first :: others) ->
  fst (save_data_to_csv (PyList (map PyDict (first :: others))) file_path w)
  = Ok tt
  /\ fst (load_data_from_csv file_path
            (snd (save_data_to_csv (PyList (map PyDict (first :: others)))
                                   file_path w)))
     = Ok (PyList
             (map (fun d =>
                     PyDict (of_record
                               (zip names
                                    (map cell_text
                                         (row_cells (map Some names) d)))))
                  (first :: others))).
Proof.
  intros Hfresh Hkeys Hne Hnd Hnames Hb.
  assert (Hw : Forall (writable (map fst first)) (first :: others)).
  { rewrite Hkeys. eapply Forall_impl; [done|]. intros d [Hk Hc].
    split; [done|]. eapply Forall_impl; [done|].
    intros v Hv. by apply clean_encodable. }
  assert (Hen : encodable_names (map fst first)).
  { rewrite Hkeys. unfold encodable_names. rewrite Forall_fmap.
    eapply Forall_impl; [done|]. intros name Hn. by apply clean_encodable. }
  rewrite <- (app_nil_r (map PyDict (first :: others))).
  rewrite save_writable_prefix by done.
  split; [done|].
  rewrite load_data_from_csv_run. cbn [fst snd set_files w_files].
  rewrite lookup_insert_eq, Hfresh, Hkeys. cbn [rows_written fst].
  rewrite app_nil_r. unfold table_head, row_lines.
  rewrite csv_writerow_text, header_cells, rows_written_text.
  change ((record_text names ++ lineterminator) ++ flat_map ?f ?l)
    with (flat_map f (names :: l)).
  rewrite Reader_rows_written.
  - cbn [rbind DictReader_rows]. f_equal. f_equal.
    assert (Hrows : forall ds : list (list (option (list N) * pyval)),
      map (DictReader_row names)
          (filter (fun row => negb (is_blank row))
                  (map (fun d => map cell_text (row_cells (map Some names) d))
                       ds))
      = map (fun d => of_record
                        (zip names
                             (map cell_text (row_cells (map Some names) d))))
            ds).
    { induction ds as [|d ds IH]; [done|]. simpl. rewrite filter_cons.
      destruct (decide _) as [_|Hb'].
      - simpl. rewrite IH. f_equal.
        apply DictReader_row_full; [done|].
        unfold row_cells. by rewrite !length_map.
      - exfalso. apply Hb'. by destruct names. }
    by rewrite Hrows, map_map.
  - apply Forall_cons. split.
    + eapply Forall_impl; [done|]. by intros name (_ & ? & ?).
    + rewrite Forall_fmap. eapply Forall_impl; [exact Hb|]. intros d [_ Hc].
      unfold compose. rewrite Forall_fmap. eapply Forall_impl; [exact Hc|].
      by intros v (_ & ? & ?).
Qed.

(** *** Loading any text *)

Lemma universal_newlines_no_cr (s : list N) : forall b,
  CR ∉ universal_newlines b s.
Proof.
  induction s as [|c s IH]; intros b; simpl; [apply not_elem_of_nil|].
  destruct (N.eqb_spec c CR) as [->|Hc].
  - apply not_elem_of_cons. split; [done|apply IH].
  - destruct ((c =? LF) && b); [apply IH|].
    apply not_elem_of_cons. split; [congruence|apply IH].
Qed.

Lemma universal_newlines_length (s : list N) : forall b,
  (length (universal_newlines b s) <= length s)%nat.
Proof.
  induction s as [|c s IH]; intros b; simpl; [done|].
  destruct (c =? CR); simpl; [specialize (IH true); lia|].
  destruct ((c =? LF) && b); simpl; specialize (IH false); lia.
Qed.

Lemma parse_process_char_plain (r : ReaderObj) (c : N) :
  is_newline c = false ->
  state r <> EAT_CRNL ->
  N.of_nat (length (field r)) < field_limit ->
  exists r', parse_process_char r (Some c) = Ok r'
             /\ state r' <> EAT_CRNL
             /\ (length (field r') <= S (length (field r)))%nat.
Proof.
  intros Hnl Hst Hlen. destruct r as [st fs fd]. simpl in *.
  unfold parse_process_char. simpl. rewrite Hnl.
  assert (Hadd : forall st', parse_add_char
                   {| state := st'; fields := fs; field := fd |} c
                 = Ok {| state := st'; fields := fs; field := fd ++ [c] |})
    by (intros st'; by apply parse_add_char_ok).
  assert (Hl : (length (fd ++ [c]) <= S (length fd))%nat)
    by (rewrite length_app; simpl; lia).
  destruct st; try done;
    destruct (c =? DQUOTE); destruct (c =? COMMA);
    unfold set_state, parse_save_field; simpl; rewrite ?Hadd; simpl;
    eexists; (split; [reflexivity|]); simpl; (split; [done|]); lia.
Qed.

Lemma parse_process_char_EOL (r : ReaderObj) :
  exists r', parse_process_char r None = Ok r'
             /\ (state r' = START_RECORD
                 \/ (state r' = IN_QUOTED_FIELD /\ r' = r)).
Proof.
  destruct r as [st fs fd]. unfold parse_process_char. simpl.
  destruct st; simpl; eexists; (split; [reflexivity|]); simpl; auto.
Qed.

Lemma feed_line_break (r : ReaderObj) :
  state r <> EAT_CRNL ->
  N.of_nat (length (field r)) < field_limit ->
  exists r', feed_line r [LF] = Ok r'
             /\ (state r' = START_RECORD
                 \/ (state r' = IN_QUOTED_FIELD
                     /\ (length (field r') <= S (length (field r)))%nat)).
Proof.
  intros Hst Hlen.
  assert (H1 : exists r1, parse_process_char r (Some LF) = Ok r1
                 /\ (state r1 = EAT_CRNL
                     \/ (state r1 = IN_QUOTED_FIELD
                         /\ (length (field r1) <= S (length (field r)))%nat))).
  { destruct r as [st fs fd]. simpl in *.
    assert (Hadd : parse_add_char
                     {| state := IN_QUOTED_FIELD; fields := fs; field := fd |}
                     LF
                   = Ok {| state := IN_QUOTED_FIELD; fields := fs;
                           field := fd ++ [LF] |})
      by by apply parse_add_char_ok.
    unfold parse_process_char. simpl.
    destruct st; try done; simpl; rewrite ?Hadd;
      eexists; (split; [reflexivity|]); simpl; auto.
    right. split; [done|]. rewrite length_app. simpl. lia. }
  destruct H1 as (r1 & H1 & Hr1).
  change (feed_line r [LF])
    with (rbind (parse_process_char r (Some LF))
                (fun r' => parse_process_char r' None)).
  rewrite H1. cbn [rbind]. unfold parse_process_char.
  destruct Hr1 as [Hs|[Hs Hl]]; rewrite Hs;
    eexists; (split; [reflexivity|]); simpl; auto.
Qed.

Lemma Reader_rows_end (r : ReaderObj) : exists rows, Reader_rows r [] = Ok rows.
Proof. simpl. destruct (_ || _); by eexists. Qed.

(** The reader accepts every text that is no longer than one field may
    be. *)
Lemma Reader_rows_short (t : list N) : forall r,
  CR ∉ t ->
  state r <> EAT_CRNL ->
  N.of_nat (length (field r) + length t) <= field_limit ->
  exists rows, Reader_rows r (splitlines t) = Ok rows.
Proof.
  induction t as [|c t IH]; intros r Hcr Hst Hlen; [apply Reader_rows_end|].
  apply not_elem_of_cons in Hcr as [Hc Hcr]. simpl in Hlen.
  assert (Hlt : N.of_nat (length (field r)) < field_limit) by lia.
  simpl splitlines. destruct (N.eqb_spec c LF) as [->|Hlf].
  - destruct (feed_line_break r Hst Hlt) as (r' & Hfeed & Hr').
    cbn [Reader_rows]. rewrite Hfeed. cbn [rbind].
    destruct Hr' as [Hstart|[Hq Hl]].
    + rewrite bool_decide_true by done.
      destruct (IH parse_reset) as [rows Hrows]; [done|done|simpl; lia|].
      rewrite Hrows. by eexists.
    + rewrite bool_decide_false by by rewrite Hq.
      apply IH; [done|by rewrite Hq|lia].
  - assert (Hnl : is_newline c = false).
    { unfold is_newline. apply orb_false_intro; by apply N.eqb_neq. }
    destruct (parse_process_char_plain r c Hnl Hst Hlt)
      as (r1 & Hr1 & Hst1 & Hl1).
    destruct (splitlines t) as [|l ls] eqn:Hs.
    + cbn [Reader_rows feed_line]. rewrite Hr1. cbn [rbind].
      destruct (parse_process_char_EOL r1) as (r2 & Hr2 & _).
      rewrite Hr2. cbn [rbind].
      case_bool_decide; [simpl; by eexists|].
      destruct (_ || _); by eexists.
    + rewrite Reader_rows_char, Hr1. cbn [rbind].
      apply IH; [done|done|lia].
Qed.

(** X8. No text of at most 131072 characters is malformed for load_all:
    whatever such a destination holds (quotes left open, rows of any
    width, stray line breaks), load_all returns a sequence and changes
    nothing. *)
Theorem load_all_accepts_every_short_text
        (file_path : list N) (w : world) (content : list N) :
  w_files w !! file_path = Some content ->
  N.of_nat (length content) <= field_limit ->
  exists rows, load_data_from_csv file_path w = (Ok (PyList rows), w).
Proof.
  intros Hc Hlen. rewrite load_data_from_csv_run, Hc.
  destruct (Reader_rows_short (translate_newlines content) parse_reset)
    as [rows Hrows].
  - apply universal_newlines_no_cr.
  - done.
  - pose proof (universal_newlines_length content false) as Hl.
    unfold translate_newlines. simpl. lia.
  - rewrite Hrows. by eexists.
Qed.

(** *** How many rows, and rows of another width *)

Lemma Reader_rows_length (lines : list (list N)) : forall r rows,
  Reader_rows r lines = Ok rows -> (length rows <= S (length lines))%nat.
Proof.
  induction lines as [|line lines IH]; intros r rows.
  - simpl. destruct (_ || _); intros [= <-]; simpl; lia.
  - cbn [Reader_rows]. destruct (feed_line r line) as [r'|e]; [|done].
    cbn [rbind]. case_bool_decide.
    + destruct (Reader_rows parse_reset lines) as [rows'|e] eqn:Hr; [|done].
      intros [= <-]. apply IH in Hr. simpl. lia.
    + intros Hr. apply IH in Hr. simpl. lia.
Qed.

Lemma Reader_rows_length_reset (lines : list (list N)) : forall rows,
  Reader_rows parse_reset lines = Ok rows ->
  (length rows <= length lines)%nat.
Proof.
  induction lines as [|line lines IH]; intros rows.
  - by intros [= <-].
  - cbn [Reader_rows]. destruct (feed_line parse_reset line) as [r'|e]; [|done].
    cbn [rbind]. case_bool_decide.
    + destruct (Reader_rows parse_reset lines) as [rows'|e]; [|done].
      intros [= <-]. specialize (IH rows' eq_refl). simpl. lia.
    + intros Hr. apply Reader_rows_length in Hr. simpl. lia.
Qed.

Lemma DictReader_rows_length (rows : list (list (list N))) :
  (length (DictReader_rows rows) <= pred (length rows))%nat.
Proof.
  destruct rows as [|fieldnames rows]; [done|]. simpl.
  rewrite length_map. apply length_filter.
Qed.

(** X9. load_all returns at most one row for every line of the destination
    after the first: the first row read is taken for the header and is
    never returned. A destination of one line, or an empty one, gives the
    empty sequence. *)
Theorem load_all_returns_fewer_rows_than_lines
        (file_path : list N) (w : world) (content : list N)
        (rows : list pyval) :
  w_files w !! file_path = Some content ->
  fst (load_data_from_csv file_path w) = Ok (PyList rows) ->
  (length rows <= pred (length (splitlines (translate_newlines content))))%nat.
Proof.
  intros Hc. rewrite load_data_from_csv_run, Hc. cbn [fst].
  destruct (Reader_rows parse_reset _) as [raw|e] eqn:Hraw; [|done].
  intros [= <-]. apply Reader_rows_length_reset in Hraw.
  pose proof (DictReader_rows_length raw). rewrite length_map. lia.
Qed.

Lemma dict_get_zip (names : list (list N)) : forall (cells : list (list N)) i name,
  NoDup names ->
  names !! i = Some name ->
  dict_get (zip (map Some names) (map PyStr cells)) (Some name)
  = PyStr <$> cells !! i.
Proof.
  induction names as [|n names IH]; intros cells i name Hnd Hi; [done|].
  apply NoDup_cons in Hnd as [Hn Hnd].
  destruct cells as [|c cells]; [by destruct i|].
  destruct i as [|i]; simpl in *.
  - injection Hi as ->. by rewrite decide_True.
  - rewrite decide_False; [by apply IH|].
    intros [= ->]. apply Hn. by eapply list_elem_of_lookup_2.
Qed.

Lemma dict_get_zip_None (names cells : list (list N)) :
  dict_get (zip (map Some names) (map PyStr cells)) None = None.
Proof.
  apply dict_get_None. intros Hin.
  apply list_elem_of_fmap in Hin as [[k v] [Hk Hin]]. simpl in Hk. subst k.
  apply list_elem_of_lookup_1 in Hin as [i Hi].
  apply lookup_zip_with_Some in Hi as (x & y & [= <- _] & Hn & _).
  rewrite list_lookup_fmap in Hn. by destruct (names !! i).
Qed.

Lemma dict_get_fold_set (ks : list (list N)) : forall d k,
  dict_get (fold_left (fun d key => dict_set d (Some key) PyNone) ks d) k
  = if decide (k ∈ map Some ks) then Some PyNone else dict_get d k.
Proof.
  induction ks as [|key ks IH]; intros d k; simpl.
  - done.
  - rewrite IH, dict_set_get.
    destruct (decide (k ∈ map Some ks)) as [Hin|Hin].
    + rewrite decide_True; [done|by right].
    + destruct (decide (Some key = k)) as [<-|Hk].
      * rewrite decide_True; [done|left].
      * rewrite decide_False; [done|].
        intros Hc. apply elem_of_cons in Hc as [->|Hc]; done.
Qed.

Lemma zip_keys_nodup (names cells : list (list N)) :
  NoDup names ->
  NoDup (map fst (zip (map Some names) (map PyStr cells))).
Proof.
  revert cells. induction names as [|n names IH]; intros cells Hnd;
    [apply NoDup_nil_2|].
  apply NoDup_cons in Hnd as [Hn Hnd].
  destruct cells as [|c cells]; [apply NoDup_nil_2|]. simpl.
  apply NoDup_cons. split; [|by apply IH].
  intros Hin. apply list_elem_of_fmap in Hin as [[k v] [Hk Hin]].
  simpl in Hk. subst k.
  apply list_elem_of_lookup_1 in Hin as [i Hi].
  apply lookup_zip_with_Some in Hi as (x & y & [= <- _] & Hx' & _).
  rewrite list_lookup_fmap in Hx'.
  destruct (names !! i) as [n'|] eqn:Hn'; [|done].
  simpl in Hx'. injection Hx' as ->.
  apply Hn. by eapply list_elem_of_lookup_2.
Qed.

(** What a row of any width becomes under the header [names]. *)
Lemma DictReader_row_get (names cells : list (list N)) :
  NoDup names ->
  (forall i name, names !! i = Some name ->
     dict_get (DictReader_row names cells) (Some name)
     = Some (match cells !! i with
             | Some c => PyStr c
             | None => PyNone
             end))
  /\ dict_get (DictReader_row names cells) None
     = if Nat.ltb (length names) (length cells)
       then Some (PyList (map PyStr (drop (length names) cells)))
       else None.
Proof.
  intros Hnd. unfold DictReader_row.
  rewrite dict_of_nodup by by apply zip_keys_nodup.
  destruct (Nat.ltb_spec (length names) (length cells)) as [Hlong|Hnot].
  - split.
    + intros i name Hi. rewrite dict_set_get, decide_False by done.
      rewrite (dict_get_zip _ _ i) by done.
      destruct (cells !! i) as [c|] eqn:Hc; [done|].
      apply lookup_ge_None in Hc. apply lookup_lt_Some in Hi. lia.
    + rewrite dict_set_get. by rewrite decide_True.
  - destruct (Nat.ltb_spec (length cells) (length names)) as [Hshort|Hsame].
    + split.
      * intros i name Hi. rewrite dict_get_fold_set.
        destruct (decide (Some name ∈ map Some (drop (length cells) names)))
          as [Hin|Hin].
        -- apply list_elem_of_fmap in Hin as [n [[= <-] Hin]].
           apply list_elem_of_lookup_1 in Hin as [j Hj].
           rewrite lookup_drop in Hj.
           assert (i = (length cells + j)%nat) as ->
             by by eapply NoDup_lookup.
           rewrite (lookup_ge_None_2 cells) by lia. done.
        -- rewrite (dict_get_zip _ _ i) by done.
           destruct (cells !! i) as [c|] eqn:Hc; [done|].
           exfalso. apply Hin. apply list_elem_of_fmap. exists name.
           split; [done|]. apply lookup_ge_None in Hc.
           apply (list_elem_of_lookup_2 _ (i - length cells)%nat).
           rewrite lookup_drop. rewrite <- Hi. f_equal. lia.
      * rewrite dict_get_fold_set, decide_False; [apply dict_get_zip_None|].
        intros Hin. by apply list_elem_of_fmap in Hin as [n [? _]].
    + split; [|apply dict_get_zip_None].
      intros i name Hi. rewrite (dict_get_zip _ _ i) by done.
      destruct (cells !! i) as [c|] eqn:Hc; [done|].
      apply lookup_ge_None in Hc. apply lookup_lt_Some in Hi. lia.
Qed.

(** X10. Rows need not be as wide as the header, and then values come back
    that are not text. For a table written by the csv writer from a header
    of distinct names and rows of at least one cell each (clean text),
    load_all returns one mapping per row; in it the i-th name gives the
    i-th cell of the row, or None when the row has no i-th cell, and the
    cells beyond the header come back as one list under the key None. *)
Theorem load_all_pads_short_rows_and_collects_long_ones
        (names : list (list N)) (rows : list (list (list N)))
        (file_path : list N) (w : world) :
  w_files w !! file_path
  = Some (flat_map (fun cells => record_text cells ++ lineterminator)
                   (names :: rows)) ->
  NoDup names ->
  Forall (Forall (fun d => (CR ∉ d) /\ N.of_nat (length d) <= field_limit))
         (names :: rows) ->
  Forall (fun cells => cells <> []) rows ->
  exists loaded,
    load_data_from_csv file_path w = (Ok (PyList (map PyDict loaded)), w)
    /\ length loaded = length rows
    /\ forall j cells d,
         rows !! j = Some cells -> loaded !! j = Some d ->
         (forall i name, names !! i = Some name ->
            dict_get d (Some name)
            = Some (match cells !! i with
                    | Some c => PyStr c
                    | None => PyNone
                    end))
         /\ dict_get d None
            = if Nat.ltb (length names) (length cells)
              then Some (PyList (map PyStr (drop (length names) cells)))
              else None.
Proof.
  intros Hc Hnd Hclean Hrows.
  exists (map (DictReader_row names) rows).
  split; [|split].
  - rewrite load_data_from_csv_run, Hc, Reader_rows_written by done.
    cbn [rbind DictReader_rows].
    assert (Hf : filter (fun row => negb (is_blank row)) rows = rows).
    { clear -Hrows. induction Hrows as [|cells rows Hne _ IH]; [done|].
      rewrite filter_cons, IH. destruct (decide _) as [_|Hb]; [done|].
      exfalso. apply Hb. by destruct cells. }
    by rewrite Hf.
  - by rewrite length_map.
  - intros j cells d Hj Hd. rewrite list_lookup_fmap, Hj in Hd.
    injection Hd as <-. by apply DictReader_row_get.
Qed.

(** X11. Blank lines do not count: a table written by the csv writer in
    which some rows have no cell at all (blank lines, after the header)
    loads as the same table without these rows. *)
Theorem load_all_skips_blank_lines
        (names : list (list N)) (rows : list (list (list N)))
        (file_path : list N) (w w' : world) :
  Forall (Forall (fun d => (CR ∉ d) /\ N.of_nat (length d) <= field_limit))
         (names :: rows) ->
  w_files w !! file_path
  = Some (flat_map (fun cells => record_text cells ++ lineterminator)
                   (names :: rows)) ->
  w_files w' !! file_path
  = Some (flat_map (fun cells => record_text cells ++ lineterminator)
                   (names :: filter (fun cells => cells <> []) rows)) ->
  exists loaded,
    fst (load_data_from_csv file_path w) = Ok (PyList loaded)
    /\ fst (load_data_from_csv file_path w') = Ok (PyList loaded)
    /\ length loaded = length (filter (fun cells => cells <> []) rows).
Proof.
  intros Hclean Hw Hw'.
  assert (Hclean' : Forall (Forall (fun d => (CR ∉ d)
                                     /\ N.of_nat (length d) <= field_limit))
                      (names :: filter (fun cells => cells <> []) rows)).
  { apply Forall_cons in Hclean as [Hn Hr]. apply Forall_cons.
    split; [done|]. apply Forall_forall. intros cells Hin.
    apply list_elem_of_filter in Hin as [_ Hin].
    rewrite Forall_forall in Hr. by apply Hr. }
  assert (Hsame : forall rs : list (list (list N)),
            filter (fun row => negb (is_blank row)) rs
            = filter (fun cells => cells <> []) rs).
  { induction rs as [|r rs IH]; [done|]. rewrite !filter_cons, IH.
    by destruct r. }
  exists (map PyDict (map (DictReader_row names)
                          (filter (fun cells => cells <> []) rows))).
  rewrite !load_data_from_csv_run, Hw, Hw'. cbn [fst].
  rewrite !Reader_rows_written by done. cbn [rbind DictReader_rows].
  rewrite !Hsame. split; [done|]. split.
  - by rewrite list_filter_filter_l by done.
  - by rewrite !length_map.
Qed.

(** *** Carriage returns *)

Lemma universal_newlines_plain (s : list N) :
  CR ∉ s -> universal_newlines false s = s.
Proof.
  induction s as [|c s IH]; [done|]. intros Hcr.
  apply not_elem_of_cons in Hcr as [Hc Hs]. simpl.
  destruct (N.eqb_spec c CR); [done|].
  by rewrite andb_false_r, IH.
Qed.

Lemma pending_cr_app (s t : list N) : forall b,
  pending_cr b (s ++ t) = pending_cr (pending_cr b s) t.
Proof. induction s as [|c s IH]; intros b; simpl; [done|apply IH]. Qed.

Lemma universal_newlines_join_copy (d : list N) : forall b,
  universal_newlines b (join_copy d) = join_copy (universal_newlines b d)
  /\ pending_cr b (join_copy d) = pending_cr b d.
Proof.
  induction d as [|c d IH]; intros b; [done|]. simpl.
  destruct (N.eqb_spec c DQUOTE) as [->|Hq].
  - simpl. destruct (IH false) as [-> ->]. done.
  - simpl. destruct (N.eqb_spec c CR) as [->|Hcr].
    + simpl. destruct (IH true) as [-> ->]. done.
    + destruct ((c =? LF) && b).
      * destruct (IH false) as [-> ->]. done.
      * simpl. apply N.eqb_neq in Hq. rewrite Hq. simpl.
        destruct (IH false) as [-> ->]. done.
Qed.

Lemma universal_newlines_has_LF (d : list N) : forall b,
  CR ∈ d -> LF ∈ universal_newlines b d.
Proof.
  induction d as [|c d IH]; intros b Hcr; [by apply elem_of_nil in Hcr|].
  simpl. destruct (N.eqb_spec c CR) as [->|Hc]; [left|].
  apply elem_of_cons in Hcr as [Hcr|Hcr]; [congruence|].
  destruct ((c =? LF) && b); [by apply IH|]. right. by apply IH.
Qed.

Lemma needs_quoting_elem (d : list N) (c : N) :
  c ∈ d -> needs_quoting c = true -> existsb needs_quoting d = true.
Proof.
  intros Hc Hq. induction d as [|x d IH]; [by apply elem_of_nil in Hc|].
  simpl. apply elem_of_cons in Hc as [<-|Hc]; [by rewrite Hq|].
  rewrite IH by done. apply orb_true_r.
Qed.

Lemma needs_quoting_translated (d : list N) :
  existsb needs_quoting (translate_newlines d) = existsb needs_quoting d.
Proof.
  unfold translate_newlines. destruct (decide (CR ∈ d)) as [Hcr|Hcr].
  - rewrite (needs_quoting_elem _ LF); [|by apply universal_newlines_has_LF|done].
    by rewrite (needs_quoting_elem _ CR).
  - by rewrite universal_newlines_plain.
Qed.

(** Translation goes through a cell as it stands in the record, and leaves
    no carriage return pending after it. *)
Lemma universal_newlines_piece (d rest : list N) :
  universal_newlines false (piece d ++ rest)
  = piece (translate_newlines d) ++ universal_newlines false rest.
Proof.
  unfold piece. rewrite needs_quoting_translated.
  destruct (existsb needs_quoting d) eqn:Hq.
  - rewrite <- !app_assoc. simpl.
    rewrite universal_newlines_app.
    destruct (universal_newlines_join_copy d false) as [-> ->].
    unfold translate_newlines. by destruct (pending_cr false d).
  - assert (Hcr : CR ∉ d) by by apply needs_quoting_no_cr.
    unfold translate_newlines. rewrite (universal_newlines_plain d) by done.
    rewrite universal_newlines_app.
    destruct (universal_newlines_join_copy d false) as [-> ->].
    rewrite universal_newlines_plain by done. f_equal. f_equal.
    clear -Hcr. induction d as [|c d IH]; [done|].
    apply not_elem_of_cons in Hcr as [Hc Hd]. simpl.
    destruct d as [|c2 d]; simpl in *; [|by apply IH].
    by apply N.eqb_neq.
Qed.

Lemma universal_newlines_cells (cells : list (list N)) (rest : list N) :
  universal_newlines false
    (flat_map (fun c' => COMMA :: piece c') cells ++ rest)
  = flat_map (fun c' => COMMA :: piece c') (map translate_newlines cells)
    ++ universal_newlines false rest.
Proof.
  induction cells as [|c cells IH]; [done|]. simpl.
  rewrite <- !app_assoc, universal_newlines_piece, IH. done.
Qed.

Lemma universal_newlines_row (cells : list (list N)) (rest : list N) :
  universal_newlines false (record_text cells ++ lineterminator ++ rest)
  = record_text (map translate_newlines cells)
    ++ LF :: universal_newlines false rest.
Proof.
  assert (Hend : universal_newlines false (lineterminator ++ rest)
                 = LF :: universal_newlines false rest) by done.
  destruct cells as [|c cells]; [exact Hend|].
  assert (Hgen : universal_newlines false
                   ((piece c ++ flat_map (fun c' => COMMA :: piece c') cells)
                    ++ lineterminator ++ rest)
                 = (piece (translate_newlines c)
                    ++ flat_map (fun c' => COMMA :: piece c')
                                (map translate_newlines cells))
                   ++ LF :: universal_newlines false rest).
  { rewrite <- !app_assoc, universal_newlines_piece, universal_newlines_cells.
    by rewrite Hend. }
  destruct c as [|x c].
  - destruct cells as [|c2 cells]; [reflexivity|exact Hgen].
  - assert (Hne : translate_newlines (x :: c) <> [])
      by by apply universal_newlines_false_nonempty.
    simpl map. destruct (translate_newlines (x :: c)) eqn:Ht; [done|].
    exact Hgen.
Qed.

Lemma universal_newlines_rows (rows : list (list (list N))) :
  translate_newlines
    (flat_map (fun cells => record_text cells ++ lineterminator) rows)
  = flat_map (fun cells => record_text cells ++ [LF])
             (map (map translate_newlines) rows).
Proof.
  unfold translate_newlines at 1.
  induction rows as [|cells rows IH]; [done|]. simpl.
  rewrite <- !app_assoc, universal_newlines_row, IH. done.
Qed.

(** The rows the reader finds in written records, whatever line breaks
    their cells hold. *)
Lemma Reader_rows_translated (rows : list (list (list N))) :
  Forall (Forall (fun d => N.of_nat (length d) <= field_limit)) rows ->
  Reader_rows parse_reset
    (splitlines (translate_newlines
       (flat_map (fun cells => record_text cells ++ lineterminator) rows)))
  = Ok (map (map translate_newlines) rows).
Proof.
  intros Hlen. rewrite universal_newlines_rows.
  apply (Reader_rows_extend [] []); [done|done|].
  rewrite Forall_fmap. eapply Forall_impl; [done|]. intros cells Hc.
  unfold compose. rewrite Forall_fmap. eapply Forall_impl; [exact Hc|].
  intros d Hd. unfold compose, translate_newlines. cbv beta in Hd.
  pose proof (universal_newlines_length d false). lia.
Qed.

Lemma record_value_with_cr names record name :
  storable_with_cr names record ->
  forallb utf8_encodable (record_value record name) = true
  /\ N.of_nat (length (record_value record name)) <= field_limit.
Proof.
  intros (_ & _ & Hc). unfold record_value.
  destruct (dict_get (of_record record) (Some name)) as [v|] eqn:Hg;
    [|by split].
  apply dict_get_of_record in Hg as (n & s & _ & -> & Hin). simpl.
  rewrite Forall_forall in Hc. by destruct (Hc _ Hin) as (_ & ? & ?).
Qed.

Lemma names_with_cr_clean names record name :
  storable_with_cr names record -> name ∈ names -> clean name.
Proof.
  intros (_ & Hk & Hc) Hn. apply Hk in Hn.
  apply list_elem_of_fmap in Hn as [[n s] [-> Hin]].
  rewrite Forall_forall in Hc. by destruct (Hc _ Hin).
Qed.

(** X12. A carriage return in a value does not come back. For a batch of
    string-to-string records with exactly the keys of the first record (at
    least one), clean keys, and values that are encodable and within the
    field limit, append to a destination that does not exist succeeds and
    load_all returns every record in order with, in each value, every
    carriage return and line feed pair and every lone carriage return
    replaced by one line feed: the file is written untranslated and read
    with universal newlines. *)
Theorem load_all_turns_carriage_returns_into_line_feeds
        (first : list (list N * list N))
        (others : list (list (list N * list N)))
        (file_path : list N) (w : world) :
  w_files w !! file_path = None ->
  map fst first <> [] ->
  Forall (storable_with_cr (map fst first)) (first :: others) ->
  fst (save_data_to_csv (of_batch (first :: others)) file_path w) = Ok tt
  /\ fst (load_data_from_csv file_path
            (snd (save_data_to_csv (of_batch (first :: others)) file_path w)))
     = Ok (of_batch
             (map (fun record =>
                     map (fun name =>
                            (name,
                             translate_newlines (record_value record name)))
                         (map fst first))
                  (first :: others))).
Proof.
  intros Hfresh Hne Hb.
  set (names := map fst first) in *.
  assert (Hfirst : storable_with_cr names first)
    by by apply Forall_cons in Hb as [? _].
  assert (Hnd : NoDup names) by apply Hfirst.
  assert (Hkeys : map fst (of_record first) = map Some names)
    by apply of_record_keys.
  assert (Hen : encodable_names (map fst (of_record first))).
  { rewrite Hkeys. unfold encodable_names. rewrite Forall_fmap.
    apply Forall_forall. intros name Hn. simpl.
    by destruct (names_with_cr_clean _ _ _ Hfirst Hn). }
  assert (Hw : Forall (writable (map fst (of_record first)))
                      (map of_record (first :: others))).
  { rewrite Hkeys, Forall_fmap. eapply Forall_impl; [exact Hb|].
    intros record Hs. split.
    - intros k. simpl. rewrite of_record_keys. intros Hk.
      apply list_elem_of_fmap in Hk as [n [-> Hn]].
      apply list_elem_of_fmap. exists n. split; [done|]. by apply Hs.
    - simpl. unfold row_cells. rewrite Forall_fmap. apply Forall_forall.
      intros k _. destruct k as [name|]; simpl.
      + by destruct (record_value_with_cr names record name Hs).
      + destruct (dict_get (of_record record) None) as [v|] eqn:Hg; [|done].
        by apply dict_get_of_record in Hg as (n & s & ? & _). }
  assert (Hdata : of_batch (first :: others)
                  = PyList (map PyDict (of_record first
                                        :: map of_record others) ++ [])).
  { unfold of_batch. rewrite app_nil_r. cbn [map]. by rewrite map_map. }
  rewrite Hdata. cbn [map] in Hw.
  rewrite save_writable_prefix by done.
  split; [done|].
  rewrite load_data_from_csv_run. cbn [fst snd set_files w_files].
  rewrite lookup_insert_eq, Hfresh, Hkeys. cbn [rows_written fst].
  rewrite app_nil_r. unfold table_head, row_lines.
  rewrite csv_writerow_text, header_cells, rows_written_text.
  change (of_record first :: map of_record others)
    with (map of_record (first :: others)).
  rewrite map_map.
  change ((record_text names ++ lineterminator) ++ flat_map ?f ?l)
    with (flat_map f (names :: l)).
  match goal with
  | |- context [flat_map _ (names :: ?l)] => set (cells := l)
  end.
  rewrite Reader_rows_translated.
  - cbn [rbind]. rewrite map_cons. cbn [DictReader_rows].
    f_equal. unfold of_batch. f_equal.
    unfold cells. clear cells.
    assert (Hnames : map translate_newlines names = names).
    { rewrite <- (map_id names) at 2. apply map_ext_in. intros name Hn.
      apply list_elem_of_In in Hn. apply universal_newlines_plain.
      by destruct (names_with_cr_clean _ _ _ Hfirst Hn) as (_ & ? & _). }
    rewrite Hnames.
    generalize (first :: others). intros batch.
    induction batch as [|record batch IH]; [done|].
    cbn [map]. rewrite filter_cons.
    destruct (decide _) as [_|Hblank].
    + cbn [map]. rewrite IH. f_equal. f_equal.
      rewrite DictReader_row_full.
      * rewrite row_cells_text, map_map. by rewrite zip_map_self.
      * done.
      * rewrite row_cells_text. by rewrite !length_map.
    + exfalso. apply Hblank. rewrite row_cells_text.
      by destruct names.
  - apply Forall_cons. split.
    + apply Forall_forall. intros name Hn.
      by destruct (names_with_cr_clean _ _ _ Hfirst Hn) as (_ & _ & ?).
    + unfold cells. rewrite Forall_fmap. eapply Forall_impl; [exact Hb|].
      intros record Hs. unfold compose. rewrite row_cells_text.
      rewrite Forall_fmap. apply Forall_forall. intros name _.
      by destruct (record_value_with_cr names record name Hs).
Qed.

(** *** The whole run *)

Lemma extraction_pipeline_cases (w : world) :
  extraction_pipeline w
  = match backend (w_prompts w) extract_prompt with
    | Raise e =>
        (Raise e,
         {| w_files := w_files w;
            w_prompts := w_prompts w ++ [extract_prompt];
            w_stdout := w_stdout w |})
    | Ok extracted_activities =>
        (match backend (w_prompts w ++ [extract_prompt])
                       (json_prompt extracted_activities) with
         | Raise e => Raise e
         | Ok json_str =>
             match json_loads json_str with
             | Ok activities_data => Ok activities_data
             | Raise JSONDecodeError => Ok (PyList [])
             | Raise e => Raise e
             end
         end,
         {| w_files := w_files w;
            w_prompts := w_prompts w
                         ++ [extract_prompt; json_prompt extracted_activities];
            w_stdout := w_stdout w |})
    end.
Proof.
  destruct (backend (w_prompts w) extract_prompt) as [a1|e] eqn:H1.
  - destruct (backend (w_prompts w ++ [extract_prompt]) (json_prompt a1))
      as [a2|e] eqn:H2.
    + by apply extraction_pipeline_run.
    + unfold extraction_pipeline.
      rewrite M_bind_run, query_llm_run, H1.
      rewrite M_bind_run, query_llm_run. cbn [w_prompts w_files w_stdout].
      by rewrite H2, <- app_assoc.
  - unfold extraction_pipeline. by rewrite M_bind_run, query_llm_run, H1.
Qed.

Lemma query_pipeline_cases (current_memory : pyval) (w : world) :
  query_pipeline current_memory w
  = match backend (w_prompts w) react_prompt with
    | Raise e =>
        (Raise e,
         {| w_files := w_files w;
            w_prompts := w_prompts w ++ [react_prompt];
            w_stdout := w_stdout w |})
    | Ok react_response =>
        match (if str_contains (lit "NEED_DATA_UPDATE") react_response
               then rbind (fst (load_data_from_csv STORAGE_FILE w))
                          (fun updated_data =>
                             Ok (augment_prompt stored_heading
                                                (json_dumps updated_data)))
               else Ok (augment_prompt memory_heading
                                       (json_dumps current_memory))) with
        | Raise e =>
            (Raise e,
             {| w_files := w_files w;
                w_prompts := w_prompts w ++ [react_prompt];
                w_stdout := w_stdout w |})
        | Ok prompt =>
            match backend (w_prompts w ++ [react_prompt]) prompt with
            | Raise e =>
                (Raise e,
                 {| w_files := w_files w;
                    w_prompts := w_prompts w ++ [react_prompt; prompt];
                    w_stdout := w_stdout w |})
            | Ok schedule_report =>
                match stdout_write (w_stdout w)
                                   (lit "Schedule for tomorrow:") with
                | Raise e =>
                    (Raise e,
                     {| w_files := w_files w;
                        w_prompts := w_prompts w ++ [react_prompt; prompt];
                        w_stdout := w_stdout w |})
                | Ok _ =>
                    match stdout_write
                            (w_stdout w ++ [lit "Schedule for tomorrow:"])
                            schedule_report with
                    | Raise e =>
                        (Raise e,
                         {| w_files := w_files w;
                            w_prompts := w_prompts w
                                         ++ [react_prompt; prompt];
                            w_stdout := w_stdout w
                                        ++ [lit "Schedule for tomorrow:"] |})
                    | Ok _ =>
                        (Ok tt,
                         {| w_files := w_files w;
                            w_prompts := w_prompts w
                                         ++ [react_prompt; prompt];
                            w_stdout := w_stdout w
                                        ++ [lit "Schedule for tomorrow:";
                                            schedule_report] |})
                    end
                end
            end
        end
    end.
Proof.
  unfold query_pipeline. rewrite M_bind_run, query_llm_run.
  destruct (backend (w_prompts w) react_prompt) as [react_response|e]; [|done].
  destruct (str_contains (lit "NEED_DATA_UPDATE") react_response).
  - rewrite M_bind_run, !load_data_from_csv_run. cbn [fst w_files].
    destruct (match w_files w !! STORAGE_FILE with
              | Some content => _
              | None => _
              end) as [updated_data|e]; [|done].
    cbn [rbind]. rewrite M_bind_run, query_llm_run.
    cbn [w_prompts w_files w_stdout].
    destruct (backend (w_prompts w ++ [react_prompt]) _)
      as [schedule_report|e]; [|by rewrite <- app_assoc].
    rewrite print_report_run. cbn [w_prompts w_files w_stdout].
    destruct (stdout_write (w_stdout w) _) as [[]|e];
      [|by rewrite <- app_assoc].
    destruct (stdout_write _ schedule_report) as [[]|e];
      by rewrite <- !app_assoc.
  - rewrite M_bind_run, query_llm_run. cbn [w_prompts w_files w_stdout].
    destruct (backend (w_prompts w ++ [react_prompt]) _)
      as [schedule_report|e]; [|by rewrite <- app_assoc].
    rewrite print_report_run. cbn [w_prompts w_files w_stdout].
    destruct (stdout_write (w_stdout w) _) as [[]|e];
      [|by rewrite <- app_assoc].
    destruct (stdout_write _ schedule_report) as [[]|e];
      by rewrite <- !app_assoc.
Qed.

(** An append changes neither the prompts sent nor the lines printed. *)
Lemma save_data_to_csv_quiet (data : pyval) (file_path : list N) (w : world) :
  w_prompts (snd (save_data_to_csv data file_path w)) = w_prompts w
  /\ w_stdout (snd (save_data_to_csv data file_path w)) = w_stdout w.
Proof.
  by destruct (save_data_to_csv_world data file_path w) as [->|[c ->]].
Qed.

(** X13. A run that ends normally has sent exactly four prompts, the
    extraction prompt, the conversion prompt built from the first answer,
    the decision prompt and one summarization prompt, and has printed
    exactly two lines: the heading and the answer to the fourth prompt. *)
Theorem main_sends_four_prompts_and_prints_the_last_answer (w : world) :
  fst (main w) = Ok tt ->
  exists extracted_activities prompt schedule_report,
    backend (w_prompts w) extract_prompt = Ok extracted_activities
    /\ w_prompts (snd (main w))
       = w_prompts w ++ [extract_prompt; json_prompt extracted_activities;
                         react_prompt; prompt]
    /\ backend (w_prompts w ++ [extract_prompt;
                                json_prompt extracted_activities;
                                react_prompt]) prompt
       = Ok schedule_report
    /\ w_stdout (snd (main w))
       = w_stdout w ++ [lit "Schedule for tomorrow:"; schedule_report].
Proof.
  rewrite main_run, extraction_pipeline_cases.
  destruct (backend (w_prompts w) extract_prompt) as [a1|e]; [|done].
  set (w1 := {| w_files := w_files w;
                w_prompts := w_prompts w ++ [extract_prompt; json_prompt a1];
                w_stdout := w_stdout w |}).
  destruct (match backend (w_prompts w ++ [extract_prompt]) (json_prompt a1)
            with Ok _ => _ | Raise _ => _ end) as [v|e]; [|done].
  destruct (save_data_to_csv_quiet v STORAGE_FILE w1) as [Hp Hs].
  destruct (save_data_to_csv v STORAGE_FILE w1) as [[[]|e] w2]; [|done].
  cbn [snd] in Hp, Hs. rewrite query_pipeline_cases, Hp, Hs.
  cbn [w_prompts w_stdout w1].
  destruct (backend _ react_prompt) as [react_response|e]; [|done].
  destruct (if str_contains _ _ then _ else _) as [prompt|e]; [|done].
  rewrite <- app_assoc. cbn [app].
  destruct (backend _ prompt) as [schedule_report|e] eqn:H4; [|done].
  destruct (stdout_write _ (lit "Schedule for tomorrow:")) as [[]|e]; [|done].
  destruct (stdout_write _ schedule_report) as [[]|e]; [|done].
  intros _. exists a1, prompt, schedule_report. cbn [snd w_prompts w_stdout].
  by rewrite <- app_assoc.
Qed.

(** The report a run prints is an answer of the backend. *)
Lemma main_report (w : world) :
  fst (main w) = Ok tt ->
  exists history prompt schedule_report,
    backend history prompt = Ok schedule_report
    /\ w_stdout (snd (main w))
       = w_stdout w ++ [lit "Schedule for tomorrow:"; schedule_report].
Proof.
  rewrite main_run, extraction_pipeline_cases.
  destruct (backend (w_prompts w) extract_prompt) as [a1|e]; [|done].
  set (w1 := {| w_files := w_files w;
                w_prompts := w_prompts w ++ [extract_prompt; json_prompt a1];
                w_stdout := w_stdout w |}).
  destruct (match backend (w_prompts w ++ [extract_prompt]) (json_prompt a1)
            with Ok _ => _ | Raise _ => _ end) as [v|e]; [|done].
  destruct (save_data_to_csv_quiet v STORAGE_FILE w1) as [_ Hs].
  destruct (save_data_to_csv v STORAGE_FILE w1) as [[[]|e] w2]; [|done].
  cbn [snd] in Hs. rewrite query_pipeline_cases, Hs.
  destruct (backend _ react_prompt) as [react_response|e]; [|done].
  destruct (if str_contains _ _ then _ else _) as [prompt|e]; [|done].
  destruct (backend _ prompt) as [schedule_report|e] eqn:H4; [|done].
  destruct (stdout_write _ (lit "Schedule for tomorrow:")) as [[]|e]; [|done].
  destruct (stdout_write _ schedule_report) as [[]|e]; [|done].
  intros _. by eexists _, prompt, schedule_report.
Qed.

(** X14. A run that ends with an exception has printed nothing, or the
    heading alone. The heading alone is out only when the print of the
    report is what raised: the report is an answer of the generator that
    the output stream refused, and the run ends with the exception of the
    stream. *)
Theorem main_prints_at_most_the_heading_when_it_fails
        (w : world) (e : exn) :
  fst (main w) = Raise e ->
  w_stdout (snd (main w)) = w_stdout w
  \/ (w_stdout (snd (main w))
      = w_stdout w ++ [lit "Schedule for tomorrow:"]
      /\ exists history prompt schedule_report,
           backend history prompt = Ok schedule_report
           /\ stdout_write (w_stdout w ++ [lit "Schedule for tomorrow:"])
                           schedule_report
              = Raise e).
Proof.
  rewrite main_run, extraction_pipeline_cases.
  destruct (backend (w_prompts w) extract_prompt) as [a1|e1]; [|by left].
  set (w1 := {| w_files := w_files w;
                w_prompts := w_prompts w ++ [extract_prompt; json_prompt a1];
                w_stdout := w_stdout w |}).
  destruct (match backend (w_prompts w ++ [extract_prompt]) (json_prompt a1)
            with Ok _ => _ | Raise _ => _ end) as [v|e1]; [|by left].
  destruct (save_data_to_csv_quiet v STORAGE_FILE w1) as [_ Hs].
  destruct (save_data_to_csv v STORAGE_FILE w1) as [[[]|e1] w2];
    [|intros _; by left].
  cbn [snd] in Hs. rewrite query_pipeline_cases, Hs. cbn [w_stdout w1].
  destruct (backend _ react_prompt) as [react_response|e1]; [|by left].
  destruct (if str_contains _ _ then _ else _) as [prompt|e1]; [|by left].
  destruct (backend _ prompt) as [schedule_report|e1] eqn:H4; [|by left].
  destruct (stdout_write _ (lit "Schedule for tomorrow:")) as [[]|e1];
    [|by left].
  destruct (stdout_write _ schedule_report) as [[]|e1] eqn:Hout; [done|].
  intros [= ->]. right. split; [done|].
  by eexists _, prompt, schedule_report.
Qed.

Lemma main_files (w : world) :
  w_files (snd (main w)) = w_files w
  \/ exists v w1,
       w_files w1 = w_files w
       /\ w_files (snd (main w))
          = w_files (snd (save_data_to_csv v STORAGE_FILE w1)).
Proof.
  rewrite main_run, extraction_pipeline_cases.
  destruct (backend (w_prompts w) extract_prompt) as [a1|e1]; [|by left].
  set (w1 := {| w_files := w_files w;
                w_prompts := w_prompts w ++ [extract_prompt; json_prompt a1];
                w_stdout := w_stdout w |}).
  destruct (match backend (w_prompts w ++ [extract_prompt]) (json_prompt a1)
            with Ok _ => _ | Raise _ => _ end) as [v|e1]; [|by left].
  right. exists v, w1. split; [done|].
  destruct (save_data_to_csv v STORAGE_FILE w1) as [[[]|e1] w2]; [|done].
  rewrite query_pipeline_cases. cbn [snd].
  destruct (backend _ react_prompt) as [react_response|e1]; [|done].
  destruct (if str_contains _ _ then _ else _) as [prompt|e1]; [|done].
  destruct (backend _ prompt) as [schedule_report|e1]; [|done].
  destruct (stdout_write _ (lit "Schedule for tomorrow:")) as [[]|e1];
    [|done].
  by destruct (stdout_write _ schedule_report) as [[]|e1].
Qed.

(** X15. Whatever the generator answers and however the run ends, the only
    file it can change is the storage file, and there it only adds: every
    other file is as before, and the text the storage file held is the
    beginning of the text it holds afterwards. *)
Theorem main_only_adds_to_the_storage_file
        (w : world) (other : list N) :
  other <> STORAGE_FILE ->
  w_files (snd (main w)) !! other = w_files w !! other
  /\ forall content,
       w_files w !! STORAGE_FILE = Some content ->
       exists added,
         w_files (snd (main w)) !! STORAGE_FILE = Some (content ++ added).
Proof.
  intros Hne.
  destruct (main_files w) as [->|(v & w1 & Hw1 & ->)].
  - split; [done|]. intros content ->. exists []. by rewrite app_nil_r.
  - split.
    + destruct (save_data_to_csv_world v STORAGE_FILE w1) as [->|[c ->]];
        [by rewrite Hw1|].
      cbn [set_files w_files]. by rewrite lookup_insert_ne, Hw1.
    + intros content Hc. apply save_data_to_csv_appends. by rewrite Hw1.
Qed.

(** X16. Only the parse is guarded. When one of the two generator calls of
    the extraction raises, whatever the exception (a JSONDecodeError
    included), the run ends with it: nothing is stored, nothing is printed
    and at most two prompts have been sent. *)
Theorem main_ends_when_an_extraction_call_fails (w : world) (e : exn) :
  (backend (w_prompts w) extract_prompt = Raise e
   \/ exists extracted_activities,
        backend (w_prompts w) extract_prompt = Ok extracted_activities
        /\ backend (w_prompts w ++ [extract_prompt])
                   (json_prompt extracted_activities) = Raise e) ->
  fst (main w) = Raise e
  /\ w_files (snd (main w)) = w_files w
  /\ w_stdout (snd (main w)) = w_stdout w
  /\ (length (w_prompts (snd (main w))) <= length (w_prompts w) + 2)%nat.
Proof.
  rewrite main_run, extraction_pipeline_cases.
  intros [H1|(a1 & H1 & H2)]; rewrite H1; [|rewrite H2];
    cbn [fst snd w_files w_stdout w_prompts];
    rewrite length_app; simpl; repeat split; lia.
Qed.

Lemma query_pipeline_files (current_memory : pyval) (w : world) :
  w_files (snd (query_pipeline current_memory w)) = w_files w.
Proof.
  rewrite query_pipeline_cases.
  destruct (backend _ react_prompt) as [react_response|e1]; [|done].
  destruct (if str_contains _ _ then _ else _) as [prompt|e1]; [|done].
  destruct (backend _ prompt) as [schedule_report|e1]; [|done].
  destruct (stdout_write _ (lit "Schedule for tomorrow:")) as [[]|e1];
    [|done].
  by destruct (stdout_write _ schedule_report) as [[]|e1].
Qed.

(** X17. A decoded value that is falsy (null, 0, false, an empty string,
    array or object) is neither stored nor refused: append returns at once
    without touching the storage, the run goes on to the query with that
    value in memory, and when the decision does not ask for an update the
    summarization prompt embeds that very value. *)
Theorem main_goes_on_with_a_falsy_value (w : world)
        (extracted_activities json_str : list N) (v : pyval) :
  backend (w_prompts w) extract_prompt = Ok extracted_activities ->
  backend (w_prompts w ++ [extract_prompt]) (json_prompt extracted_activities)
  = Ok json_str ->
  json_loads json_str = Ok v ->
  truthy v = false ->
  main w = query_pipeline v (snd (extraction_pipeline w))
  /\ w_files (snd (main w)) = w_files w
  /\ forall react_response,
       backend (w_prompts w
                ++ [extract_prompt; json_prompt extracted_activities])
               react_prompt
       = Ok react_response ->
       ~ occurs_in (lit "NEED_DATA_UPDATE") react_response ->
       w_prompts (snd (main w))
       = w_prompts w
         ++ [extract_prompt; json_prompt extracted_activities; react_prompt;
             nl ++ lit "        You have the following activities in memory:"
             ++ nl ++ lit "        " ++ json_dumps v
             ++ nl
             ++ nl ++ lit "        The user wants their schedule for tomorrow. "
             ++ nl
             ++ lit "        Summarize the activities scheduled for tomorrow in a clear, concise manner."
             ++ nl ++ lit "        If no activities are scheduled, say so."
             ++ nl ++ lit "        "].
Proof.
  intros H1 H2 Hjson Hfalsy.
  assert (Hsave : forall w1, save_data_to_csv v STORAGE_FILE w1 = (Ok tt, w1)).
  { intros w1. unfold save_data_to_csv. by rewrite Hfalsy. }
  rewrite main_run, (extraction_pipeline_run _ _ _ H1 H2), Hjson, Hsave.
  cbn [snd]. split; [done|]. split; [by rewrite query_pipeline_files|].
  intros react_response Hr Hocc.
  set (w1 := {| w_files := w_files w;
                w_prompts := w_prompts w
                             ++ [extract_prompt;
                                 json_prompt extracted_activities];
                w_stdout := w_stdout w |}).
  rewrite (query_pipeline_prompts v w1 react_response Hr).
  destruct (str_contains _ _) eqn:Hc.
  - by apply str_contains_occurs in Hc.
  - cbn [w1 w_prompts]. by rewrite <- app_assoc.
Qed.

(** X18. The run end to end. When the storage file does not exist yet and
    the structuring call returns a text that json.loads decodes to a
    storable batch, then however the rest of the run goes the storage file
    holds, afterwards, exactly that batch: load_all returns its records in
    order, each the mapping it was. If moreover the decision call answers
    with a text in which NEED_DATA_UPDATE occurs, the summarization prompt
    that is sent embeds these reloaded records. *)
Theorem main_stores_and_reloads_the_extracted_batch
        (first : list (list N * list N))
        (others : list (list (list N * list N)))
        (w : world) (extracted_activities json_str : list N) :
  w_files w !! STORAGE_FILE = None ->
  backend (w_prompts w) extract_prompt = Ok extracted_activities ->
  backend (w_prompts w ++ [extract_prompt]) (json_prompt extracted_activities)
  = Ok json_str ->
  json_loads json_str = Ok (of_batch (first :: others)) ->
  map fst first <> [] ->
  Forall (storable (map fst first)) (first :: others) ->
  exists loaded,
    rows_match (map fst first) (first :: others) loaded
    /\ load_data_from_csv STORAGE_FILE (snd (main w))
       = (Ok (of_batch loaded), snd (main w))
    /\ forall react_response,
         backend (w_prompts w
                  ++ [extract_prompt; json_prompt extracted_activities])
                 react_prompt
         = Ok react_response ->
         occurs_in (lit "NEED_DATA_UPDATE") react_response ->
         w_prompts (snd (main w))
         = w_prompts w
           ++ [extract_prompt; json_prompt extracted_activities; react_prompt;
               nl ++ lit "        You have the following stored activities:"
               ++ nl ++ lit "        " ++ json_dumps (of_batch loaded)
               ++ nl
               ++ nl ++ lit "        The user wants their schedule for tomorrow. "
               ++ nl
               ++ lit "        Summarize the activities scheduled for tomorrow in a clear, concise manner."
               ++ nl ++ lit "        If no activities are scheduled, say so."
               ++ nl ++ lit "        "].
Proof.
  intros Hfresh H1 H2 Hjson Hne Hb.
  set (names := map fst first) in *.
  assert (Hfirst : storable names first) by by apply Forall_cons in Hb as [? _].
  assert (Hnd : NoDup names) by apply Hfirst.
  assert (Hhead := storable_header_cells names first Hfirst).
  set (w1 := {| w_files := w_files w;
                w_prompts := w_prompts w
                             ++ [extract_prompt;
                                 json_prompt extracted_activities];
                w_stdout := w_stdout w |}).
  assert (Hsave := save_storable names first others STORAGE_FILE w1
                                 eq_refl Hb).
  change (w_files w1) with (w_files w) in Hsave. rewrite Hfresh in Hsave.
  set (w2 := set_files w1 _) in Hsave.
  assert (Hload : forall w', w_files w' = w_files w2 ->
            load_data_from_csv STORAGE_FILE w'
            = (Ok (of_batch (map (as_loaded names) (first :: others))), w')).
  { intros w' Hw'. apply load_storable_table; try done.
    rewrite Hw'. apply lookup_insert_eq. }
  assert (Hmain : main w = query_pipeline (of_batch (first :: others)) w2).
  { rewrite main_run, (extraction_pipeline_run _ _ _ H1 H2), Hjson.
    fold w1. by rewrite Hsave. }
  exists (map (as_loaded names) (first :: others)).
  split; [by apply rows_match_as_loaded|]. rewrite Hmain.
  split; [apply Hload, query_pipeline_files|].
  intros react_response Hr Hocc.
  rewrite (query_pipeline_prompts (of_batch (first :: others)) w2
             react_response Hr).
  apply str_contains_occurs in Hocc. rewrite Hocc, Hload by done.
  cbn [fst w2 set_files w_prompts w1]. by rewrite <- app_assoc.
Qed.

End Program.

(** ** Properties of the backends *)

Lemma lstrip_head (s : list N) (c : N) :
  head (lstrip s) = Some c -> is_space c = false.
Proof.
  induction s as [|c0 s IH]; [done|]. simpl.
  destruct (is_space c0) eqn:Hc0; [done|]. by intros [= <-].
Qed.

Lemma rstrip_head (s : list N) (c : N) :
  head (rstrip s) = Some c -> head s = Some c.
Proof.
  destruct s as [|c0 s]; [done|]. simpl.
  destruct (rstrip s); [|done]. by destruct (is_space c0).
Qed.

Lemma rstrip_last (s : list N) (c : N) :
  last (rstrip s) = Some c -> is_space c = false.
Proof.
  induction s as [|c0 s IH]; [done|]. simpl.
  destruct (rstrip s) as [|k kept].
  - destruct (is_space c0) eqn:Hc0; [done|]. by intros [= <-].
  - exact IH.
Qed.

Lemma str_strip_stripped (s : list N) : stripped (str_strip s).
Proof.
  split; intros c Hc.
  - apply rstrip_head in Hc. by apply lstrip_head in Hc.
  - by apply rstrip_last in Hc.
Qed.

(** *** UTF-8 there and back *)

Lemma to_N_byte_of (n : N) : n < 256 -> Byte.to_N (byte_of n) = n.
Proof.
  intros Hn. unfold byte_of.
  destruct (Byte.of_N n) as [b|] eqn:Hb.
  - by apply Byte.to_of_N.
  - apply Byte.of_N_None_iff in Hb. lia.
Qed.

Lemma continuation_byte_of (x lo hi : N) :
  x < 64 -> lo <= 128 + x -> 128 + x <= hi ->
  continuation (byte_of (128 + x)) lo hi = Some x.
Proof.
  intros Hx Hlo Hhi. unfold continuation.
  rewrite to_N_byte_of by lia.
  rewrite (proj2 (N.leb_le _ _) Hlo), (proj2 (N.leb_le _ _) Hhi). simpl.
  f_equal. lia.
Qed.

(** Arithmetic with quotients and remainders by constants. *)
Ltac euclid := zify; Z.to_euclidean_division_equations; lia.

Lemma bytes_decode_1 (n : N) (rest : list Byte.byte) :
  n < 128 ->
  bytes_decode (byte_of n :: rest) = cons n <$> bytes_decode rest.
Proof.
  intros Hn. simpl. rewrite to_N_byte_of by lia.
  by rewrite (proj2 (N.ltb_lt _ _) Hn).
Qed.

Lemma bytes_decode_2 (n0 : N) (b1 : Byte.byte) (rest : list Byte.byte) :
  194 <= n0 -> n0 < 224 ->
  bytes_decode (byte_of n0 :: b1 :: rest)
  = x1 ← continuation b1 128 191;
    cons ((n0 - 192) * 64 + x1) <$> bytes_decode rest.
Proof.
  intros Hlo Hhi. simpl. rewrite to_N_byte_of by lia.
  rewrite (proj2 (N.ltb_ge n0 128)) by lia.
  rewrite (proj2 (N.ltb_ge n0 194)) by lia.
  by rewrite (proj2 (N.ltb_lt n0 224)) by lia.
Qed.

Lemma bytes_decode_3 (n0 : N) (b1 b2 : Byte.byte) (rest : list Byte.byte) :
  224 <= n0 -> n0 < 240 ->
  bytes_decode (byte_of n0 :: b1 :: b2 :: rest)
  = x1 ← continuation b1 (if n0 =? 224 then 160 else 128)
                         (if n0 =? 237 then 159 else 191);
    x2 ← continuation b2 128 191;
    cons ((n0 - 224) * 4096 + x1 * 64 + x2) <$> bytes_decode rest.
Proof.
  intros Hlo Hhi. simpl. rewrite to_N_byte_of by lia.
  rewrite (proj2 (N.ltb_ge n0 128)) by lia.
  rewrite (proj2 (N.ltb_ge n0 194)) by lia.
  rewrite (proj2 (N.ltb_ge n0 224)) by lia.
  by rewrite (proj2 (N.ltb_lt n0 240)) by lia.
Qed.

Lemma bytes_decode_4 (n0 : N) (b1 b2 b3 : Byte.byte)
      (rest : list Byte.byte) :
  240 <= n0 -> n0 < 245 ->
  bytes_decode (byte_of n0 :: b1 :: b2 :: b3 :: rest)
  = x1 ← continuation b1 (if n0 =? 240 then 144 else 128)
                         (if n0 =? 244 then 143 else 191);
    x2 ← continuation b2 128 191;
    x3 ← continuation b3 128 191;
    cons ((n0 - 240) * 262144 + x1 * 4096 + x2 * 64 + x3)
      <$> bytes_decode rest.
Proof.
  intros Hlo Hhi. simpl. rewrite to_N_byte_of by lia.
  rewrite (proj2 (N.ltb_ge n0 128)) by lia.
  rewrite (proj2 (N.ltb_ge n0 194)) by lia.
  rewrite (proj2 (N.ltb_ge n0 224)) by lia.
  rewrite (proj2 (N.ltb_ge n0 240)) by lia.
  by rewrite (proj2 (N.ltb_lt n0 245)) by lia.
Qed.

Lemma bytes_decode_encode_char (c : N) (rest : list Byte.byte) :
  utf8_encodable c = true ->
  bytes_decode (utf8_encode_char c ++ rest) = cons c <$> bytes_decode rest.
Proof.
  intros Hc. unfold utf8_encodable in Hc.
  assert (Hrange : c < 55296 \/ (57343 < c /\ c < 1114112)).
  { apply orb_true_iff in Hc as [Hc|Hc]; [left; by apply N.ltb_lt|].
    apply andb_true_iff in Hc as [H1 H2].
    right. split; by apply N.ltb_lt. }
  clear Hc. unfold utf8_encode_char.
  destruct (N.ltb_spec c 128) as [H1|H1];
    [by apply bytes_decode_1|].
  destruct (N.ltb_spec c 2048) as [H2|H2].
  { cbn [app]. rewrite bytes_decode_2 by euclid.
    rewrite continuation_byte_of by euclid. cbn [mbind option_bind].
    do 2 f_equal. euclid. }
  destruct (N.ltb_spec c 65536) as [H3|H3].
  { cbn [app]. rewrite bytes_decode_3 by euclid.
    rewrite (continuation_byte_of ((c / 64) mod 64)).
    - rewrite (continuation_byte_of (c mod 64)) by euclid.
      cbn [mbind option_bind]. do 2 f_equal. euclid.
    - euclid.
    - destruct (N.eqb_spec (224 + c / 4096) 224); euclid.
    - destruct (N.eqb_spec (224 + c / 4096) 237); euclid. }
  cbn [app]. rewrite bytes_decode_4 by euclid.
  rewrite (continuation_byte_of ((c / 4096) mod 64)).
  - rewrite (continuation_byte_of ((c / 64) mod 64)) by euclid.
    rewrite (continuation_byte_of (c mod 64)) by euclid.
    cbn [mbind option_bind]. do 2 f_equal. euclid.
  - euclid.
  - destruct (N.eqb_spec (240 + c / 262144) 240); euclid.
  - destruct (N.eqb_spec (240 + c / 262144) 244); euclid.
Qed.

Lemma bytes_decode_encode (s : list N) :
  forallb utf8_encodable s = true ->
  bytes_decode (flat_map utf8_encode_char s) = Some s.
Proof.
  induction s as [|c s IH]; [done|]. simpl. intros H.
  apply andb_true_iff in H as [Hc Hs].
  by rewrite bytes_decode_encode_char, IH.
Qed.

(** *** The answers of the backends *)

Section BackendProperties.

Variable Llama : Type.
Variable Llama_load : list N -> Z -> result Llama.
Variable Llama_call :
  Llama -> list N -> list (list N) -> bool -> result pyval.
Variable subprocess_run :
  list (list N) -> list Byte.byte -> result CompletedProcess.

Lemma query_llm_with_llama_cpp_stripped (prompt model_path text : list N) :
  query_llm_with_llama_cpp Llama Llama_load Llama_call prompt model_path
  = Ok text ->
  stripped text.
Proof.
  unfold query_llm_with_llama_cpp.
  destruct (Llama_load model_path 2048) as [llm|e]; [|done]. cbn [rbind].
  destruct (Llama_call llm prompt _ false) as [response|e]; [|done].
  cbn [rbind].
  destruct (getitem response _) as [choices|e]; [|done]. cbn [rbind].
  destruct (getitem0 choices) as [choice|e]; [|done]. cbn [rbind].
  destruct (getitem choice _) as [v|e]; [|done]. cbn [rbind].
  destruct v; try done. intros [= <-]. apply str_strip_stripped.
Qed.

(** X19. Whatever the model or the service returns, an answer that either
    backend gives has no whitespace at its beginning or its end. *)
Theorem backends_return_stripped_text :
  (forall prompt model_path text,
     query_llm_with_llama_cpp Llama Llama_load Llama_call prompt model_path
     = Ok text ->
     stripped text)
  /\ (forall prompt model_name text,
        query_llm_with_ollama subprocess_run prompt model_name = Answer text ->
        stripped text).
Proof.
  split.
  - apply query_llm_with_llama_cpp_stripped.
  - intros prompt model_name text. unfold query_llm_with_ollama.
    destruct (str_encode prompt) as [input|e]; [|done].
    destruct (subprocess_run _ input) as [completed|e]; [|done].
    destruct (bytes_decode (stdout completed)) as [t|]; [|done].
    intros [= <-]. apply str_strip_stripped.
Qed.

(** X20. The service is given the UTF-8 bytes of the prompt on its
    standard input, as [ollama run] of the model, and its answer is what it
    printed: when it prints the UTF-8 bytes of a text, the backend returns
    that text stripped, whatever the exit status of the service. *)
Theorem ollama_returns_what_the_service_printed
        (prompt model_name text : list N) (status : Z) :
  forallb utf8_encodable prompt = true ->
  forallb utf8_encodable text = true ->
  subprocess_run [lit "ollama"; lit "run"; model_name]
                 (flat_map utf8_encode_char prompt)
  = Ok {| returncode := status; stdout := flat_map utf8_encode_char text |} ->
  query_llm_with_ollama subprocess_run prompt model_name
  = Answer (str_strip text).
Proof.
  intros Hprompt Htext Hrun. unfold query_llm_with_ollama, str_encode.
  rewrite Hprompt, Hrun. cbn [stdout].
  by rewrite bytes_decode_encode.
Qed.

End BackendProperties.

(** X21. With the backend that [main] is set to use, the report a run
    prints has no whitespace at its beginning or its end: a run that ends
    normally has printed the heading and a stripped text. *)
Theorem main_prints_a_stripped_report
        (builtin_str : pyval -> list N)
        (json_loads : list N -> result pyval)
        (json_dumps : pyval -> list N)
        (Llama : Type)
        (Llama_load : list (list N) -> list N -> Z -> result Llama)
        (Llama_call : list (list N) -> Llama -> list N -> list (list N)
                      -> bool -> result pyval)
        (stdout_write : list (list N) -> list N -> result unit)
        (w : world) :
  fst (main builtin_str json_loads json_dumps
            (chosen_backend Llama Llama_load Llama_call)
            stdout_write w) = Ok tt ->
  exists schedule_report,
    w_stdout (snd (main builtin_str json_loads json_dumps
                        (chosen_backend Llama Llama_load Llama_call)
                        stdout_write w))
    = w_stdout w ++ [lit "Schedule for tomorrow:"; schedule_report]
    /\ stripped schedule_report.
Proof.
  intros Hok.
  destruct (main_report _ _ _ _ _ _ Hok)
    as (history & prompt & report & Hreport & Hout).
  exists report. split; [done|].
  unfold chosen_backend in Hreport.
  by apply query_llm_with_llama_cpp_stripped in Hreport.
Qed.

(** ** Worked examples

    Each theorem above that has hypotheses is applied here to data of
    [Sample] and [Scenario], with the stand-ins of [Stub] for the library
    code. *)

(** A decidable fact, checked by evaluation. *)
Ltac by_decision := refine (bool_decide_unpack _ _); vm_compute; exact I.

(** A closed fact about sample text. *)
Ltac by_evaluation :=
  first [ vm_compute; reflexivity
        | by_decision
        | vm_compute; discriminate ].

Ltac show_clean := unfold clean; repeat split; by_evaluation.

Ltac show_storable :=
  unfold storable;
  split; [by_decision|];
  split; [intros name; cbn [map fst Sample.meeting Sample.follow_up];
          rewrite !elem_of_cons, !elem_of_nil; tauto|];
  repeat first [ apply Forall_nil_2 | apply Forall_cons_2 ];
  show_clean.

Lemma sample_batch_storable :
  Forall (storable (map fst Sample.meeting))
         [Sample.meeting; Sample.follow_up].
Proof.
  repeat first [ apply Forall_nil_2 | apply Forall_cons_2 ];
    show_storable.
Qed.

Lemma append_then_load_all_roundtrip_witness :
  w_files Sample.empty_world !! Sample.path = None
  /\ map fst Sample.meeting <> []
  /\ Forall (storable (map fst Sample.meeting))
            [Sample.meeting; Sample.follow_up]
  /\ fst (save_data_to_csv Stub.str_of
            (of_batch [Sample.meeting; Sample.follow_up])
            Sample.path Sample.empty_world) = Ok tt
  /\ exists loaded,
       fst (load_data_from_csv Sample.path
              (snd (save_data_to_csv Stub.str_of
                      (of_batch [Sample.meeting; Sample.follow_up])
                      Sample.path Sample.empty_world)))
       = Ok (of_batch loaded)
       /\ rows_match (map fst Sample.meeting)
                     [Sample.meeting; Sample.follow_up] loaded.
Proof.
  split; [reflexivity|].
  split; [discriminate|].
  split; [exact sample_batch_storable|].
  apply (append_then_load_all_roundtrip Stub.str_of Sample.meeting
           [Sample.follow_up] Sample.path Sample.empty_world).
  - reflexivity.
  - discriminate.
  - exact sample_batch_storable.
Defined.

Lemma stored_table_is_append_only_witness :
  w_files Sample.stocked_world !! Sample.path = Some Sample.table_text
  /\ ends_at_row_boundary Sample.table_text
  /\ Reader_rows parse_reset
       (splitlines (translate_newlines Sample.table_text))
     = Ok (map fst Sample.meeting
           :: [[lit "2024-05-01"; lit "Standup"; lit "daily"]])
  /\ map fst Sample.meeting <> []
  /\ Forall (storable (map fst Sample.meeting))
            [Sample.meeting; Sample.follow_up]
  /\ (forall data, exists added,
        w_files (snd (save_data_to_csv Stub.str_of data Sample.path
                                       Sample.stocked_world)) !! Sample.path
        = Some (Sample.table_text ++ added))
  /\ snd (load_data_from_csv Sample.path Sample.stocked_world)
     = Sample.stocked_world
  /\ fst (save_data_to_csv Stub.str_of
            (of_batch [Sample.meeting; Sample.follow_up])
            Sample.path Sample.stocked_world) = Ok tt
  /\ exists old loaded,
       fst (load_data_from_csv Sample.path Sample.stocked_world)
       = Ok (PyList old)
       /\ fst (load_data_from_csv Sample.path
                 (snd (save_data_to_csv Stub.str_of
                         (of_batch [Sample.meeting; Sample.follow_up])
                         Sample.path Sample.stocked_world)))
          = Ok (PyList (old ++ map (fun record => PyDict (of_record record))
                                   loaded))
       /\ rows_match (map fst Sample.meeting)
                     [Sample.meeting; Sample.follow_up] loaded.
Proof.
  assert (Hfile : w_files Sample.stocked_world !! Sample.path
                  = Some Sample.table_text) by (vm_compute; reflexivity).
  assert (Hend : ends_at_row_boundary Sample.table_text).
  { split; [exists LF; split; reflexivity|vm_compute; reflexivity]. }
  assert (Hrows : Reader_rows parse_reset
                    (splitlines (translate_newlines Sample.table_text))
                  = Ok (map fst Sample.meeting
                        :: [[lit "2024-05-01"; lit "Standup"; lit "daily"]]))
    by (vm_compute; reflexivity).
  assert (Hne : map fst Sample.meeting <> []) by discriminate.
  destruct (stored_table_is_append_only Stub.str_of Sample.meeting
              [Sample.follow_up] Sample.path Sample.stocked_world
              Sample.table_text Hfile) as (Hgrow & Hread & Hload).
  repeat (split; [assumption || exact sample_batch_storable|]).
  exact (Hload _ Hend Hrows Hne sample_batch_storable).
Defined.

Ltac show_writable :=
  unfold writable;
  split; [intros k; cbn [map fst Sample.full Sample.partial Sample.extra];
          rewrite !elem_of_cons, !elem_of_nil; tauto
         |by_decision].

Lemma sample_names_encodable :
  encodable_names Stub.str_of (map fst Sample.full).
Proof. unfold encodable_names. by_decision. Qed.

Lemma sample_full_writable :
  Forall (writable Stub.str_of (map fst Sample.full)) [Sample.full].
Proof.
  repeat first [ apply Forall_nil_2 | apply Forall_cons_2 ]; show_writable.
Qed.

Lemma sample_rows_writable :
  Forall (writable Stub.str_of (map fst Sample.full))
         [Sample.full; Sample.partial].
Proof.
  repeat first [ apply Forall_nil_2 | apply Forall_cons_2 ]; show_writable.
Qed.

Lemma append_writes_header_once_witness :
  encodable_names Stub.str_of (map fst Sample.full)
  /\ Forall (writable Stub.str_of (map fst Sample.full))
            [Sample.full; Sample.partial]
  /\ (fst (save_data_to_csv Stub.str_of
             (PyList (map PyDict [Sample.full; Sample.partial]))
             Sample.path Sample.empty_world) = Ok tt
      /\ w_files (snd (save_data_to_csv Stub.str_of
                         (PyList (map PyDict [Sample.full; Sample.partial]))
                         Sample.path Sample.empty_world)) !! Sample.path
         = Some (lit "a,b" ++ Sample.crlf ++ lit "1,2" ++ Sample.crlf
                 ++ lit ",5" ++ Sample.crlf))
  /\ (fst (save_data_to_csv Stub.str_of
             (PyList (map PyDict [Sample.full; Sample.partial]))
             Sample.path Sample.ab_world) = Ok tt
      /\ w_files (snd (save_data_to_csv Stub.str_of
                         (PyList (map PyDict [Sample.full; Sample.partial]))
                         Sample.path Sample.ab_world)) !! Sample.path
         = Some (Sample.ab_table ++ lit "1,2" ++ Sample.crlf
                 ++ lit ",5" ++ Sample.crlf)).
Proof.
  split; [exact sample_names_encodable|].
  split; [exact sample_rows_writable|].
  split.
  - exact (append_writes_header_once Stub.str_of Sample.full [Sample.partial]
             Sample.path Sample.empty_world
             sample_names_encodable sample_rows_writable).
  - exact (append_writes_header_once Stub.str_of Sample.full [Sample.partial]
             Sample.path Sample.ab_world
             sample_names_encodable sample_rows_writable).
Defined.

Lemma sample_extra_key :
  exists k, k ∈ map fst Sample.extra /\ k ∉ map fst Sample.full.
Proof. exists (Some (lit "c")). split; by_decision. Qed.

Lemma append_field_names_from_first_record_witness :
  (exists k, k ∈ map fst Sample.extra /\ k ∉ map fst Sample.full)
  /\ encodable_names Stub.str_of (map fst Sample.full)
  /\ Forall (writable Stub.str_of (map fst Sample.full)) [Sample.full]
  /\ (exists e,
        fst (save_data_to_csv Stub.str_of
               (PyList (map PyDict [Sample.full; Sample.extra; Sample.partial]))
               Sample.path Sample.empty_world) = Raise e)
  /\ save_data_to_csv Stub.str_of
       (PyList (map PyDict [Sample.full; Sample.extra; Sample.partial]))
       Sample.path Sample.empty_world
     = (Raise ValueError,
        World {[ Sample.path := lit "a,b" ++ Sample.crlf
                                ++ lit "1,2" ++ Sample.crlf ]} [] [])
  /\ Forall (writable Stub.str_of (map fst Sample.full))
            [Sample.full; Sample.partial]
  /\ save_data_to_csv Stub.str_of
       (PyList (map PyDict [Sample.full; Sample.partial]))
       Sample.path Sample.empty_world
     = (Ok tt,
        World {[ Sample.path := lit "a,b" ++ Sample.crlf
                                ++ lit "1,2" ++ Sample.crlf
                                ++ lit ",5" ++ Sample.crlf ]} [] [])
  /\ row_cells (map fst Sample.full) Sample.partial !! 0%nat
     = Some (PyStr []).
Proof.
  split; [exact sample_extra_key|].
  split; [exact sample_names_encodable|].
  split; [exact sample_full_writable|].
  destruct (proj1 (append_field_names_from_first_record Stub.str_of
                     Sample.full [] Sample.extra [Sample.partial]
                     Sample.path Sample.empty_world)
                  sample_extra_key) as [Hraises Hvalue].
  split; [exact Hraises|].
  split; [exact (Hvalue sample_names_encodable sample_full_writable)|].
  split; [exact sample_rows_writable|].
  destruct (proj2 (append_field_names_from_first_record Stub.str_of
                     Sample.full [] Sample.partial []
                     Sample.path Sample.empty_world)
                  sample_names_encodable sample_rows_writable)
    as [Hsave Hcell].
  split; [exact Hsave|].
  apply (Hcell 0%nat (Some (lit "a"))); [reflexivity|by_decision].
Defined.

Lemma load_all_of_missing_destination_witness :
  w_files Sample.empty_world !! Sample.path = None
  /\ load_data_from_csv Sample.path Sample.empty_world
     = (Ok (PyList []), Sample.empty_world).
Proof.
  split; [reflexivity|].
  apply (load_all_of_missing_destination Sample.path Sample.empty_world).
  reflexivity.
Defined.


Lemma extraction_keeps_decoded_value_witness :
  Stub.scripted [Sample.activities_text; lit "5"]
                (w_prompts Sample.empty_world) extract_prompt
  = Ok Sample.activities_text
  /\ Stub.scripted [Sample.activities_text; lit "5"]
                   (w_prompts Sample.empty_world ++ [extract_prompt])
                   (json_prompt Sample.activities_text)
     = Ok (lit "5")
  /\ Stub.loads (lit "5") = Ok (PyInt 5)
  /\ truthy (PyInt 5) = true
  /\ (forall l, PyInt 5 <> PyList l)
  /\ fst (extraction_pipeline Stub.loads
            (Stub.scripted [Sample.activities_text; lit "5"])
            Sample.empty_world) = Ok (PyInt 5)
  /\ exists e,
       save_data_to_csv Stub.str_of (PyInt 5) STORAGE_FILE
         (snd (extraction_pipeline Stub.loads
                 (Stub.scripted [Sample.activities_text; lit "5"])
                 Sample.empty_world))
       = (Raise e,
          snd (extraction_pipeline Stub.loads
                 (Stub.scripted [Sample.activities_text; lit "5"])
                 Sample.empty_world))
       /\ main Stub.str_of Stub.loads Stub.dumps
               (Stub.scripted [Sample.activities_text; lit "5"])
               Stub.utf8_stdout
               Sample.empty_world
          = (Raise e,
             snd (extraction_pipeline Stub.loads
                    (Stub.scripted [Sample.activities_text; lit "5"])
                    Sample.empty_world))
       /\ w_files (snd (main Stub.str_of Stub.loads Stub.dumps
                          (Stub.scripted [Sample.activities_text; lit "5"])
                          Stub.utf8_stdout
                          Sample.empty_world))
          = w_files Sample.empty_world
       /\ w_stdout (snd (main Stub.str_of Stub.loads Stub.dumps
                           (Stub.scripted [Sample.activities_text; lit "5"])
                           Stub.utf8_stdout
                           Sample.empty_world))
          = w_stdout Sample.empty_world.
Proof.
  split; [reflexivity|].
  split; [reflexivity|].
  split; [vm_compute; reflexivity|].
  split; [reflexivity|].
  split; [intros l; discriminate|].
  destruct (extraction_keeps_decoded_value Stub.str_of Stub.loads Stub.dumps
              (Stub.scripted [Sample.activities_text; lit "5"])
              Stub.utf8_stdout
              Sample.empty_world Sample.activities_text (lit "5") (PyInt 5))
    as [Hkept Hfatal].
  - reflexivity.
  - reflexivity.
  - vm_compute; reflexivity.
  - split; [exact Hkept|].
    apply Hfatal; [reflexivity|intros l; discriminate].
Defined.




(** *** Appends, loads, runs and backends *)

Lemma append_touches_only_its_destination_witness :
  Scenario.copy_path <> Sample.path
  /\ w_files (snd (save_data_to_csv Stub.str_of
                     (of_batch [Sample.meeting]) Sample.path
                     Scenario.touched_world)) !! Scenario.copy_path
     = w_files Scenario.touched_world !! Scenario.copy_path
  /\ w_prompts (snd (save_data_to_csv Stub.str_of
                       (of_batch [Sample.meeting]) Sample.path
                       Scenario.touched_world))
     = w_prompts Scenario.touched_world
  /\ w_stdout (snd (save_data_to_csv Stub.str_of
                      (of_batch [Sample.meeting]) Sample.path
                      Scenario.touched_world))
     = w_stdout Scenario.touched_world.
Proof.
  split; [by_evaluation|].
  apply (append_touches_only_its_destination Stub.str_of
           (of_batch [Sample.meeting]) Sample.path Scenario.copy_path
           Scenario.touched_world).
  by_evaluation.
Defined.

Lemma append_failing_on_header_leaves_empty_file_witness :
  w_files Sample.empty_world !! Sample.path = None
  /\ Some [55296] ∈ map fst Scenario.surrogate_name
  /\ forallb utf8_encodable [55296] = false
  /\ save_data_to_csv Stub.str_of
       (PyList [PyDict Scenario.surrogate_name]) Sample.path
       Sample.empty_world
     = (Raise UnicodeEncodeError,
        set_files Sample.empty_world
                  (<[Sample.path := []]> (w_files Sample.empty_world))).
Proof.
  split; [reflexivity|].
  split; [by_decision|].
  split; [reflexivity|].
  apply (append_failing_on_header_leaves_empty_file Stub.str_of
           Scenario.surrogate_name [] [55296] Sample.path
           Sample.empty_world).
  - reflexivity.
  - by_decision.
  - reflexivity.
Defined.

Lemma append_to_empty_file_writes_no_header_witness :
  w_files Scenario.touched_world !! Sample.path = Some []
  /\ map fst Sample.meeting <> []
  /\ Forall (storable (map fst Sample.meeting))
            [Sample.meeting; Sample.follow_up]
  /\ fst (save_data_to_csv Stub.str_of
            (of_batch [Sample.meeting; Sample.follow_up]) Sample.path
            Scenario.touched_world) = Ok tt
  /\ fst (load_data_from_csv Sample.path
            (snd (save_data_to_csv Stub.str_of
                    (of_batch [Sample.meeting; Sample.follow_up])
                    Sample.path Scenario.touched_world)))
     = Ok (PyList
             (map (fun record =>
                     PyDict (DictReader_row (map snd Sample.meeting)
                               (map (record_value Stub.str_of record)
                                    (map fst Sample.meeting))))
                  [Sample.follow_up])).
Proof.
  split; [by_evaluation|].
  split; [discriminate|].
  split; [exact sample_batch_storable|].
  apply (append_to_empty_file_writes_no_header Stub.str_of Sample.meeting
           [Sample.follow_up] Sample.path Scenario.touched_world).
  - by_evaluation.
  - discriminate.
  - exact sample_batch_storable.
Defined.

Lemma sample_batches_storable :
  Forall (storable (map fst Sample.meeting))
         ([Sample.meeting] ++ [Sample.meeting; Sample.follow_up]).
Proof.
  repeat first [ apply Forall_nil_2 | apply Forall_cons_2 ];
    show_storable.
Qed.

Lemma two_appends_then_load_all_witness :
  w_files Sample.empty_world !! Sample.path = None
  /\ map fst Sample.meeting <> []
  /\ map fst Sample.meeting = map fst Sample.meeting
  /\ Forall (storable (map fst Sample.meeting))
            ([Sample.meeting] ++ [Sample.meeting; Sample.follow_up])
  /\ fst (save_data_to_csv Stub.str_of (of_batch [Sample.meeting])
                           Sample.path Sample.empty_world) = Ok tt
  /\ fst (save_data_to_csv Stub.str_of
            (of_batch [Sample.meeting; Sample.follow_up]) Sample.path
            (snd (save_data_to_csv Stub.str_of (of_batch [Sample.meeting])
                                   Sample.path Sample.empty_world)))
     = Ok tt
  /\ exists loaded,
       fst (load_data_from_csv Sample.path
              (snd (save_data_to_csv Stub.str_of
                      (of_batch [Sample.meeting; Sample.follow_up])
                      Sample.path
                      (snd (save_data_to_csv Stub.str_of
                              (of_batch [Sample.meeting])
                              Sample.path Sample.empty_world)))))
       = Ok (of_batch loaded)
       /\ rows_match (map fst Sample.meeting)
                     ([Sample.meeting] ++ [Sample.meeting; Sample.follow_up])
                     loaded.
Proof.
  split; [reflexivity|].
  split; [discriminate|].
  split; [reflexivity|].
  split; [exact sample_batches_storable|].
  apply (two_appends_then_load_all Stub.str_of Sample.meeting Sample.meeting
           [] [Sample.follow_up] Sample.path Sample.empty_world).
  - reflexivity.
  - discriminate.
  - reflexivity.
  - exact sample_batches_storable.
Defined.

Lemma loaded_table_can_be_copied_witness :
  w_files Sample.empty_world !! Sample.path = None
  /\ w_files Sample.empty_world !! Scenario.copy_path = None
  /\ Scenario.copy_path <> Sample.path
  /\ map fst Sample.meeting <> []
  /\ Forall (storable (map fst Sample.meeting))
            [Sample.meeting; Sample.follow_up]
  /\ exists w1 loaded w2,
       save_data_to_csv Stub.str_of
         (of_batch [Sample.meeting; Sample.follow_up]) Sample.path
         Sample.empty_world
       = (Ok tt, w1)
       /\ load_data_from_csv Sample.path w1 = (Ok loaded, w1)
       /\ save_data_to_csv Stub.str_of loaded Scenario.copy_path w1
          = (Ok tt, w2)
       /\ load_data_from_csv Scenario.copy_path w2 = (Ok loaded, w2)
       /\ load_data_from_csv Sample.path w2 = (Ok loaded, w2).
Proof.
  split; [reflexivity|].
  split; [reflexivity|].
  split; [by_evaluation|].
  split; [discriminate|].
  split; [exact sample_batch_storable|].
  apply (loaded_table_can_be_copied Stub.str_of Sample.meeting
           [Sample.follow_up] Sample.path Scenario.copy_path
           Sample.empty_world).
  - reflexivity.
  - reflexivity.
  - by_evaluation.
  - discriminate.
  - exact sample_batch_storable.
Defined.

Lemma sample_flags_clean : Forall clean Scenario.flags.
Proof. repeat first [ apply Forall_nil_2 | apply Forall_cons_2 ]; show_clean. Qed.

Lemma sample_flagged_cells :
  Forall (fun d =>
            (forall k, k ∈ map fst d -> k ∈ map Some Scenario.flags)
            /\ Forall (fun v => clean (cell_text Stub.str_of v))
                      (row_cells (map Some Scenario.flags) d))
         [Scenario.flagged; Scenario.unflagged].
Proof.
  repeat first [ apply Forall_nil_2 | apply Forall_cons_2 ];
    (split; [intros k;
             cbn [map fst Scenario.flagged Scenario.unflagged Scenario.flags];
             rewrite !elem_of_cons, !elem_of_nil; tauto|]);
    repeat first [ apply Forall_nil_2 | apply Forall_cons_2 ]; show_clean.
Qed.

Lemma append_then_load_all_returns_cell_texts_witness :
  w_files Sample.empty_world !! Sample.path = None
  /\ map fst Scenario.flagged = map Some Scenario.flags
  /\ Scenario.flags <> []
  /\ NoDup Scenario.flags
  /\ Forall clean Scenario.flags
  /\ Forall (fun d =>
               (forall k, k ∈ map fst d -> k ∈ map Some Scenario.flags)
               /\ Forall (fun v => clean (cell_text Stub.str_of v))
                         (row_cells (map Some Scenario.flags) d))
            [Scenario.flagged; Scenario.unflagged]
  /\ fst (save_data_to_csv Stub.str_of
            (PyList (map PyDict [Scenario.flagged; Scenario.unflagged]))
            Sample.path Sample.empty_world) = Ok tt
  /\ fst (load_data_from_csv Sample.path
            (snd (save_data_to_csv Stub.str_of
                    (PyList (map PyDict
                                 [Scenario.flagged; Scenario.unflagged]))
                    Sample.path Sample.empty_world)))
     = Ok (PyList
             (map (fun d =>
                     PyDict (of_record
                               (zip Scenario.flags
                                    (map (cell_text Stub.str_of)
                                         (row_cells (map Some Scenario.flags)
                                                    d)))))
                  [Scenario.flagged; Scenario.unflagged])).
Proof.
  split; [reflexivity|].
  split; [reflexivity|].
  split; [discriminate|].
  split; [by_decision|].
  split; [exact sample_flags_clean|].
  split; [exact sample_flagged_cells|].
  apply (append_then_load_all_returns_cell_texts Stub.str_of Scenario.flags
           Scenario.flagged [Scenario.unflagged] Sample.path
           Sample.empty_world).
  - reflexivity.
  - reflexivity.
  - discriminate.
  - by_decision.
  - exact sample_flags_clean.
  - exact sample_flagged_cells.
Defined.

Lemma load_all_accepts_every_short_text_witness :
  w_files Sample.stocked_world !! Sample.path = Some Sample.table_text
  /\ N.of_nat (length Sample.table_text) <= field_limit
  /\ exists rows,
       load_data_from_csv Sample.path Sample.stocked_world
       = (Ok (PyList rows), Sample.stocked_world).
Proof.
  split; [by_evaluation|].
  split; [by_decision|].
  apply (load_all_accepts_every_short_text Sample.path Sample.stocked_world
           Sample.table_text).
  - by_evaluation.
  - by_decision.
Defined.

Lemma load_all_returns_fewer_rows_than_lines_witness :
  w_files Sample.stocked_world !! Sample.path = Some Sample.table_text
  /\ fst (load_data_from_csv Sample.path Sample.stocked_world)
     = Ok (PyList [PyDict [(Some (lit "date"), PyStr (lit "2024-05-01"));
                           (Some (lit "title"), PyStr (lit "Standup"));
                           (Some (lit "detail"), PyStr (lit "daily"))]])
  /\ (1 <= pred (length (splitlines
                           (translate_newlines Sample.table_text))))%nat.
Proof.
  split; [by_evaluation|].
  split; [by_evaluation|].
  apply (load_all_returns_fewer_rows_than_lines Sample.path
           Sample.stocked_world Sample.table_text
           [PyDict [(Some (lit "date"), PyStr (lit "2024-05-01"));
                    (Some (lit "title"), PyStr (lit "Standup"));
                    (Some (lit "detail"), PyStr (lit "daily"))]]).
  - by_evaluation.
  - by_evaluation.
Defined.

Lemma sample_ragged_cells :
  Forall (Forall (fun d => (CR ∉ d) /\ N.of_nat (length d) <= field_limit))
         (Scenario.ragged_names :: Scenario.ragged_rows).
Proof.
  repeat first [ apply Forall_nil_2 | apply Forall_cons_2 ];
    split; by_decision.
Qed.

Lemma load_all_pads_short_rows_and_collects_long_ones_witness :
  w_files Scenario.ragged_world !! Sample.path
  = Some (flat_map (fun cells => record_text cells ++ lineterminator)
                   (Scenario.ragged_names :: Scenario.ragged_rows))
  /\ NoDup Scenario.ragged_names
  /\ Forall (Forall (fun d => (CR ∉ d)
                              /\ N.of_nat (length d) <= field_limit))
            (Scenario.ragged_names :: Scenario.ragged_rows)
  /\ Forall (fun cells => cells <> []) Scenario.ragged_rows
  /\ exists loaded,
       load_data_from_csv Sample.path Scenario.ragged_world
       = (Ok (PyList (map PyDict loaded)), Scenario.ragged_world)
       /\ length loaded = length Scenario.ragged_rows
       /\ forall j cells d,
            Scenario.ragged_rows !! j = Some cells ->
            loaded !! j = Some d ->
            (forall i name, Scenario.ragged_names !! i = Some name ->
               dict_get d (Some name)
               = Some (match cells !! i with
                       | Some c => PyStr c
                       | None => PyNone
                       end))
            /\ dict_get d None
               = if Nat.ltb (length Scenario.ragged_names) (length cells)
                 then Some (PyList (map PyStr
                                        (drop (length Scenario.ragged_names)
                                              cells)))
                 else None.
Proof.
  split; [by_evaluation|].
  split; [by_decision|].
  split; [exact sample_ragged_cells|].
  split; [repeat first [ apply Forall_nil_2 | apply Forall_cons_2 ];
          discriminate|].
  apply (load_all_pads_short_rows_and_collects_long_ones
           Scenario.ragged_names Scenario.ragged_rows Sample.path
           Scenario.ragged_world).
  - by_evaluation.
  - by_decision.
  - exact sample_ragged_cells.
  - repeat first [ apply Forall_nil_2 | apply Forall_cons_2 ]; discriminate.
Defined.

Lemma load_all_skips_blank_lines_witness :
  Forall (Forall (fun d => (CR ∉ d) /\ N.of_nat (length d) <= field_limit))
         ([lit "a"] :: Scenario.gapped_rows)
  /\ w_files Scenario.gapped_world
       !! Sample.path
     = Some (flat_map (fun cells => record_text cells ++ lineterminator)
                      ([lit "a"] :: Scenario.gapped_rows))
  /\ w_files Scenario.dense_world !! Sample.path
     = Some (flat_map (fun cells => record_text cells ++ lineterminator)
                      ([lit "a"]
                       :: filter (fun cells => cells <> [])
                                 Scenario.gapped_rows))
  /\ exists loaded,
       fst (load_data_from_csv Sample.path
              Scenario.gapped_world)
       = Ok (PyList loaded)
       /\ fst (load_data_from_csv Sample.path
                 Scenario.dense_world)
          = Ok (PyList loaded)
       /\ length loaded
          = length (filter (fun cells => cells <> []) Scenario.gapped_rows).
Proof.
  assert (Hclean : Forall (Forall (fun d => (CR ∉ d)
                                    /\ N.of_nat (length d) <= field_limit))
                     ([lit "a"] :: Scenario.gapped_rows)).
  { repeat first [ apply Forall_nil_2 | apply Forall_cons_2 ];
      split; by_decision. }
  split; [exact Hclean|].
  split; [by_evaluation|].
  split; [by_evaluation|].
  apply (load_all_skips_blank_lines [lit "a"] Scenario.gapped_rows
           Sample.path).
  - exact Hclean.
  - by_evaluation.
  - by_evaluation.
Defined.

Lemma sample_with_cr :
  Forall (storable_with_cr (map fst Scenario.typed_on_windows))
         [Scenario.typed_on_windows].
Proof.
  apply Forall_cons_2; [|apply Forall_nil_2].
  unfold storable_with_cr.
  split; [by_decision|].
  split; [intros name; reflexivity|].
  apply Forall_cons_2; [|apply Forall_nil_2].
  split; [show_clean|]. split; by_evaluation.
Qed.

Lemma load_all_turns_carriage_returns_into_line_feeds_witness :
  w_files Sample.empty_world !! Sample.path = None
  /\ map fst Scenario.typed_on_windows <> []
  /\ Forall (storable_with_cr (map fst Scenario.typed_on_windows))
            [Scenario.typed_on_windows]
  /\ fst (save_data_to_csv Stub.str_of
            (of_batch [Scenario.typed_on_windows]) Sample.path
            Sample.empty_world) = Ok tt
  /\ fst (load_data_from_csv Sample.path
            (snd (save_data_to_csv Stub.str_of
                    (of_batch [Scenario.typed_on_windows]) Sample.path
                    Sample.empty_world)))
     = Ok (of_batch
             (map (fun record =>
                     map (fun name =>
                            (name,
                             translate_newlines
                               (record_value Stub.str_of record name)))
                         (map fst Scenario.typed_on_windows))
                  [Scenario.typed_on_windows])).
Proof.
  split; [reflexivity|].
  split; [discriminate|].
  split; [exact sample_with_cr|].
  apply (load_all_turns_carriage_returns_into_line_feeds Stub.str_of
           Scenario.typed_on_windows [] Sample.path Sample.empty_world).
  - reflexivity.
  - discriminate.
  - exact sample_with_cr.
Defined.

Lemma main_sends_four_prompts_and_prints_the_last_answer_witness :
  fst (main Stub.str_of Stub.loads Stub.dumps
            (Stub.scripted (Sample.script (lit "NO_UPDATE_NEEDED")))
            Stub.utf8_stdout
            Sample.empty_world) = Ok tt
  /\ exists extracted_activities prompt schedule_report,
       Stub.scripted (Sample.script (lit "NO_UPDATE_NEEDED"))
                     (w_prompts Sample.empty_world) extract_prompt
       = Ok extracted_activities
       /\ w_prompts (snd (main Stub.str_of Stub.loads Stub.dumps
                            (Stub.scripted
                               (Sample.script (lit "NO_UPDATE_NEEDED")))
                            Stub.utf8_stdout
                            Sample.empty_world))
          = w_prompts Sample.empty_world
            ++ [extract_prompt; json_prompt extracted_activities;
                react_prompt; prompt]
       /\ Stub.scripted (Sample.script (lit "NO_UPDATE_NEEDED"))
                        (w_prompts Sample.empty_world
                         ++ [extract_prompt; json_prompt extracted_activities;
                             react_prompt]) prompt
          = Ok schedule_report
       /\ w_stdout (snd (main Stub.str_of Stub.loads Stub.dumps
                           (Stub.scripted
                              (Sample.script (lit "NO_UPDATE_NEEDED")))
                           Stub.utf8_stdout
                           Sample.empty_world))
          = w_stdout Sample.empty_world
            ++ [lit "Schedule for tomorrow:"; schedule_report].
Proof.
  split; [by_evaluation|].
  apply (main_sends_four_prompts_and_prints_the_last_answer Stub.str_of
           Stub.loads Stub.dumps
           (Stub.scripted (Sample.script (lit "NO_UPDATE_NEEDED")))
           Stub.utf8_stdout
           Sample.empty_world).
  by_evaluation.
Defined.

Lemma main_prints_at_most_the_heading_when_it_fails_witness :
  fst (main Stub.str_of Stub.loads Stub.dumps
            (Stub.scripted Scenario.unprintable_script) Stub.utf8_stdout
            Sample.empty_world) = Raise UnicodeEncodeError
  /\ (w_stdout (snd (main Stub.str_of Stub.loads Stub.dumps
                       (Stub.scripted Scenario.unprintable_script)
                       Stub.utf8_stdout Sample.empty_world))
      = w_stdout Sample.empty_world
      \/ (w_stdout (snd (main Stub.str_of Stub.loads Stub.dumps
                           (Stub.scripted Scenario.unprintable_script)
                           Stub.utf8_stdout Sample.empty_world))
          = w_stdout Sample.empty_world ++ [lit "Schedule for tomorrow:"]
          /\ exists history prompt schedule_report,
               Stub.scripted Scenario.unprintable_script history prompt
               = Ok schedule_report
               /\ Stub.utf8_stdout
                    (w_stdout Sample.empty_world
                     ++ [lit "Schedule for tomorrow:"])
                    schedule_report
                  = Raise UnicodeEncodeError)).
Proof.
  split; [by_evaluation|].
  apply (main_prints_at_most_the_heading_when_it_fails Stub.str_of Stub.loads
           Stub.dumps (Stub.scripted Scenario.unprintable_script)
           Stub.utf8_stdout Sample.empty_world UnicodeEncodeError).
  by_evaluation.
Defined.

(** The run of the example has printed the heading and nothing else. *)
Example main_prints_the_heading_alone :
  main Stub.str_of Stub.loads Stub.dumps
       (Stub.scripted Scenario.unprintable_script) Stub.utf8_stdout
       Sample.empty_world
  = (Raise UnicodeEncodeError,
     World ∅
           [extract_prompt; json_prompt Sample.activities_text; react_prompt;
            nl ++ lit "        You have the following activities in memory:"
            ++ nl ++ lit "        " ++ Stub.dumps (PyList []) ++ nl ++ nl
            ++ lit "        The user wants their schedule for tomorrow. "
            ++ nl
            ++ lit "        Summarize the activities scheduled for tomorrow in a clear, concise manner."
            ++ nl ++ lit "        If no activities are scheduled, say so."
            ++ nl ++ lit "        "]
           [lit "Schedule for tomorrow:"]).
Proof. by_evaluation. Qed.

Lemma main_only_adds_to_the_storage_file_witness :
  Scenario.copy_path <> STORAGE_FILE
  /\ w_files (snd (main Stub.str_of Scenario.loads Stub.dumps
                     (Stub.scripted
                        (Scenario.script (lit "NO_UPDATE_NEEDED")))
                     Stub.utf8_stdout
                     Sample.stocked_world)) !! Scenario.copy_path
     = w_files Sample.stocked_world !! Scenario.copy_path
  /\ forall content,
       w_files Sample.stocked_world !! STORAGE_FILE = Some content ->
       exists added,
         w_files (snd (main Stub.str_of Scenario.loads Stub.dumps
                         (Stub.scripted
                            (Scenario.script (lit "NO_UPDATE_NEEDED")))
                         Stub.utf8_stdout
                         Sample.stocked_world)) !! STORAGE_FILE
         = Some (content ++ added).
Proof.
  split; [by_evaluation|].
  apply (main_only_adds_to_the_storage_file Stub.str_of Scenario.loads
           Stub.dumps
           (Stub.scripted (Scenario.script (lit "NO_UPDATE_NEEDED")))
           Stub.utf8_stdout
           Sample.stocked_world Scenario.copy_path).
  by_evaluation.
Defined.

Lemma main_ends_when_an_extraction_call_fails_witness :
  (Stub.scripted [] (w_prompts Sample.stocked_world) extract_prompt
   = Raise RuntimeError
   \/ exists extracted_activities,
        Stub.scripted [] (w_prompts Sample.stocked_world) extract_prompt
        = Ok extracted_activities
        /\ Stub.scripted [] (w_prompts Sample.stocked_world
                             ++ [extract_prompt])
                         (json_prompt extracted_activities)
           = Raise RuntimeError)
  /\ fst (main Stub.str_of Stub.loads Stub.dumps (Stub.scripted [])
                                                 Stub.utf8_stdout
               Sample.stocked_world) = Raise RuntimeError
  /\ w_files (snd (main Stub.str_of Stub.loads Stub.dumps (Stub.scripted [])
                                                          Stub.utf8_stdout
                        Sample.stocked_world))
     = w_files Sample.stocked_world
  /\ w_stdout (snd (main Stub.str_of Stub.loads Stub.dumps (Stub.scripted [])
                                                           Stub.utf8_stdout
                         Sample.stocked_world))
     = w_stdout Sample.stocked_world
  /\ (length (w_prompts (snd (main Stub.str_of Stub.loads Stub.dumps
                                   (Stub.scripted []) Stub.utf8_stdout
                                   Sample.stocked_world)))
      <= length (w_prompts Sample.stocked_world) + 2)%nat.
Proof.
  split; [left; reflexivity|].
  apply (main_ends_when_an_extraction_call_fails Stub.str_of Stub.loads
           Stub.dumps (Stub.scripted [])
                      Stub.utf8_stdout Sample.stocked_world RuntimeError).
  left. reflexivity.
Defined.

Lemma main_goes_on_with_a_falsy_value_witness :
  Stub.scripted [Sample.activities_text; lit "0"; lit "NO_UPDATE_NEEDED"]
                (w_prompts Sample.stocked_world) extract_prompt
  = Ok Sample.activities_text
  /\ Stub.scripted [Sample.activities_text; lit "0"; lit "NO_UPDATE_NEEDED"]
                   (w_prompts Sample.stocked_world ++ [extract_prompt])
                   (json_prompt Sample.activities_text)
     = Ok (lit "0")
  /\ Stub.loads (lit "0") = Ok (PyInt 0)
  /\ truthy (PyInt 0) = false
  /\ main Stub.str_of Stub.loads Stub.dumps
          (Stub.scripted
             [Sample.activities_text; lit "0"; lit "NO_UPDATE_NEEDED"])
          Stub.utf8_stdout
          Sample.stocked_world
     = query_pipeline Stub.dumps
         (Stub.scripted
            [Sample.activities_text; lit "0"; lit "NO_UPDATE_NEEDED"])
         Stub.utf8_stdout
         (PyInt 0)
         (snd (extraction_pipeline Stub.loads
                 (Stub.scripted
                    [Sample.activities_text; lit "0";
                     lit "NO_UPDATE_NEEDED"])
                 Sample.stocked_world))
  /\ w_files (snd (main Stub.str_of Stub.loads Stub.dumps
                        (Stub.scripted
                           [Sample.activities_text; lit "0";
                            lit "NO_UPDATE_NEEDED"]) Stub.utf8_stdout
                        Sample.stocked_world))
     = w_files Sample.stocked_world
  /\ forall react_response,
       Stub.scripted [Sample.activities_text; lit "0"; lit "NO_UPDATE_NEEDED"]
                     (w_prompts Sample.stocked_world
                      ++ [extract_prompt; json_prompt Sample.activities_text])
                     react_prompt
       = Ok react_response ->
       ~ occurs_in (lit "NEED_DATA_UPDATE") react_response ->
       w_prompts (snd (main Stub.str_of Stub.loads Stub.dumps
                            (Stub.scripted
                               [Sample.activities_text; lit "0";
                                lit "NO_UPDATE_NEEDED"]) Stub.utf8_stdout
                            Sample.stocked_world))
       = w_prompts Sample.stocked_world
         ++ [extract_prompt; json_prompt Sample.activities_text; react_prompt;
             nl ++ lit "        You have the following activities in memory:"
             ++ nl ++ lit "        " ++ Stub.dumps (PyInt 0)
             ++ nl
             ++ nl ++ lit "        The user wants their schedule for tomorrow. "
             ++ nl
             ++ lit "        Summarize the activities scheduled for tomorrow in a clear, concise manner."
             ++ nl ++ lit "        If no activities are scheduled, say so."
             ++ nl ++ lit "        "].
Proof.
  split; [reflexivity|].
  split; [reflexivity|].
  split; [by_evaluation|].
  split; [reflexivity|].
  apply (main_goes_on_with_a_falsy_value Stub.str_of Stub.loads Stub.dumps
           (Stub.scripted
              [Sample.activities_text; lit "0"; lit "NO_UPDATE_NEEDED"])
           Stub.utf8_stdout
           Sample.stocked_world Sample.activities_text (lit "0") (PyInt 0)).
  - reflexivity.
  - reflexivity.
  - by_evaluation.
  - reflexivity.
Defined.

Lemma main_stores_and_reloads_the_extracted_batch_witness :
  w_files Sample.empty_world !! STORAGE_FILE = None
  /\ Stub.scripted (Scenario.script (lit "Yes: NEED_DATA_UPDATE."))
                   (w_prompts Sample.empty_world) extract_prompt
     = Ok Sample.activities_text
  /\ Stub.scripted (Scenario.script (lit "Yes: NEED_DATA_UPDATE."))
                   (w_prompts Sample.empty_world ++ [extract_prompt])
                   (json_prompt Sample.activities_text)
     = Ok Scenario.json_text
  /\ Scenario.loads Scenario.json_text
     = Ok (of_batch [Sample.meeting; Sample.follow_up])
  /\ map fst Sample.meeting <> []
  /\ Forall (storable (map fst Sample.meeting))
            [Sample.meeting; Sample.follow_up]
  /\ exists loaded,
       rows_match (map fst Sample.meeting)
                  [Sample.meeting; Sample.follow_up] loaded
       /\ load_data_from_csv STORAGE_FILE
            (snd (main Stub.str_of Scenario.loads Stub.dumps
                       (Stub.scripted
                          (Scenario.script (lit "Yes: NEED_DATA_UPDATE.")))
                       Stub.utf8_stdout
                       Sample.empty_world))
          = (Ok (of_batch loaded),
             snd (main Stub.str_of Scenario.loads Stub.dumps
                       (Stub.scripted
                          (Scenario.script (lit "Yes: NEED_DATA_UPDATE.")))
                       Stub.utf8_stdout
                       Sample.empty_world))
       /\ forall react_response,
            Stub.scripted (Scenario.script (lit "Yes: NEED_DATA_UPDATE."))
                          (w_prompts Sample.empty_world
                           ++ [extract_prompt;
                               json_prompt Sample.activities_text])
                          react_prompt
            = Ok react_response ->
            occurs_in (lit "NEED_DATA_UPDATE") react_response ->
            w_prompts (snd (main Stub.str_of Scenario.loads Stub.dumps
                                 (Stub.scripted
                                    (Scenario.script
                                       (lit "Yes: NEED_DATA_UPDATE.")))
                                 Stub.utf8_stdout
                                 Sample.empty_world))
            = w_prompts Sample.empty_world
              ++ [extract_prompt; json_prompt Sample.activities_text;
                  react_prompt;
                  nl ++ lit "        You have the following stored activities:"
                  ++ nl ++ lit "        " ++ Stub.dumps (of_batch loaded)
                  ++ nl
                  ++ nl ++ lit "        The user wants their schedule for tomorrow. "
                  ++ nl
                  ++ lit "        Summarize the activities scheduled for tomorrow in a clear, concise manner."
                  ++ nl ++ lit "        If no activities are scheduled, say so."
                  ++ nl ++ lit "        "].
Proof.
  split; [reflexivity|].
  split; [reflexivity|].
  split; [reflexivity|].
  split; [by_evaluation|].
  split; [discriminate|].
  split; [exact sample_batch_storable|].
  apply (main_stores_and_reloads_the_extracted_batch Stub.str_of
           Scenario.loads Stub.dumps
           (Stub.scripted (Scenario.script (lit "Yes: NEED_DATA_UPDATE.")))
           Stub.utf8_stdout
           Sample.meeting [Sample.follow_up] Sample.empty_world
           Sample.activities_text Scenario.json_text).
  - reflexivity.
  - reflexivity.
  - reflexivity.
  - by_evaluation.
  - discriminate.
  - exact sample_batch_storable.
Defined.

Lemma ollama_returns_what_the_service_printed_witness :
  forallb utf8_encodable (lit "  tomorrow?  ") = true
  /\ Scenario.echo_service
       [lit "ollama"; lit "run"; default_model_name]
       (flat_map utf8_encode_char (lit "  tomorrow?  "))
     = Ok {| returncode := 1;
             stdout := flat_map utf8_encode_char (lit "  tomorrow?  ") |}
  /\ query_llm_with_ollama Scenario.echo_service (lit "  tomorrow?  ")
                           default_model_name
     = Answer (str_strip (lit "  tomorrow?  ")).
Proof.
  split; [reflexivity|].
  split; [reflexivity|].
  apply (ollama_returns_what_the_service_printed Scenario.echo_service
           (lit "  tomorrow?  ") default_model_name (lit "  tomorrow?  ") 1%Z).
  - reflexivity.
  - reflexivity.
  - reflexivity.
Defined.

Lemma main_prints_a_stripped_report_witness :
  fst (main Stub.str_of Stub.loads Stub.dumps
            (chosen_backend unit Scenario.llama_load Scenario.llama_call)
            Stub.utf8_stdout
            Sample.empty_world) = Ok tt
  /\ exists schedule_report,
       w_stdout (snd (main Stub.str_of Stub.loads Stub.dumps
                           (chosen_backend unit Scenario.llama_load
                                           Scenario.llama_call)
                           Stub.utf8_stdout
                           Sample.empty_world))
       = w_stdout Sample.empty_world
         ++ [lit "Schedule for tomorrow:"; schedule_report]
       /\ stripped schedule_report.
Proof.
  split; [by_evaluation|].
  apply (main_prints_a_stripped_report Stub.str_of Stub.loads Stub.dumps
           unit Scenario.llama_load Scenario.llama_call Stub.utf8_stdout
           Sample.empty_world).
  by_evaluation.
Defined.

(** ** Where the claims as first stated fail *)

Lemma forallb_repeat {A} (P : A -> bool) (x : A) (n : nat) :
  P x = true -> forallb P (repeat x n) = true.
Proof. intros Hx. induction n as [|n IH]; simpl; [done|]. by rewrite Hx. Qed.

Lemma existsb_repeat {A} (P : A -> bool) (x : A) (n : nat) :
  P x = false -> existsb P (repeat x n) = false.
Proof. intros Hx. induction n as [|n IH]; simpl; [done|]. by rewrite Hx. Qed.

(** C1 as stated fails. A batch of one record without any field is written
    as two blank lines, which [DictReader] takes as an empty header and a
    blank row to skip: the table comes back empty. A value with a lone
    surrogate is refused by the UTF-8 codec when its row is written. A
    value of 131073 characters is written, and the reader then refuses the
    file. *)
Lemma roundtrip_fails_on_unstorable_records :
  (fst (save_data_to_csv Stub.str_of (of_batch [[]]) Sample.path
                         Sample.empty_world) = Ok tt
   /\ w_files (snd (save_data_to_csv Stub.str_of (of_batch [[]]) Sample.path
                                     Sample.empty_world)) !! Sample.path
      = Some (Sample.crlf ++ Sample.crlf)
   /\ fst (load_data_from_csv Sample.path
             (snd (save_data_to_csv Stub.str_of (of_batch [[]]) Sample.path
                                    Sample.empty_world)))
      = Ok (of_batch [])
   /\ length (@nil (list (list N * list N)))
      <> length [@nil (list N * list N)])
  /\ fst (save_data_to_csv Stub.str_of (of_batch [Sample.surrogate])
                           Sample.path Sample.empty_world)
     = Raise UnicodeEncodeError
  /\ (fst (save_data_to_csv Stub.str_of (of_batch [Sample.long_record])
                            Sample.path Sample.empty_world) = Ok tt
      /\ fst (load_data_from_csv Sample.path
                (snd (save_data_to_csv Stub.str_of
                        (of_batch [Sample.long_record])
                        Sample.path Sample.empty_world)))
         = Raise csv_Error).
Proof.
  split; [repeat split; try (vm_compute; reflexivity); discriminate|].
  split; [vm_compute; reflexivity|].
  apply (load_overlong_value Stub.str_of (lit "k") Sample.long_value
           Sample.path Sample.empty_world).
  - reflexivity.
  - show_clean.
  - by apply forallb_repeat.
  - by apply existsb_repeat.
  - unfold Sample.long_value. rewrite repeat_length, N2Nat.id. reflexivity.
Qed.

(** The read side opens the file without [newline=''], unlike the write
    side: a carriage return inside a value comes back as a line feed. *)
Example carriage_return_comes_back_as_line_feed :
  fst (load_data_from_csv Sample.path
         (snd (save_data_to_csv Stub.str_of
                 (of_batch [[(lit "k", lit "a" ++ [CR] ++ lit "b")]])
                 Sample.path Sample.empty_world)))
  = Ok (of_batch [[(lit "k", lit "a" ++ [LF] ++ lit "b")]]).
Proof. vm_compute. reflexivity. Qed.


(** C4 as stated fails. The second record has a key the first one lacks:
    append raises after the header and one row, so two records leave one
    row. A record whose value cannot be encoded leaves the header alone. *)
Lemma append_stops_at_refused_record :
  (fst (save_data_to_csv Stub.str_of
          (PyList (map PyDict [Sample.full; Sample.extra]))
          Sample.path Sample.empty_world) = Raise ValueError
   /\ w_files (snd (save_data_to_csv Stub.str_of
                      (PyList (map PyDict [Sample.full; Sample.extra]))
                      Sample.path Sample.empty_world)) !! Sample.path
      = Some (lit "a,b" ++ Sample.crlf ++ lit "1,2" ++ Sample.crlf))
  /\ (fst (save_data_to_csv Stub.str_of (of_batch [Sample.surrogate])
                            Sample.path Sample.empty_world)
      = Raise UnicodeEncodeError
      /\ w_files (snd (save_data_to_csv Stub.str_of
                         (of_batch [Sample.surrogate])
                         Sample.path Sample.empty_world)) !! Sample.path
         = Some (lit "k" ++ Sample.crlf)).
Proof. repeat split; vm_compute; reflexivity. Qed.

(** C5 as stated fails. On a table with header a, b a record that lists
    the same keys as b, a is written in its own order and read back under
    the header's: its values come back swapped. On a table whose last row
    has no line break the new row is glued to it: the row that was
    loadable before comes back changed. *)
Lemma append_changes_rows_or_swaps_values :
  (fst (save_data_to_csv Stub.str_of (of_batch [Sample.ba_record])
                         Sample.path Sample.ab_world) = Ok tt
   /\ fst (load_data_from_csv Sample.path
             (snd (save_data_to_csv Stub.str_of
                     (of_batch [Sample.ba_record])
                     Sample.path Sample.ab_world)))
      = Ok (of_batch [[(lit "a", lit "1"); (lit "b", lit "2")];
                      [(lit "a", lit "x"); (lit "b", lit "y")]])
   /\ dict_get (of_record Sample.ba_record) (Some (lit "a"))
      = Some (PyStr (lit "y")))
  /\ (fst (load_data_from_csv Sample.path Sample.ab_unfinished_world)
      = Ok (of_batch [[(lit "a", lit "1"); (lit "b", lit "2")]])
      /\ fst (save_data_to_csv Stub.str_of (of_batch [Sample.ab_record])
                               Sample.path Sample.ab_unfinished_world)
         = Ok tt
      /\ fst (load_data_from_csv Sample.path
                (snd (save_data_to_csv Stub.str_of
                        (of_batch [Sample.ab_record])
                        Sample.path Sample.ab_unfinished_world)))
         = Ok (PyList [PyDict [(Some (lit "a"), PyStr (lit "1"));
                               (Some (lit "b"), PyStr (lit "2x"));
                               (None, PyList [PyStr (lit "y")])]])).
Proof. repeat split; vm_compute; reflexivity. Qed.
